(** * Flux-Titan news pipeline: a shallow embedding of the Python sources

    Modelled files: src/src/telegram_bot.py, src/src/database.py,
    src/src/rss_parser.py, src/src/image_extractor.py, src/main.py.

    Python [str] values are lists of Unicode code points, so that [len],
    slicing and [str.replace] count characters the way Python does. *)

From Stdlib Require Import List ZArith NArith Lia Bool String Ascii Arith.
From Stdlib Require Import Permutation Sorted.
Import ListNotations.

Set Implicit Arguments.

(* ===================================================================== *)
(** ** Python strings *)
(* ===================================================================== *)

Module PyStr.
Local Open Scope N_scope.

Definition char := N.
Definition str := list char.

(** An ASCII literal of the source as a list of code points. *)
Definition lit (s : string) : str :=
  List.map N_of_ascii (list_ascii_of_string s).

Definition len (s : str) : nat := List.length s.

(** [s[:n]] *)
Definition slice_to (n : nat) (s : str) : str := firstn n s.

Definition str_eqb (a b : str) : bool :=
  if list_eq_dec N.eq_dec a b then true else false.

(** [s.startswith(p)] *)
Fixpoint startswith (p s : str) : bool :=
  match p, s with
  | [], _ => true
  | _ :: _, [] => false
  | a :: p', b :: s' => N.eqb a b && startswith p' s'
  end.

(** [s.endswith(p)] *)
Definition endswith (p s : str) : bool := startswith (rev p) (rev s).

(** [p in s] *)
Fixpoint contains (p s : str) : bool :=
  startswith p s ||
  match s with
  | [] => false
  | _ :: s' => contains p s'
  end.

(** [str.isspace] on one code point; the same set is what [\s] matches in
    a [str] pattern and what [str.strip()] removes. *)
Definition is_space (c : char) : bool :=
  ((9 <=? c) && (c <=? 13)) || ((28 <=? c) && (c <=? 32)) ||
  (c =? 133) || (c =? 160) || (c =? 5760) ||
  ((8192 <=? c) && (c <=? 8202)) || (c =? 8232) || (c =? 8233) ||
  (c =? 8239) || (c =? 8287) || (c =? 12288).

Fixpoint lstrip (s : str) : str :=
  match s with
  | [] => []
  | c :: s' => if is_space c then lstrip s' else s
  end.

Fixpoint rstrip (s : str) : str :=
  match s with
  | [] => []
  | c :: s' =>
      match rstrip s' with
      | [] => if is_space c then [] else [c]
      | t => c :: t
      end
  end.

(** [s.strip()] *)
Definition strip (s : str) : str := rstrip (lstrip s).

(** Lower-casing of one code point.  ASCII capitals go to their small
    letters; U+0130 lowers to "i" followed by U+0307 and U+212A to "k".
    Every other code point outside ASCII lowers to code points outside
    ASCII again and is kept as it is: the tests below only look for ASCII
    text, which cannot tell the difference. *)
Definition lower_char (c : char) : str :=
  if (65 <=? c) && (c <=? 90) then [c + 32]
  else if c =? 304 then [105; 775]
  else if c =? 8490 then [107]
  else [c].

(** [s.lower()] *)
Definition lower (s : str) : str := flat_map lower_char s.

(** [s.replace(old, new)] for a non-empty [old]: occurrences are replaced
    from left to right and do not overlap.  [skip] counts the characters of
    an occurrence that are still to be dropped. *)
Fixpoint replace_from (old new : str) (skip : nat) (s : str) : str :=
  match s with
  | [] => []
  | c :: s' =>
      match skip with
      | S k => replace_from old new k s'
      | O =>
          if startswith old s
          then new ++ replace_from old new (List.length old - 1)%nat s'
          else c :: replace_from old new 0 s'
      end
  end.

Definition replace (old new s : str) : str := replace_from old new 0 s.

End PyStr.
Import PyStr.

(* ===================================================================== *)
(** ** The fragment of [re] the sources use *)
(* ===================================================================== *)

(** Every pattern of the sources is a sequence of literals, one-character
    classes and greedy [+] over a class, with at most one capturing group
    around such a [+].  The matcher backtracks the way [re] does: a greedy
    [+] first takes the longest run and gives characters back one at a
    time. *)
Module Re.
Local Open Scope N_scope.

Inductive atom : Type :=
| Chr (c : char)                 (* a literal *)
| ChrI (c : char)                (* a lower-case literal under IGNORECASE *)
| Cls (p : char -> bool)         (* one character of a class *)
| Plus (p : char -> bool)        (* class+ *)
| Group (p : char -> bool).      (* (class+), group 1 *)

Definition pattern := list atom.

(** Case-insensitive comparison against a lower-case ASCII literal; under
    IGNORECASE "i" also matches U+0130 and U+0131, "s" U+017F and "k"
    U+212A. *)
Definition ieq (c x : char) : bool :=
  (x =? c) || ((65 <=? x) && (x <=? 90) && (x + 32 =? c)) ||
  ((c =? 105) && ((x =? 304) || (x =? 305))) ||
  ((c =? 115) && (x =? 383)) ||
  ((c =? 107) && (x =? 8490)).

Fixpoint run_length (p : char -> bool) (s : str) : nat :=
  match s with
  | [] => O
  | c :: s' => if p c then S (run_length p s') else O
  end.

(** Backtracking of a greedy [+] that took [k] characters: try the rest
    of the pattern after [k] characters, then after one less, down to
    one. *)
Fixpoint give_back {R : Type} (rest_after : nat -> option R) (k : nat)
  : option R :=
  match k with
  | O => None
  | S k' =>
      match rest_after k with
      | Some r => Some r
      | None => give_back rest_after k'
      end
  end.

(** [match_here re s cap]: match [re] at the start of [s]; the result is
    group 1 (if the pattern has one) and the text left after the match. *)
Fixpoint match_here (re : pattern) (s : str) (cap : option str)
  : option (option str * str) :=
  match re with
  | [] => Some (cap, s)
  | a :: re' =>
      match a with
      | Chr c =>
          match s with
          | x :: s' => if x =? c then match_here re' s' cap else None
          | [] => None
          end
      | ChrI c =>
          match s with
          | x :: s' => if ieq c x then match_here re' s' cap else None
          | [] => None
          end
      | Cls p =>
          match s with
          | x :: s' => if p x then match_here re' s' cap else None
          | [] => None
          end
      | Plus p =>
          give_back (fun k => match_here re' (skipn k s) cap)
                    (run_length p s)
      | Group p =>
          give_back (fun k => match_here re' (skipn k s) (Some (firstn k s)))
                    (run_length p s)
      end
  end.

(** [pattern.search(s)]: the match at the leftmost start position. *)
Fixpoint search (re : pattern) (s : str) : option (option str * str) :=
  match match_here re s None with
  | Some r => Some r
  | None =>
      match s with
      | [] => None
      | _ :: s' => search re s'
      end
  end.

(** [match.group(1)] of [pattern.search(s)]. *)
Definition search_group1 (re : pattern) (s : str) : option str :=
  match search re s with
  | Some (Some g, _) => Some g
  | _ => None
  end.

(** [re.sub(re, repl, s)] for a pattern that matches no empty string. *)
Fixpoint sub_from (re : pattern) (repl : str) (skip : nat) (s : str) : str :=
  match s with
  | [] => []
  | c :: s' =>
      match skip with
      | S k => sub_from re repl k s'
      | O =>
          match match_here re s None with
          | Some (_, rest) =>
              repl ++ sub_from re repl (List.length s - List.length rest - 1)%nat s'
          | None => c :: sub_from re repl 0 s'
          end
      end
  end.

Definition sub (re : pattern) (repl s : str) : str := sub_from re repl 0 s.

Definition literal_i (s : string) : pattern := List.map ChrI (lit s).

End Re.

(* ===================================================================== *)
(** ** Data model *)
(* ===================================================================== *)

(** Times are seconds on one clock (a Python [datetime], an SQLite
    timestamp). *)
Definition time := Z.

(** [datetime.min], 0001-01-01 00:00:00, on that clock. *)
Definition datetime_min : time := (-62135596800)%Z.

(** A feed of [Config.rss_feeds]: a dict with name, url and icon. *)
Record FeedInfo := {
  feed_name : str;
  feed_url : str;
  feed_icon : option str
}.

(** An entry as [feedparser] hands it over; every field may be missing.
    [e_content] lists the [value] of each item of [entry.content] and is
    empty when the entry has no content. *)
Record Entry := {
  e_title : option str;
  e_link : option str;
  e_summary : option str;
  e_published : option str;
  e_author : option str;
  e_content : list (option str)
}.

(** The article dict built by [RSSParser.fetch_feed]. *)
Record Article := {
  title : str;
  link : str;
  summary : str;
  published : option time;
  author : str;
  source : str;
  source_icon : str;
  content : str
}.

(** A row of [processed_articles].  The surrogate key [id] is left out:
    no statement of the sources reads it. *)
Record Row := {
  row_link : str;
  row_title : str;
  row_source : str;
  row_processed_at : time
}.

Definition Table := list Row.

(** The SQL statements [Database] executes. *)
Inductive Stmt : Type :=
| PragmaWal
| CreateTable
| CreateIndexLink
| CreateIndexProcessedAt
| SelectByLink (l : str)
| InsertOrIgnore (l t s : str)
| CountAll
| SelectLastProcessed
| CountBySource
| CountLastDay
| DeleteOlderThan (days : Z)
| Vacuum.

(** The dict [Database.get_stats] returns. *)
Record DbStats := {
  total : nat;
  last_processed : option time;
  by_source : list (str * nat);
  last_24h : nat
}.

(** Exceptions.  [SystemExit] is the only one that is not an
    [Exception]. *)
Inductive exn : Type :=
| SqliteError
| HTTPStatusError
| TimeoutException
| TransportError
| ValueError
| RuntimeError
| SystemExit (code : Z).

Definition is_Exception (e : exn) : bool :=
  match e with SystemExit _ => false | _ => true end.

Definition is_sqlite_Error (e : exn) : bool :=
  match e with SqliteError => true | _ => false end.

(** Entries of [stats["errors"]]. *)
Inductive RunError : Type :=
| TelegramConnectionFailed
| Unhandled (e : exn).

(** The [stats] dict of [NewsBot.run]. *)
Record RunStats := {
  started_at : time;
  articles_found : nat;
  articles_new : nat;
  articles_processed : nat;
  articles_failed : nat;
  errors : list RunError;
  finished_at : option time
}.

(** [Config], as far as the pipeline reads it. *)
Record Config := {
  telegram_token : str;
  gemini_api_key : str;
  channel_id : str;
  max_articles_per_run : Z;
  rss_feeds : list FeedInfo
}.

(** A cell of a result row, and a [sqlite3] cursor after [execute]. *)
Inductive Value : Type :=
| VInt (n : Z)
| VText (s : str)
| VTime (t : time).

Record Cursor := {
  rows : list (list Value);
  rowcount : Z
}.

(* ===================================================================== *)
(** ** The outside world *)
(* ===================================================================== *)

(** What a POST to the Bot API comes back with. *)
Inductive SendReply : Type :=
| SendRaises
| SendStatus (status_code : N).

(** What [GET getMe] comes back with; [ok] says that the body is JSON with
    a true "ok" and a result that has a username. *)
Inductive GetMeReply : Type :=
| GetMeRaises
| GetMeStatus (status_code : N) (ok : bool).

(** What the GET of an article page comes back with: the client raises (a
    timeout or another transport error) or there is a response;
    [error_status] says that [raise_for_status] raises. *)
Inductive PageReply : Type :=
| PageRaises (timeout : bool)
| PageResponse (error_status : bool) (text : str).

(** What [feedparser.parse] comes back with. *)
Inductive FeedReply : Type :=
| FeedRaises
| FeedParsed (entries : list Entry).

(** The world answers the n-th external request of a run; pure library
    functions the sources call are part of it. *)
Record World := {
  w_send : nat -> SendReply;
  w_getMe : nat -> GetMeReply;
  w_page : nat -> PageReply;
  w_feed : nat -> FeedReply;
  w_summarize : nat -> option str;    (* GeminiSummarizer.summarize *)
  w_sql_fault : nat -> bool;          (* this step raises sqlite3.Error *)
  w_now : nat -> time;                (* the clock *)
  w_parse_date : str -> option time;  (* feedparser._parse_date, mktime *)
  w_urljoin : str -> str -> str;      (* urllib.parse.urljoin *)
  w_getenv : string -> option str;    (* os.getenv *)
  w_int : str -> option Z;            (* int(), None for ValueError *)
  w_feeds : list FeedInfo;            (* defaults, then CUSTOM_RSS_FEEDS *)
  w_genai_ok : bool                   (* GenerativeModel(...) does not raise *)
}.

(** Requests that leave the process. *)
Inductive Wire : Type :=
| WGetMe
| WSendPhoto (photo caption : str) (reply : SendReply)
| WSendMessage (text : str) (disable_preview : bool) (reply : SendReply)
| WGetPage (url : str)
| WParseFeed (url : str)
| WGenerate (a : Article)
| WSqlConnect
| WSql (s : Stmt)
| WSqlCommit
| WSqlRollback
| WSqlClose
| WSleep (seconds : N)
| WCloseClients.

(** The orchestrator's calls on its collaborators with what they
    returned, as a test double would record them. *)
Inductive Call : Type :=
| CTestConnection (r : bool)
| CFetchAll (n : nat)
| CIsProcessed (l : str) (r : bool)
| CExtract (url : str) (r : option str)
| CSummarize (a : Article) (r : option str)
| CPost (text : str) (image_url : option str) (r : bool)
| CMarkProcessed (l t s : str) (r : bool)
| CGetStats
| CCleanup.

(** The state of a run: the number of external requests made so far, the
    committed table, the table as the open connection sees it, the [stats]
    dict, and the two logs. *)
Record St := {
  tick : nat;
  table : Table;
  work : Table;
  stats : RunStats;
  calls : list Call;
  wire : list Wire
}.

Definition bump (st : St) : St :=
  {| tick := S (tick st); table := table st; work := work st;
     stats := stats st; calls := calls st; wire := wire st |}.

Definition log_wire (e : Wire) (st : St) : St :=
  {| tick := tick st; table := table st; work := work st;
     stats := stats st; calls := calls st; wire := wire st ++ [e] |}.

Definition log_call (c : Call) (st : St) : St :=
  {| tick := tick st; table := table st; work := work st;
     stats := stats st; calls := calls st ++ [c]; wire := wire st |}.

Definition set_table (t : Table) (st : St) : St :=
  {| tick := tick st; table := t; work := work st;
     stats := stats st; calls := calls st; wire := wire st |}.

Definition set_work (t : Table) (st : St) : St :=
  {| tick := tick st; table := table st; work := t;
     stats := stats st; calls := calls st; wire := wire st |}.

Definition set_stats (s : RunStats) (st : St) : St :=
  {| tick := tick st; table := table st; work := work st;
     stats := s; calls := calls st; wire := wire st |}.

(* ===================================================================== *)
(** ** Effects: state and exceptions *)
(* ===================================================================== *)

Inductive res (A : Type) : Type :=
| Val (a : A)
| Exc (e : exn).
Arguments Val {A} a.
Arguments Exc {A} e.

Definition M (A : Type) : Type := St -> res A * St.

Definition ret {A} (a : A) : M A := fun st => (Val a, st).

Definition raise {A} (e : exn) : M A := fun st => (Exc e, st).

Definition bind {A B} (m : M A) (k : A -> M B) : M B :=
  fun st =>
    match m st with
    | (Val a, st') => k a st'
    | (Exc e, st') => (Exc e, st')
    end.

Notation "x <- m ;; k" := (bind m (fun x => k))
  (at level 61, m at next level, right associativity).
Notation "m ;;; k" := (bind m (fun _ => k))
  (at level 61, right associativity).

(** [try: m  except <catches> as e: h e] *)
Definition try_except {A} (m : M A) (catches : exn -> bool) (h : exn -> M A)
  : M A :=
  fun st =>
    match m st with
    | (Val a, st') => (Val a, st')
    | (Exc e, st') => if catches e then h e st' else (Exc e, st')
    end.

(** [try: m  finally: f]; an exception of [f] replaces the outcome of [m]. *)
Definition try_finally {A} (m : M A) (f : M unit) : M A :=
  fun st =>
    match m st with
    | (r, st') =>
        match f st' with
        | (Val _, st'') => (r, st'')
        | (Exc e, st'') => (Exc e, st'')
        end
    end.

Definition get : M St := fun st => (Val st, st).

Definition modify (f : St -> St) : M unit := fun st => (Val tt, f st).

(** A [for] loop over a list. *)
Fixpoint for_each {A} (l : list A) (body : A -> M unit) : M unit :=
  match l with
  | [] => ret tt
  | a :: l' => body a ;;; for_each l' body
  end.

Fixpoint map_m {A B} (f : A -> M B) (l : list A) : M (list B) :=
  match l with
  | [] => ret []
  | a :: l' => b <- f a ;; bs <- map_m f l' ;; ret (b :: bs)
  end.

(** A call of the orchestrator on a collaborator, recorded with its
    result. *)
Definition call {A} (m : M A) (ev : A -> Call) : M A :=
  a <- m ;; modify (log_call (ev a)) ;;; ret a.

(** Truth value of an optional string ([if image_url:], [if not summary:]). *)
Definition truthy (s : option str) : bool :=
  match s with
  | Some (_ :: _) => true
  | _ => false
  end.

(* ===================================================================== *)
(** ** src/src/telegram_bot.py *)
(* ===================================================================== *)

Module TelegramPoster.
Section WithWorld.
Variable w : World.

(** One POST to the Bot API: the world's answer, or an exception of the
    HTTP client. *)
Definition client_post (request : SendReply -> Wire) : M N :=
  fun st =>
    let reply := w_send w (tick st) in
    let st' := bump (log_wire (request reply) st) in
    match reply with
    | SendRaises => (Exc TransportError, st')
    | SendStatus code => (Val code, st')
    end.

Definition client_get_getMe : M (N * bool) :=
  fun st =>
    let st' := bump (log_wire WGetMe st) in
    match w_getMe w (tick st) with
    | GetMeRaises => (Exc TransportError, st')
    | GetMeStatus code ok => (Val (code, ok), st')
    end.

Definition test_connection : M bool :=
  try_except
    (r <- client_get_getMe ;;
     if (fst r =? 200)%N && snd r then ret true else ret false)
    is_Exception (fun _ => ret false).

(** The text appended when a message is cut: two newlines, then
    [<i>... (] 9 Cyrillic letters, a space, 8 Cyrillic letters [)</i>],
    33 characters in all. *)
Definition truncation_marker : str :=
  [10; 10; 60; 105; 62; 46; 46; 46; 32; 40;
   1089; 1086; 1086; 1073; 1097; 1077; 1085; 1080; 1077; 32;
   1086; 1073; 1088; 1077; 1079; 1072; 1085; 1086; 41;
   60; 47; 105; 62]%N.

(** The [text] of the sendMessage request. *)
Definition message_text (text : str) : str :=
  if 4096 <? len text then slice_to 4000 text ++ truncation_marker else text.

Definition _send_text (text : str) (disable_preview : bool) : M bool :=
  try_except
    (let text := message_text text in
     status_code <- client_post (WSendMessage text disable_preview) ;;
     if (status_code =? 200)%N then ret true else ret false)
    is_Exception (fun _ => ret false).

(** The [caption] of the sendPhoto request. *)
Definition caption_of (text : str) : str :=
  if 1024 <? len text then slice_to 1024 text else text.

Definition _send_with_image (text image_url : str) : M bool :=
  try_except
    (let caption := caption_of text in
     status_code <- client_post (WSendPhoto image_url caption) ;;
     if (status_code =? 200)%N then ret true else ret false)
    is_Exception (fun _ => ret false).

Definition post (text : str) (image_url : option str) (disable_preview : bool)
  : M bool :=
  try_except
    (if truthy image_url then
       success <- _send_with_image text (match image_url with
                                         | Some u => u
                                         | None => []
                                         end) ;;
       if success then ret true else _send_text text disable_preview
     else _send_text text disable_preview)
    is_Exception (fun _ => ret false).

Definition close : M unit := ret tt.

End WithWorld.
End TelegramPoster.

(* ===================================================================== *)
(** ** src/src/database.py *)
(* ===================================================================== *)

Module Database.

Definition has_link (l : str) (t : Table) : bool :=
  existsb (fun r => str_eqb (row_link r) l) t.

Fixpoint max_processed_at (t : Table) : option time :=
  match t with
  | [] => None
  | r :: t' =>
      match max_processed_at t' with
      | None => Some (row_processed_at r)
      | Some m => Some (Z.max (row_processed_at r) m)
      end
  end.

(** [GROUP BY source] with [COUNT( * )]. *)
Fixpoint count_up (s : str) (g : list (str * nat)) : list (str * nat) :=
  match g with
  | [] => [(s, 1)]
  | (s', n) :: g' =>
      if str_eqb s' s then (s', S n) :: g' else (s', n) :: count_up s g'
  end.

Definition group_by_source (t : Table) : list (str * nat) :=
  fold_left (fun g r => count_up (row_source r) g) t [].

Definition seconds_per_day : Z := 86400.

Definition no_rows (n : Z) : Cursor := {| rows := []; rowcount := n |}.

Definition result_rows (rs : list (list Value)) : Cursor :=
  {| rows := rs; rowcount := (-1) |}.

(** What a statement does to the table and what the cursor holds
    afterwards; [now] is the clock of the store. *)
Definition exec_stmt (now : time) (s : Stmt) (t : Table) : Cursor * Table :=
  match s with
  | PragmaWal => (result_rows [[VText (lit "wal")]], t)
  | CreateTable | CreateIndexLink | CreateIndexProcessedAt => (no_rows (-1), t)
  | SelectByLink l =>
      (result_rows (if has_link l t then [[VInt 1]] else []), t)
  | InsertOrIgnore l ti so =>
      if has_link l t then (no_rows 0, t)
      else (no_rows 1,
            t ++ [{| row_link := l; row_title := ti; row_source := so;
                     row_processed_at := now |}])
  | CountAll => (result_rows [[VInt (Z.of_nat (List.length t))]], t)
  | SelectLastProcessed =>
      (result_rows (match max_processed_at t with
                    | Some m => [[VTime m]]
                    | None => []
                    end), t)
  | CountBySource =>
      (result_rows
         (List.map (fun g => [VText (fst g); VInt (Z.of_nat (snd g))])
                   (group_by_source t)), t)
  | CountLastDay =>
      (result_rows
         [[VInt (Z.of_nat (List.length
             (filter (fun r => (now - seconds_per_day <? row_processed_at r)%Z)
                     t)))]], t)
  | DeleteOlderThan days =>
      let keep :=
        filter (fun r => negb (row_processed_at r <?
                               now - days * seconds_per_day)%Z) t in
      (no_rows (Z.of_nat (List.length t - List.length keep)), keep)
  | Vacuum => (no_rows (-1), t)
  end.

Section WithWorld.
Variable w : World.

(** The steps of a connection.  Connecting, executing and committing can
    raise [sqlite3.Error]; the world decides. *)
Definition sql_connect : M unit :=
  fun st =>
    let st' := bump (log_wire WSqlConnect st) in
    if w_sql_fault w (tick st) then (Exc SqliteError, st')
    else (Val tt, set_work (table st') st').

Definition execute (s : Stmt) : M Cursor :=
  fun st =>
    let st' := bump (log_wire (WSql s) st) in
    if w_sql_fault w (tick st) then (Exc SqliteError, st')
    else
      let r := exec_stmt (w_now w (tick st)) s (work st') in
      (Val (fst r), set_work (snd r) st').

Definition sql_commit : M unit :=
  fun st =>
    let st' := bump (log_wire WSqlCommit st) in
    if w_sql_fault w (tick st) then (Exc SqliteError, st')
    else (Val tt, set_table (work st') st').

Definition sql_rollback : M unit :=
  fun st => let st' := log_wire WSqlRollback st in
            (Val tt, set_work (table st') st').

Definition sql_close : M unit :=
  fun st => (Val tt, log_wire WSqlClose st).

(** The context manager: commit after the body, roll back and re-raise
    on an exception, close in any case. *)
Definition _get_connection {A} (body : M A) : M A :=
  sql_connect ;;;
  try_finally
    (try_except (a <- body ;; sql_commit ;;; ret a)
                is_Exception (fun e => sql_rollback ;;; raise e))
    sql_close.

Definition _init_schema : M unit :=
  _get_connection
    (execute PragmaWal ;;;
     execute CreateTable ;;;
     execute CreateIndexLink ;;;
     execute CreateIndexProcessedAt ;;;
     ret tt).

(** [cursor.fetchone()] *)
Definition fetchone (c : Cursor) : option (list Value) :=
  match rows c with
  | [] => None
  | r :: _ => Some r
  end.

(** [cursor.fetchone()[0]] as an integer; subscripting [None] is a
    [TypeError]. *)
Definition fetchone_0_int (c : Cursor) : M Z :=
  match fetchone c with
  | Some (VInt n :: _) => ret n
  | _ => raise RuntimeError
  end.

Definition is_processed (l : str) : M bool :=
  try_except
    (_get_connection
       (cursor <- execute (SelectByLink l) ;;
        ret (match fetchone cursor with Some _ => true | None => false end)))
    is_sqlite_Error (fun _ => ret false).

Definition mark_processed (l ti so : str) : M bool :=
  try_except
    (_get_connection
       (cursor <- execute (InsertOrIgnore l ti so) ;;
        ret (0 <? rowcount cursor)%Z))
    is_sqlite_Error (fun _ => ret false).

Definition zero_stats : DbStats :=
  {| total := 0; last_processed := None; by_source := []; last_24h := 0 |}.

Definition source_count (r : list Value) : M (str * nat) :=
  match r with
  | [VText s; VInt n] => ret (s, Z.to_nat n)
  | _ => raise RuntimeError
  end.

Definition get_stats : M DbStats :=
  try_except
    (_get_connection
       (c1 <- execute CountAll ;;
        total <- fetchone_0_int c1 ;;
        c2 <- execute SelectLastProcessed ;;
        last <- (match fetchone c2 with
                 | Some (VTime t :: _) => ret (Some t)
                 | Some _ => raise RuntimeError
                 | None => ret None
                 end) ;;
        c3 <- execute CountBySource ;;
        by_source <- map_m source_count (rows c3) ;;
        c4 <- execute CountLastDay ;;
        last_24h <- fetchone_0_int c4 ;;
        ret {| total := Z.to_nat total; last_processed := last;
               by_source := by_source; last_24h := Z.to_nat last_24h |}))
    is_sqlite_Error (fun _ => ret zero_stats).

Definition cleanup_old (days : Z) : M Z :=
  try_except
    (_get_connection
       (cursor <- execute (DeleteOlderThan days) ;;
        let deleted := rowcount cursor in
        (if (0 <? deleted)%Z then execute Vacuum ;;; ret tt else ret tt) ;;;
        ret deleted))
    is_sqlite_Error (fun _ => ret 0%Z).

End WithWorld.
End Database.

(* ===================================================================== *)
(** ** src/src/rss_parser.py *)
(* ===================================================================== *)

Module RSSParser.

(** [<[^>]+>] *)
Definition tag_re : Re.pattern :=
  [Re.Chr 60; Re.Plus (fun c => negb (c =? 62)%N); Re.Chr 62]%N.

(** [\s+] *)
Definition spaces_re : Re.pattern := [Re.Plus is_space].

(** The [entities] dict, in its order. *)
Definition entities : list (str * str) :=
  [(lit "&amp;", lit "&"); (lit "&lt;", lit "<"); (lit "&gt;", lit ">");
   (lit "&quot;", [34%N]); (lit "&#39;", lit "'"); (lit "&nbsp;", lit " ");
   (lit "&mdash;", [8212%N]); (lit "&ndash;", [8211%N])].

Definition decode_entities (s : str) : str :=
  fold_left (fun clean e => replace (fst e) (snd e) clean) entities s.

(** The text after the first two steps of [_clean_html]: tags replaced by
    a space, runs of white space collapsed, the ends stripped. *)
Definition normalize (text : str) : str :=
  strip (Re.sub spaces_re (lit " ") (Re.sub tag_re (lit " ") text)).

Definition _clean_html (text : str) : str :=
  match text with
  | [] => []
  | _ :: _ => slice_to 2000 (decode_entities (normalize text))
  end.

Definition _clean_text (text : str) : str :=
  match text with
  | [] => []
  | _ :: _ => strip (Re.sub spaces_re (lit " ") text)
  end.

(** [entry.get(key, default)] *)
Definition get_or (field : option str) (default : str) : str :=
  match field with
  | Some v => v
  | None => default
  end.

(** The default title, "Bez zagolovka" in Cyrillic. *)
Definition no_title : str :=
  [1041; 1077; 1079; 32; 1079; 1072; 1075; 1086; 1083; 1086; 1074; 1082;
   1072]%N.

(** The default icon, U+1F4F0. *)
Definition default_icon : str := [128240%N].

(** [list.sort(key=key, reverse=reverse)]: a stable sort; with [reverse]
    the list is reversed, sorted and reversed again, which keeps elements
    with equal keys in their first order. *)
Section Sort.
Variable A : Type.
Variable key : A -> Z.

Fixpoint insert_sorted (x : A) (l : list A) : list A :=
  match l with
  | [] => [x]
  | y :: l' =>
      if (key x <=? key y)%Z then x :: l else y :: insert_sorted x l'
  end.

Fixpoint stable_sort (l : list A) : list A :=
  match l with
  | [] => []
  | x :: l' => insert_sorted x (stable_sort l')
  end.

Definition list_sort (reverse : bool) (l : list A) : list A :=
  if reverse then rev (stable_sort (rev l)) else stable_sort l.

End Sort.

(** [x.get("published") or datetime.min] *)
Definition sort_key (x : Article) : Z :=
  match published x with
  | Some t => t
  | None => datetime_min
  end.

(** The second half of [fetch_all]: what is done with the results of
    [asyncio.gather(..., return_exceptions=True)]. *)
Definition merge_results (results : list (res (list Article)))
  : list Article :=
  list_sort sort_key true
    (flat_map (fun r => match r with
                        | Val l => l
                        | Exc _ => []
                        end) results).

Section WithWorld.
Variable w : World.

Definition now : M time :=
  fun st => (Val (w_now w (tick st)), bump st).

Definition _parse_date (date_str : option str) : M time :=
  if truthy date_str then
    match w_parse_date w (get_or date_str []) with
    | Some t => ret t
    | None => now
    end
  else now.

Definition feedparser_parse (url : str) : M (list Entry) :=
  fun st =>
    let st' := bump (log_wire (WParseFeed url) st) in
    match w_feed w (tick st) with
    | FeedRaises => (Exc RuntimeError, st')
    | FeedParsed entries => (Val entries, st')
    end.

Definition build_article (name icon : str) (entry : Entry) : M Article :=
  published <- _parse_date (e_published entry) ;;
  let summary := _clean_html (get_or (e_summary entry) []) in
  ret {| title := _clean_text (get_or (e_title entry) no_title);
         link := get_or (e_link entry) [];
         summary := summary;
         published := Some published;
         author := get_or (e_author entry) [];
         source := name;
         source_icon := icon;
         content := match e_content entry with
                    | value :: _ => _clean_html (get_or value [])
                    | [] => summary
                    end |}.

Definition fetch_feed (feed_info : FeedInfo) : M (list Article) :=
  let name := feed_name feed_info in
  let url := feed_url feed_info in
  let icon := get_or (feed_icon feed_info) default_icon in
  try_except
    (entries <- feedparser_parse url ;;
     map_m (build_article name icon) (firstn 10 entries))
    is_Exception (fun _ => ret []).

(** [asyncio.gather] with [return_exceptions=True]: the outcome of each
    task, in the order of the tasks. *)
Fixpoint gather {A} (tasks : list (M A)) : M (list (res A)) :=
  match tasks with
  | [] => ret []
  | t :: tasks' =>
      fun st =>
        match t st with
        | (r, st') =>
            match gather tasks' st' with
            | (Val rs, st'') => (Val (r :: rs), st'')
            | (Exc e, st'') => (Exc e, st'')
            end
        end
  end.

Definition fetch_all (feeds : list FeedInfo) : M (list Article) :=
  results <- gather (List.map fetch_feed feeds) ;;
  ret (merge_results results).

End WithWorld.
End RSSParser.

(* ===================================================================== *)
(** ** src/src/image_extractor.py *)
(* ===================================================================== *)

Module ImageExtractor.

Definition not_gt (c : char) : bool := negb (c =? 62)%N.
Definition quote (c : char) : bool := (c =? 34)%N || (c =? 39)%N.
Definition not_quote (c : char) : bool := negb (quote c).

(** [OG_IMAGE_PATTERNS], all compiled with IGNORECASE. *)
Definition og_property_first : Re.pattern :=
  Re.literal_i "<meta" ++ [Re.Plus not_gt] ++ Re.literal_i "property=" ++
  [Re.Cls quote] ++ Re.literal_i "og:image" ++ [Re.Cls quote; Re.Plus not_gt] ++
  Re.literal_i "content=" ++ [Re.Cls quote; Re.Group not_quote; Re.Cls quote].

Definition og_content_first : Re.pattern :=
  Re.literal_i "<meta" ++ [Re.Plus not_gt] ++ Re.literal_i "content=" ++
  [Re.Cls quote; Re.Group not_quote; Re.Cls quote; Re.Plus not_gt] ++
  Re.literal_i "property=" ++ [Re.Cls quote] ++ Re.literal_i "og:image" ++
  [Re.Cls quote].

Definition twitter_name_first : Re.pattern :=
  Re.literal_i "<meta" ++ [Re.Plus not_gt] ++ Re.literal_i "name=" ++
  [Re.Cls quote] ++ Re.literal_i "twitter:image" ++
  [Re.Cls quote; Re.Plus not_gt] ++
  Re.literal_i "content=" ++ [Re.Cls quote; Re.Group not_quote; Re.Cls quote].

Definition twitter_content_first : Re.pattern :=
  Re.literal_i "<meta" ++ [Re.Plus not_gt] ++ Re.literal_i "content=" ++
  [Re.Cls quote; Re.Group not_quote; Re.Cls quote; Re.Plus not_gt] ++
  Re.literal_i "name=" ++ [Re.Cls quote] ++ Re.literal_i "twitter:image" ++
  [Re.Cls quote].

Definition OG_IMAGE_PATTERNS : list Re.pattern :=
  [og_property_first; og_content_first;
   twitter_name_first; twitter_content_first].

Definition valid_extensions : list str :=
  [lit ".jpg"; lit ".jpeg"; lit ".png"; lit ".gif"; lit ".webp"].
Definition valid_domains : list str :=
  [lit "imgur"; lit "cloudinary"; lit "wp.com"; lit "medium.com"; lit "cdn"].
Definition image_keywords : list str :=
  [lit "image"; lit "img"; lit "photo"; lit "media"; lit "upload"].

Definition _is_valid_image_url (url : str) : bool :=
  match url with
  | [] => false
  | _ :: _ =>
      if len url <? 10 then false
      else
        let url_lower := lower url in
        if existsb (fun ext => endswith ext url_lower ||
                               contains (ext ++ lit "?") url_lower)
                   valid_extensions
        then true
        else if existsb (fun domain => contains domain url_lower) valid_domains
        then true
        else if existsb (fun keyword => contains keyword url_lower)
                        image_keywords
        then true
        else false
  end.

Section WithWorld.
Variable w : World.

(** A matched URL made absolute against the page URL. *)
Definition absolute (url image_url : str) : str :=
  if startswith (lit "http://") image_url ||
     startswith (lit "https://") image_url
  then image_url
  else w_urljoin w url image_url.

(** The [for pattern in self.OG_IMAGE_PATTERNS] loop. *)
Fixpoint scan (url html : str) (patterns : list Re.pattern) : option str :=
  match patterns with
  | [] => None
  | pattern :: rest =>
      match Re.search_group1 pattern html with
      | Some g =>
          let image_url := absolute url g in
          if _is_valid_image_url image_url then Some image_url
          else scan url html rest
      | None => scan url html rest
      end
  end.

(** [client.get(url, ...)] followed by [raise_for_status()] and [.text]. *)
Definition get_page (url : str) : M str :=
  fun st =>
    let st' := bump (log_wire (WGetPage url) st) in
    match w_page w (tick st) with
    | PageRaises true => (Exc TimeoutException, st')
    | PageRaises false => (Exc TransportError, st')
    | PageResponse true _ => (Exc HTTPStatusError, st')
    | PageResponse false text => (Val text, st')
    end.

Definition extract (url : str) : M (option str) :=
  try_except
    (html <- get_page url ;;
     ret (scan url html OG_IMAGE_PATTERNS))
    is_Exception
    (fun e =>
       match e with
       | HTTPStatusError => ret None
       | TimeoutException => ret None
       | _ => ret None
       end).

Definition close : M unit := ret tt.

End WithWorld.
End ImageExtractor.

(* ===================================================================== *)
(** ** src/src/summarizer.py, as the pipeline sees it *)
(* ===================================================================== *)

Module GeminiSummarizer.
Section WithWorld.
Variable w : World.

(** [summarize] returns the post or [None]; it catches every exception
    of the text-generation service itself. *)
Definition summarize (article : Article) : M (option str) :=
  fun st => (Val (w_summarize w (tick st)),
             bump (log_wire (WGenerate article) st)).

Definition _configure : M unit :=
  if w_genai_ok w then ret tt else raise RuntimeError.

End WithWorld.
End GeminiSummarizer.

(* ===================================================================== *)
(** ** src/main.py *)
(* ===================================================================== *)

Module NewsBot.

(** [l[:n]] for a Python int [n]. *)
Definition slice_to_int {A} (n : Z) (l : list A) : list A :=
  if (0 <=? n)%Z then firstn (Z.to_nat n) l
  else firstn (List.length l - Z.to_nat (- n)) l.

(** [enumerate(l, start)] *)
Fixpoint enumerate {A} (start : nat) (l : list A) : list (nat * A) :=
  match l with
  | [] => []
  | a :: l' => (start, a) :: enumerate (S start) l'
  end.

Definition fresh_stats (started : time) : RunStats :=
  {| started_at := started; articles_found := 0; articles_new := 0;
     articles_processed := 0; articles_failed := 0; errors := [];
     finished_at := None |}.

Definition add_error (e : RunError) (s : RunStats) : RunStats :=
  {| started_at := started_at s; articles_found := articles_found s;
     articles_new := articles_new s;
     articles_processed := articles_processed s;
     articles_failed := articles_failed s; errors := errors s ++ [e];
     finished_at := finished_at s |}.

Definition set_found (n : nat) (s : RunStats) : RunStats :=
  {| started_at := started_at s; articles_found := n;
     articles_new := articles_new s;
     articles_processed := articles_processed s;
     articles_failed := articles_failed s; errors := errors s;
     finished_at := finished_at s |}.

Definition set_new (n : nat) (s : RunStats) : RunStats :=
  {| started_at := started_at s; articles_found := articles_found s;
     articles_new := n;
     articles_processed := articles_processed s;
     articles_failed := articles_failed s; errors := errors s;
     finished_at := finished_at s |}.

Definition incr_processed (s : RunStats) : RunStats :=
  {| started_at := started_at s; articles_found := articles_found s;
     articles_new := articles_new s;
     articles_processed := S (articles_processed s);
     articles_failed := articles_failed s; errors := errors s;
     finished_at := finished_at s |}.

Definition incr_failed (s : RunStats) : RunStats :=
  {| started_at := started_at s; articles_found := articles_found s;
     articles_new := articles_new s;
     articles_processed := articles_processed s;
     articles_failed := S (articles_failed s); errors := errors s;
     finished_at := finished_at s |}.

Definition set_finished (t : time) (s : RunStats) : RunStats :=
  {| started_at := started_at s; articles_found := articles_found s;
     articles_new := articles_new s;
     articles_processed := articles_processed s;
     articles_failed := articles_failed s; errors := errors s;
     finished_at := Some t |}.

(** [stats[...] = ...] on the dict of the run. *)
Definition update_stats (f : RunStats -> RunStats) : M unit :=
  modify (fun st => set_stats (f (stats st)) st).

Section WithWorld.
Variable w : World.

Definition sleep (seconds : N) : M unit :=
  fun st => (Val tt, log_wire (WSleep seconds) st).

Definition process_article (article : Article) : M bool :=
  try_except
    (let link := link article in
     image_url <- call (ImageExtractor.extract w link) (CExtract link) ;;
     summary <- call (GeminiSummarizer.summarize w article)
                     (CSummarize article) ;;
     if negb (truthy summary) then ret false
     else
       let text := match summary with Some s => s | None => [] end in
       success <- call (TelegramPoster.post w text image_url false)
                       (CPost text image_url) ;;
       if success then ret true else ret false)
    is_Exception (fun _ => ret false).

Definition cleanup : M unit :=
  TelegramPoster.close ;;;
  ImageExtractor.close ;;;
  modify (log_wire WCloseClients) ;;;
  modify (log_call CCleanup).

(** One round of the [for i, article in enumerate(articles_to_process, 1)]
    loop; [n] is [len(articles_to_process)]. *)
Definition process_one (n : nat) (item : nat * Article) : M unit :=
  let i := fst item in
  let article := snd item in
  success <- process_article article ;;
  (if success then
     call (Database.mark_processed w (link article) (title article)
                                   (source article))
          (CMarkProcessed (link article) (title article) (source article)) ;;;
     update_stats incr_processed
   else update_stats incr_failed) ;;;
  if i <? n then sleep 3 else ret tt.

(** [new_articles]: the articles whose link [is_processed] denies. *)
Fixpoint filter_new (articles : list Article) : M (list Article) :=
  match articles with
  | [] => ret []
  | article :: rest =>
      known <- call (Database.is_processed w (link article))
                    (CIsProcessed (link article)) ;;
      new_articles <- filter_new rest ;;
      ret (if negb known then article :: new_articles else new_articles)
  end.

(** The body of the [try] of [run]; the result says whether it left
    through one of the two early [return stats]. *)
Definition run_body (config : Config) : M bool :=
  connected <- call (TelegramPoster.test_connection w) CTestConnection ;;
  if negb connected then
    update_stats (add_error TelegramConnectionFailed) ;;; ret true
  else
    articles <- call (RSSParser.fetch_all w (rss_feeds config))
                     (fun l => CFetchAll (List.length l)) ;;
    update_stats (set_found (List.length articles)) ;;;
    match articles with
    | [] => ret true
    | _ :: _ =>
        new_articles <- filter_new articles ;;
        update_stats (set_new (List.length new_articles)) ;;;
        let articles_to_process :=
          slice_to_int (max_articles_per_run config) new_articles in
        for_each (enumerate 1 articles_to_process)
                 (process_one (List.length articles_to_process)) ;;;
        call (Database.get_stats w) (fun _ => CGetStats) ;;;
        ret false
    end.

Definition run (config : Config) : M RunStats :=
  started <- RSSParser.now w ;;
  modify (set_stats (fresh_stats started)) ;;;
  returned <-
    try_finally
      (try_except (run_body config) is_Exception
                  (fun e => update_stats (add_error (Unhandled e)) ;;;
                            ret false))
      cleanup ;;
  if returned : bool then st <- get ;; ret (stats st)
  else
    finished <- RSSParser.now w ;;
    update_stats (set_finished finished) ;;;
    st <- get ;; ret (stats st).

(** [NewsBot.__init__] *)
Definition init (config : Config) : M unit :=
  Database._init_schema w ;;;
  GeminiSummarizer._configure w.

End WithWorld.
End NewsBot.

Module Main.

(** [s.split(sep)] for a separator of one character. *)
Fixpoint split_on (sep : char) (s : str) : list str :=
  match s with
  | [] => [[]]
  | c :: s' =>
      if (c =? sep)%N then [] :: split_on sep s'
      else match split_on sep s' with
           | p :: ps => (c :: p) :: ps
           | [] => [[c]]
           end
  end.

(** One item of CUSTOM_RSS_FEEDS, [Name|URL] or [Name|URL|Icon], as
    [Config.from_env] reads it; an item with fewer than two parts is
    passed over. *)
Definition custom_feed (feed_str : str) : list FeedInfo :=
  match split_on 124%N (strip feed_str) with
  | name :: url :: rest =>
      [{| feed_name := strip name; feed_url := strip url;
          feed_icon := Some (match rest with
                             | icon :: _ => strip icon
                             | [] => RSSParser.default_icon
                             end) |}]
  | _ => []
  end.

(** The feeds [Config.from_env] appends to the default ones for the
    value of CUSTOM_RSS_FEEDS. *)
Definition custom_feeds (value : option str) : list FeedInfo :=
  if truthy value
  then flat_map custom_feed (split_on 44%N (RSSParser.get_or value []))
  else [].

Section WithWorld.
Variable w : World.

(** [a or b] on two optional strings. *)
Definition or_else (a b : option str) : option str :=
  if truthy a then a else b.

(** [Config.from_env]; the feed list comes from the world as a whole. *)
Definition from_env : M Config :=
  let telegram_token :=
    or_else (w_getenv w "TG_TOKEN") (w_getenv w "TELEGRAM_BOT_TOKEN") in
  let gemini_api_key := w_getenv w "GEMINI_API_KEY" in
  let channel_id := w_getenv w "CHANNEL_ID" in
  if negb (truthy telegram_token) || negb (truthy gemini_api_key) ||
     negb (truthy channel_id)
  then raise ValueError
  else
    max_articles <-
      (match w_getenv w "MAX_ARTICLES_PER_RUN" with
       | None => ret 5%Z
       | Some s => match w_int w s with
                   | Some n => ret n
                   | None => raise ValueError
                   end
       end) ;;
    ret {| telegram_token := RSSParser.get_or telegram_token [];
           gemini_api_key := RSSParser.get_or gemini_api_key [];
           channel_id := RSSParser.get_or channel_id [];
           max_articles_per_run := max_articles;
           rss_feeds := w_feeds w |}.

(** [main]; [sys.exit(1)] raises [SystemExit], which no handler here
    catches. *)
Definition main : M unit :=
  try_except
    (config <- from_env ;;
     NewsBot.init w config ;;;
     stats <- NewsBot.run w config ;;
     if (0 <? articles_failed stats) && (articles_processed stats =? 0)
     then raise (SystemExit 1)
     else ret tt)
    is_Exception
    (fun e =>
       match e with
       | ValueError => raise (SystemExit 1)
       | _ => raise (SystemExit 1)
       end).


End WithWorld.
End Main.

(* ===================================================================== *)
(** ** Sample inputs *)
(* ===================================================================== *)

Module Samples.

(** A world in which every request succeeds: 200 from the Bot API, a page
    without meta tags, empty feeds, a one-word summary, no storage error. *)
Definition calm : World :=
  {| w_send := fun _ => SendStatus 200;
     w_getMe := fun _ => GetMeStatus 200 true;
     w_page := fun _ => PageResponse false [];
     w_feed := fun _ => FeedParsed [];
     w_summarize := fun _ => Some (lit "news");
     w_sql_fault := fun _ => false;
     w_now := fun n => Z.of_nat n;
     w_parse_date := fun _ => None;
     w_urljoin := fun base _ => base;
     w_getenv := fun _ => Some (lit "x");
     w_int := fun _ => Some 5%Z;
     w_feeds := [];
     w_genai_ok := true |}.

Definition empty_stats : RunStats := NewsBot.fresh_stats 0%Z.

(** The state before anything has happened, over a given table. *)
Definition start (t : Table) : St :=
  {| tick := 0; table := t; work := t; stats := empty_stats;
     calls := []; wire := [] |}.

(** Whether the Bot API took a request: the answer is status 200. *)
Definition accepted (reply : SendReply) : bool :=
  match reply with
  | SendStatus code => (code =? 200)%N
  | SendRaises => false
  end.

(** A text of [n] letters "a". *)
Definition letters (n : nat) : str := repeat 97%N n.

(** As [calm], but the first request to the Bot API is refused. *)
Definition one_photo_refused : World :=
  {| w_send := fun n => match n with
                        | O => SendStatus 400
                        | S _ => SendStatus 200
                        end;
     w_getMe := w_getMe calm; w_page := w_page calm; w_feed := w_feed calm;
     w_summarize := w_summarize calm; w_sql_fault := w_sql_fault calm;
     w_now := w_now calm; w_parse_date := w_parse_date calm;
     w_urljoin := w_urljoin calm; w_getenv := w_getenv calm;
     w_int := w_int calm; w_feeds := w_feeds calm;
     w_genai_ok := w_genai_ok calm |}.

(** The SQL statements among the requests of a log. *)
Fixpoint statements (evs : list Wire) : list Stmt :=
  match evs with
  | [] => []
  | WSql s :: evs' => s :: statements evs'
  | _ :: evs' => statements evs'
  end.

(** Some storage step made between two states raised [sqlite3.Error]. *)
Definition storage_failed (w : World) (st st' : St) : Prop :=
  exists k, tick st <= k < tick st' /\ w_sql_fault w k = true.

(** No link occurs in two rows. *)
Definition unique_links (t : Table) : Prop :=
  NoDup (List.map row_link t).

Definition new_row (l ti so : str) (at_ : time) : Row :=
  {| row_link := l; row_title := ti; row_source := so;
     row_processed_at := at_ |}.


(** A ledger that holds one link. *)
Definition one_row : Table :=
  [new_row (lit "https://a.example/1") (lit "One") (lit "Feed") 7%Z].

Section Order.
Variable A : Type.
Variable key : A -> Z.

Definition asc (a b : A) : Prop := (key a <= key b)%Z.
Definition desc (a b : A) : Prop := (key b <= key a)%Z.
Definition strictly_desc (a b : A) : Prop := (key b < key a)%Z.

(** The elements with key [t], in their order. *)
Definition with_key (t : Z) (l : list A) : list A :=
  filter (fun a => (key a =? t)%Z) l.

End Order.

(** The lists among gathered results, one after the other. *)
Definition concatenation (results : list (res (list Article)))
  : list Article :=
  flat_map (fun r => match r with
                     | Val l => l
                     | Exc _ => []
                     end) results.

(** A step that leaves the ledger, the call log and the statistics
    alone. *)
Definition quiet (st st' : St) : Prop :=
  table st' = table st /\ calls st' = calls st /\ stats st' = stats st /\
  tick st <= tick st'.

Definition article_at (l : string) (t : time) : Article :=
  {| title := lit "T"; link := lit l; summary := []; published := Some t;
     author := []; source := lit "Feed"; source_icon := []; content := [] |}.

(** Three sources, one of which failed, with items of times 20, 10 and 30
    in the order of arrival. *)
Definition three_sources : list (res (list Article)) :=
  [Val [article_at "https://a.example/2" 20%Z];
   Exc RuntimeError;
   Val [article_at "https://b.example/3" 10%Z;
        article_at "https://b.example/1" 30%Z]].

(** White-space shape of a text. *)
Definition starts_with_space (s : str) : bool :=
  match s with
  | c :: _ => is_space c
  | [] => false
  end.

Fixpoint ends_with_space (s : str) : bool :=
  match s with
  | [] => false
  | [c] => is_space c
  | _ :: s' => ends_with_space s'
  end.

(** Every white-space character of [s] is a plain space that has no
    white space next to it; [after_space] says that [s] comes right after
    white space. *)
Fixpoint single_spaces (after_space : bool) (s : str) : bool :=
  match s with
  | [] => true
  | c :: s' =>
      if is_space c
      then negb after_space && (c =? 32)%N && single_spaces true s'
      else single_spaces false s'
  end.

(** No white space at either end, single plain spaces inside. *)
Definition ws_normal (s : str) : bool :=
  negb (starts_with_space s) && negb (ends_with_space s) &&
  single_spaces false s.

(** The second step of [_clean_html] before the strip. *)
Definition collapse (s : str) : str :=
  Re.sub RSSParser.spaces_re (lit " ") s.

(** The ampersand, with which every entity of the table starts. *)
Definition amp : char := 38%N.

(** What one pattern proposes for a page: its group 1 made absolute. *)
Definition candidate (w : World) (url html : str) (pattern : Re.pattern)
  : option str :=
  option_map (ImageExtractor.absolute w url) (Re.search_group1 pattern html).





(** What happened to one attempted item: the image found, the summary
    returned, what [post] returned and what [mark_processed] returned at
    which time (the last two matter only when they were called). *)
Record Outcome := {
  o_image : option str;
  o_summary : option str;
  o_sent : bool;
  o_recorded : bool;
  o_at : time
}.

Definition text_of (summary : option str) : str :=
  match summary with
  | Some s => s
  | None => []
  end.

(** [post] was called for the item and returned true. *)
Definition published_ok (o : Outcome) : bool :=
  truthy (o_summary o) && o_sent o.

(** A row for the item was inserted. *)
Definition committed (o : Outcome) : bool :=
  published_ok o && o_recorded o.

(** The calls the orchestrator makes for one item [a] with outcome [o]:
    [post] only after a summary, [mark_processed] only after [post]
    returned true. *)
Definition item_log (ao : Article * Outcome) : list Call :=
  let a := fst ao in
  let o := snd ao in
  CExtract (link a) (o_image o) :: CSummarize a (o_summary o) ::
  (if truthy (o_summary o) then
     CPost (text_of (o_summary o)) (o_image o) (o_sent o) ::
     (if o_sent o then
        [CMarkProcessed (link a) (title a) (source a) (o_recorded o)]
      else [])
   else []).

(** The rows one item adds to the ledger. *)
Definition item_rows (ao : Article * Outcome) : list Row :=
  let a := fst ao in
  let o := snd ao in
  if committed o then [new_row (link a) (title a) (source a) (o_at o)]
  else [].

(** Calls that publish or commit. *)
Definition is_item_call (c : Call) : bool :=
  match c with
  | CExtract _ _ | CSummarize _ _ | CPost _ _ _ | CMarkProcessed _ _ _ _ =>
      true
  | _ => false
  end.

(** How many of the attempted items satisfy [p]. *)
Definition count_items (p : Outcome -> bool)
  (attempted : list (Article * Outcome)) : nat :=
  List.length (filter (fun ao => p (snd ao)) attempted).

(** The counters of [s'] are those of [s] after [attempted]; nothing else
    in the statistics changed. *)
Definition counted (attempted : list (Article * Outcome))
  (s s' : RunStats) : Prop :=
  articles_processed s' =
    articles_processed s + count_items published_ok attempted /\
  articles_failed s' =
    articles_failed s +
    count_items (fun o => negb (published_ok o)) attempted /\
  articles_found s' = articles_found s /\
  articles_new s' = articles_new s /\
  errors s' = errors s /\
  started_at s' = started_at s /\
  finished_at s' = finished_at s.

(** No call of the list publishes or commits. *)
Definition no_item_calls (l : list Call) : Prop :=
  forallb (fun c => negb (is_item_call c)) l = true.

(** [GET getMe] answered so that [test_connection] is true. *)
Definition connected (reply : GetMeReply) : bool :=
  match reply with
  | GetMeStatus code ok => (code =? 200)%N && ok
  | GetMeRaises => false
  end.

(** One feed with one entry, linked to https://a.example/1. *)
Definition one_entry : Entry :=
  {| e_title := Some (lit "One"); e_link := Some (lit "https://a.example/1");
     e_summary := Some (lit "<p>Story</p>"); e_published := None;
     e_author := None; e_content := [] |}.

Definition sample_feed : FeedInfo :=
  {| feed_name := lit "Feed"; feed_url := lit "https://a.example/feed";
     feed_icon := None |}.

Definition sample_config : Config :=
  {| telegram_token := lit "t"; gemini_api_key := lit "k";
     channel_id := lit "c"; max_articles_per_run := 5;
     rss_feeds := [sample_feed] |}.

(** A world whose feed holds [one_entry], with a chosen answer to the
    connectivity check, to the page request and to the posts, and chosen
    storage faults; everything else is as in [calm]. *)
Definition world_of (getMe : GetMeReply) (page : PageReply)
  (send : SendReply) (fault : nat -> bool) : World :=
  {| w_send := fun _ => send; w_getMe := fun _ => getMe;
     w_page := fun _ => page;
     w_feed := fun _ => FeedParsed [one_entry];
     w_summarize := w_summarize calm;
     w_sql_fault := fault;
     w_now := w_now calm; w_parse_date := w_parse_date calm;
     w_urljoin := w_urljoin calm; w_getenv := w_getenv calm;
     w_int := w_int calm; w_feeds := [sample_feed];
     w_genai_ok := w_genai_ok calm |}.

(** The page request times out; all else works. *)
Definition image_times_out : World :=
  world_of (GetMeStatus 200 true) (PageRaises true) (SendStatus 200)
           (fun _ => false).

(** All requests work, but every storage step raises. *)
Definition store_down : World :=
  world_of (GetMeStatus 200 true) (PageResponse false []) (SendStatus 200)
           (fun _ => true).

(** The Bot API cannot be reached. *)
Definition connection_down : World :=
  world_of GetMeRaises (PageResponse false []) SendRaises (fun _ => false).

(** Whether a call log holds a call of [post] that returned [r]. *)
Definition has_post (r : bool) (l : list Call) : bool :=
  existsb (fun c => match c with
                    | CPost _ _ r' => Bool.eqb r r'
                    | _ => false
                    end) l.

(** Whether a log holds a request to a feed or to the Bot API's send
    methods. *)
Definition fetches_or_publishes (l : list Wire) : bool :=
  existsb (fun e => match e with
                    | WParseFeed _ | WSendPhoto _ _ _ | WSendMessage _ _ _ =>
                        true
                    | _ => false
                    end) l.

(** As [w], but no environment variable is set. *)
Definition without_env (w : World) : World :=
  {| w_send := w_send w; w_getMe := w_getMe w; w_page := w_page w;
     w_feed := w_feed w; w_summarize := w_summarize w;
     w_sql_fault := w_sql_fault w;
     w_now := w_now w; w_parse_date := w_parse_date w;
     w_urljoin := w_urljoin w; w_getenv := fun _ => None;
     w_int := w_int w; w_feeds := w_feeds w;
     w_genai_ok := w_genai_ok w |}.

(** The Bot API refuses every post; all else works. *)
Definition posts_refused : World :=
  world_of (GetMeStatus 200 true) (PageResponse false []) (SendStatus 400)
           (fun _ => false).

(** No summary comes back; all else works. *)
Definition no_summary : World :=
  {| w_send := w_send image_times_out; w_getMe := w_getMe image_times_out;
     w_page := w_page image_times_out; w_feed := w_feed image_times_out;
     w_summarize := fun _ => None;
     w_sql_fault := w_sql_fault image_times_out;
     w_now := w_now calm; w_parse_date := w_parse_date calm;
     w_urljoin := w_urljoin calm; w_getenv := w_getenv calm;
     w_int := w_int calm; w_feeds := [sample_feed];
     w_genai_ok := w_genai_ok calm |}.

(** The first step of [_clean_html]. *)
Definition strip_tags (s : str) : str :=
  Re.sub RSSParser.tag_re (lit " ") s.

(** The class of the tag pattern: anything but the closing bracket. *)
Definition not_gt (c : char) : bool := negb (c =? 62)%N.


(** How many rows of a table come from source [s]. *)
Definition occurrences (s : str) (t : Table) : nat :=
  List.length (filter (fun r => str_eqb (row_source r) s) t).

(** The count listed for source [s], 0 when it is not listed. *)
Definition count_of (s : str) (g : list (str * nat)) : nat :=
  match find (fun p => str_eqb (fst p) s) g with
  | Some p => snd p
  | None => 0
  end.

(** No storage step ever raises. *)
Definition no_faults (w : World) : Prop :=
  forall k, w_sql_fault w k = false.

(** What [fetch_feed] makes of one entry, apart from the published time:
    the link as it is (empty when missing), the cleaned title. *)
Definition built_from (name icon : str) (e : Entry) (a : Article) : Prop :=
  link a = RSSParser.get_or (e_link e) [] /\
  title a = RSSParser._clean_text (RSSParser.get_or (e_title e)
                                                    RSSParser.no_title) /\
  source a = name /\ source_icon a = icon /\
  published a <> None /\
  len (summary a) <= 2000 /\ len (content a) <= 2000.

(** The entries a feed request came back with, none when it raised. *)
Definition entries_of (reply : FeedReply) : list Entry :=
  match reply with
  | FeedParsed entries => entries
  | FeedRaises => []
  end.

(** What one gathered result is for its feed: a list of at most ten
    articles of that feed, as many as some answer of the world allows. *)
Definition result_of (w : World) (f : FeedInfo) (r : res (list Article))
  : Prop :=
  exists l,
    r = Val l /\
    (exists k, List.length l =
               Nat.min 10 (List.length (entries_of (w_feed w k)))) /\
    Forall (fun a => source a = feed_name f /\ published a <> None) l.

(** The requests one call of [post] may make for [text] and [image], and
    the result [b] that goes with them: the text alone when there is no
    image, the photo alone when it is accepted, the photo and then the
    text when it is not. *)
Definition delivery (text : str) (image : option str) (dp : bool)
  (trace : list Wire) (b : bool) : Prop :=
  (truthy image = false /\
   exists r, trace = [WSendMessage (TelegramPoster.message_text text) dp r] /\
             b = accepted r) \/
  (exists u r,
     image = Some u /\ u <> [] /\ accepted r = true /\
     trace = [WSendPhoto u (TelegramPoster.caption_of text) r] /\
     b = true) \/
  (exists u r r',
     image = Some u /\ u <> [] /\ accepted r = false /\
     trace = [WSendPhoto u (TelegramPoster.caption_of text) r;
              WSendMessage (TelegramPoster.message_text text) dp r'] /\
     b = accepted r').

(** The environment variable [name] is set to a non-empty value. *)
Definition provided (w : World) (name : string) : bool :=
  truthy (w_getenv w name).

(** The environment [Config.from_env] accepts: a bot token under one of
    its two names, the two other credentials, and a limit that, when set,
    reads as an integer. *)
Definition complete_env (w : World) : Prop :=
  (provided w "TG_TOKEN" = true \/ provided w "TELEGRAM_BOT_TOKEN" = true) /\
  provided w "GEMINI_API_KEY" = true /\
  provided w "CHANNEL_ID" = true /\
  (forall s, w_getenv w "MAX_ARTICLES_PER_RUN" = Some s -> w_int w s <> None).

(** The closing bracket of a tag. *)
Definition gt : char := 62%N.

(** After an opening bracket: nothing, a closing bracket at once, or no
    closing bracket at all, so no tag starts at the bracket. *)
Definition unclosed (s : str) : Prop :=
  match s with
  | [] => True
  | d :: _ => d = gt \/ ~ In gt s
  end.

(** No tag starts anywhere in the text. *)
Fixpoint tag_free (s : str) : Prop :=
  match s with
  | [] => True
  | c :: s' => (c = 60%N -> unclosed s') /\ tag_free s'
  end.

(** The ledger [t] does not know the link of [a]. *)
Definition unknown (t : Table) (a : Article) : bool :=
  negb (Database.has_link (link a) t).

(** How many of [n] new articles a run attempts under the limit [max]:
    the length of [new_articles[:max]]. *)
Definition limit_of (max : Z) (n : nat) : nat :=
  if (0 <=? max)%Z then Nat.min (Z.to_nat max) n else n - Z.to_nat (- max).

(** Storage fails during the first six requests of a run, which covers
    the look-up of the one article, and works afterwards. *)
Definition lookup_down : World :=
  world_of (GetMeStatus 200 true) (PageResponse false []) (SendStatus 200)
           (fun k => k <? 6).

(** How many requests of a log satisfy [p]. *)
Definition requests (p : Wire -> bool) (l : list Wire) : nat :=
  List.length (filter p l).

Definition is_sleep (e : Wire) : bool :=
  match e with
  | WSleep _ => true
  | _ => false
  end.

(** A request to one of the send methods of the Bot API. *)
Definition is_send (e : Wire) : bool :=
  match e with
  | WSendPhoto _ _ _ | WSendMessage _ _ _ => true
  | _ => false
  end.

(** A step on the connection to the store. *)
Definition is_sql (e : Wire) : bool :=
  match e with
  | WSqlConnect | WSql _ | WSqlCommit | WSqlRollback | WSqlClose => true
  | _ => false
  end.

(** A page request of the image extractor. *)
Definition is_page (e : Wire) : bool :=
  match e with
  | WGetPage _ => true
  | _ => false
  end.

(** A request to the text-generation service. *)
Definition is_generate (e : Wire) : bool :=
  match e with
  | WGenerate _ => true
  | _ => false
  end.

(** A feed request. *)
Definition is_feed (e : Wire) : bool :=
  match e with
  | WParseFeed _ => true
  | _ => false
  end.

(** The connectivity check. *)
Definition is_getMe (e : Wire) : bool :=
  match e with
  | WGetMe => true
  | _ => false
  end.

(** Every sleep of the log is one of three seconds. *)
Definition sleeps_three (l : list Wire) : Prop :=
  forall s, In (WSleep s) l -> s = 3%N.

(** The requests for the feeds, in their order. *)
Definition feed_requests (feeds : list FeedInfo) : list Wire :=
  List.map (fun f => WParseFeed (feed_url f)) feeds.

(** Every link for which the log holds a call of [mark_processed] is in
    the table [t]. *)
Definition marked_links_in (log : list Call) (t : Table) : Prop :=
  forall l ti so r,
    In (CMarkProcessed l ti so r) log -> Database.has_link l t = true.

(** The end of a session on the store: after the statements a commit, or
    a rollback, or a commit that failed and was rolled back; then the
    connection is closed. *)
Fixpoint closes (l : list Wire) : bool :=
  match l with
  | WSql _ :: l' => closes l'
  | [WSqlCommit; WSqlClose] => true
  | [WSqlRollback; WSqlClose] => true
  | [WSqlCommit; WSqlRollback; WSqlClose] => true
  | _ => false
  end.

(** One session: a connection that was refused, or a connection that was
    opened, used and closed. *)
Definition session (l : list Wire) : bool :=
  match l with
  | [WSqlConnect] => true
  | WSqlConnect :: l' => closes l'
  | _ => false
  end.

(** The step [m] from [st] is one session on the store: the connection is
    refused exactly when connecting fails, and a session that was rolled
    back leaves the table as it was. *)
Definition one_session {A : Type} (w : World) (m : M A) (st : St) : Prop :=
  exists sq,
    wire (snd (m st)) = wire st ++ sq /\
    session sq = true /\
    (sq = [WSqlConnect] <-> w_sql_fault w (tick st) = true) /\
    (In WSqlRollback sq -> table (snd (m st)) = table st).

(** How often the character [c] occurs in [s]. *)
Definition count_char (c : char) (s : str) : nat :=
  List.length (filter (N.eqb c) s).

(** A name or URL of a custom feed: no comma, no bar, no white space at
    its ends. *)
Definition clean_field (s : str) : Prop :=
  ~ In 44%N s /\ ~ In 124%N s /\
  starts_with_space s = false /\ ends_with_space s = false.

End Samples.

(* ===================================================================== *)
(** * Properties *)
(* ===================================================================== *)

Import Samples.

Unset Implicit Arguments.

(** ** Publisher *)

Section Publisher.
Variable w : World.

Lemma _send_text_run (text : str) (dp : bool) (st : St) :
  TelegramPoster._send_text w text dp st =
  (Val (accepted (w_send w (tick st))),
   bump (log_wire (WSendMessage (TelegramPoster.message_text text) dp
                                (w_send w (tick st))) st)).
Proof.
  unfold TelegramPoster._send_text, try_except, bind, TelegramPoster.client_post.
  destruct (w_send w (tick st)) as [|code]; simpl; [reflexivity|].
  destruct (code =? 200)%N; reflexivity.
Qed.

Lemma _send_with_image_run (text image_url : str) (st : St) :
  TelegramPoster._send_with_image w text image_url st =
  (Val (accepted (w_send w (tick st))),
   bump (log_wire (WSendPhoto image_url (TelegramPoster.caption_of text)
                              (w_send w (tick st))) st)).
Proof.
  unfold TelegramPoster._send_with_image, try_except, bind,
    TelegramPoster.client_post.
  destruct (w_send w (tick st)) as [|code]; simpl; [reflexivity|].
  destruct (code =? 200)%N; reflexivity.
Qed.

(** [post] never raises: it returns a boolean in every world. *)
Lemma post_returns (text : str) (image_url : option str) (dp : bool) (st : St) :
  exists b st', TelegramPoster.post w text image_url dp st = (Val b, st').
Proof.
  unfold TelegramPoster.post, try_except, bind.
  destruct (truthy image_url).
  - rewrite _send_with_image_run.
    destruct (accepted (w_send w (tick st))).
    + eexists _, _; reflexivity.
    + rewrite _send_text_run. eexists _, _; reflexivity.
  - rewrite _send_text_run. eexists _, _; reflexivity.
Qed.

End Publisher.

Lemma len_caption_of (text : str) :
  len (TelegramPoster.caption_of text) = Nat.min 1024 (len text).
Proof.
  unfold TelegramPoster.caption_of, slice_to, len.
  destruct (1024 <? List.length text) eqn:E.
  - apply Nat.ltb_lt in E. rewrite length_firstn. reflexivity.
  - apply Nat.ltb_ge in E. symmetry. apply Nat.min_r. exact E.
Qed.

Lemma len_truncation_marker : len TelegramPoster.truncation_marker = 33.
Proof. reflexivity. Qed.

Lemma len_message_text (text : str) :
  len (TelegramPoster.message_text text) <= 4096.
Proof.
  unfold TelegramPoster.message_text, slice_to, len.
  destruct (4096 <? List.length text) eqn:E.
  - rewrite length_app, length_firstn.
    change (List.length TelegramPoster.truncation_marker) with 33.
    apply Nat.le_trans with (4000 + 33).
    + apply Nat.add_le_mono_r. apply Nat.le_min_l.
    + apply Nat.leb_le. vm_compute. reflexivity.
  - apply Nat.ltb_ge in E. exact E.
Qed.

(** C6: the caption sent with an image is the text cut to 1024 characters
    (exactly 1024 when the text is longer, the text itself otherwise); the
    message of a text-only delivery never exceeds 4096 characters, is the
    first 4000 characters followed by the truncation marker when the text
    is longer than 4096, and is the text itself otherwise. *)
Theorem caption_and_message_caps
  (w : World) (text image_url : str) (dp : bool) (st : St) :
  wire (snd (TelegramPoster._send_with_image w text image_url st)) =
    wire st ++ [WSendPhoto image_url (TelegramPoster.caption_of text)
                           (w_send w (tick st))] /\
  (1024 < len text ->
     TelegramPoster.caption_of text = slice_to 1024 text /\
     len (TelegramPoster.caption_of text) = 1024) /\
  (len text <= 1024 -> TelegramPoster.caption_of text = text) /\
  wire (snd (TelegramPoster._send_text w text dp st)) =
    wire st ++ [WSendMessage (TelegramPoster.message_text text) dp
                             (w_send w (tick st))] /\
  len (TelegramPoster.message_text text) <= 4096 /\
  (4096 < len text ->
     TelegramPoster.message_text text =
       slice_to 4000 text ++ TelegramPoster.truncation_marker) /\
  (len text <= 4096 -> TelegramPoster.message_text text = text).
Proof.
  repeat split.
  - rewrite _send_with_image_run. reflexivity.
  - unfold TelegramPoster.caption_of. apply Nat.ltb_lt in H. rewrite H.
    reflexivity.
  - rewrite len_caption_of. apply Nat.min_l. apply Nat.lt_le_incl. exact H.
  - unfold TelegramPoster.caption_of. intros H. apply Nat.ltb_ge in H.
    rewrite H. reflexivity.
  - rewrite _send_text_run. reflexivity.
  - apply len_message_text.
  - unfold TelegramPoster.message_text. intros H. apply Nat.ltb_lt in H.
    rewrite H. reflexivity.
  - unfold TelegramPoster.message_text. intros H. apply Nat.ltb_ge in H.
    rewrite H. reflexivity.
Qed.

Lemma caption_and_message_caps_witness :
  len (TelegramPoster.caption_of (letters 5000)) = 1024 /\
  TelegramPoster.message_text (letters 5000) =
    slice_to 4000 (letters 5000) ++ TelegramPoster.truncation_marker /\
  TelegramPoster.caption_of (letters 7) = letters 7 /\
  TelegramPoster.message_text (letters 7) = letters 7.
Proof.
  destruct (caption_and_message_caps calm (letters 5000) (lit "u") false
              (start [])) as [_ [Hc [_ [_ [_ [Hm _]]]]]].
  destruct (caption_and_message_caps calm (letters 7) (lit "u") false
              (start [])) as [_ [_ [Hc' [_ [_ [_ Hm']]]]]].
  split; [| split; [| split]].
  - apply Hc. apply Nat.ltb_lt. vm_compute. reflexivity.
  - apply Hm. apply Nat.ltb_lt. vm_compute. reflexivity.
  - apply Hc'. apply Nat.leb_le. vm_compute. reflexivity.
  - apply Hm'. apply Nat.leb_le. vm_compute. reflexivity.
Defined.

(** C2: when the image request is not accepted (the client raises or the
    status is not 200), [post] sends the text-only request built from the
    original text, not from the caption, and returns exactly what that
    second request gives: false only if it fails too, true if it is
    accepted. *)
Theorem post_falls_back_to_text
  (w : World) (text image_url : str) (dp : bool) (st : St) :
  image_url <> [] ->
  accepted (w_send w (tick st)) = false ->
  exists st',
    TelegramPoster.post w text (Some image_url) dp st =
      (Val (accepted (w_send w (S (tick st)))), st') /\
    wire st' =
      wire st ++
      [WSendPhoto image_url (TelegramPoster.caption_of text)
                  (w_send w (tick st));
       WSendMessage (TelegramPoster.message_text text) dp
                    (w_send w (S (tick st)))] /\
    table st' = table st.
Proof.
  intros Hurl Hfail.
  unfold TelegramPoster.post, try_except, bind.
  destruct image_url as [|c u]; [contradiction|].
  cbn [truthy].
  rewrite _send_with_image_run, Hfail, _send_text_run.
  eexists. split; [reflexivity|]. split; [|reflexivity].
  cbn. rewrite <- app_assoc. reflexivity.
Qed.

Lemma post_falls_back_to_text_witness :
  exists st',
    TelegramPoster.post one_photo_refused (letters 2000)
                        (Some (lit "https://a.example/pic.png")) false
                        (start []) = (Val true, st') /\
    wire st' =
      [WSendPhoto (lit "https://a.example/pic.png") (letters 1024)
                  (SendStatus 400);
       WSendMessage (letters 2000) false (SendStatus 200)] /\
    table st' = [].
Proof.
  apply (post_falls_back_to_text one_photo_refused (letters 2000)
           (lit "https://a.example/pic.png") false (start [])).
  - discriminate.
  - reflexivity.
Defined.

(** ** DedupLedger *)

Lemma str_eqb_eq (a b : str) : str_eqb a b = true <-> a = b.
Proof.
  unfold str_eqb. destruct (list_eq_dec N.eq_dec a b); split; congruence.
Qed.

Lemma has_link_In (l : str) (t : Table) :
  Database.has_link l t = true <-> In l (List.map row_link t).
Proof.
  unfold Database.has_link. rewrite existsb_exists, in_map_iff.
  split; intros [r [H1 H2]]; exists r.
  - apply str_eqb_eq in H2. tauto.
  - split; [tauto|]. apply str_eqb_eq. tauto.
Qed.

Lemma has_link_app (l : str) (t t' : Table) :
  Database.has_link l (t ++ t') =
  Database.has_link l t || Database.has_link l t'.
Proof. unfold Database.has_link. apply existsb_app. Qed.

Lemma statements_app (a b : list Wire) :
  statements (a ++ b) = statements a ++ statements b.
Proof.
  induction a as [|e a IH]; simpl; [reflexivity|].
  destruct e; simpl; rewrite ?IH; reflexivity.
Qed.

Lemma unique_links_insert (l ti so : str) (at_ : time) (t : Table) :
  unique_links t -> Database.has_link l t = false ->
  unique_links (t ++ [new_row l ti so at_]).
Proof.
  unfold unique_links. intros Hu Hn. rewrite map_app. simpl.
  apply NoDup_app; [exact Hu | constructor; [intros [] | constructor] |].
  intros x Hx [Hl|[]]. subst x.
  apply has_link_In in Hx. congruence.
Qed.

Ltac db_steps :=
  unfold Database._get_connection;
  unfold Database.sql_connect, Database.execute, Database.sql_commit,
    Database.sql_rollback, Database.sql_close;
  unfold try_except, try_finally, bind, raise, ret; cbn.

Arguments Database.has_link : simpl never.

Ltac ledger_facts :=
  cbn; rewrite ?statements_app; cbn; rewrite <- ?app_assoc, ?app_nil_r; cbn;
  repeat split; try reflexivity; try discriminate; try (cbn; lia).

(** Some fault that was met lies among the steps made. *)
Ltac storage_fault :=
  match goal with
  | F : w_sql_fault _ ?k = true |- storage_failed _ _ _ =>
      exists k; split; [cbn; lia | exact F]
  end.

(** No step made met a fault. *)
Ltac storage_ok :=
  let k := fresh "k" in
  let Hk := fresh "Hk" in
  let Fk := fresh "Fk" in
  intros [k [Hk Fk]]; cbn in Hk;
  repeat match goal with
         | F : w_sql_fault _ ?j = false |- _ =>
             destruct (Nat.eq_dec k j) as [?|?]; [subst k; congruence|];
             clear F
         end;
  lia.

Ltac db_cases fin :=
  cbn;
  lazymatch goal with
  | |- context [if w_sql_fault ?w ?k then _ else _] =>
      let F := fresh "F" in
      destruct (w_sql_fault w k) eqn:F; db_cases fin
  | _ => fin
  end.

Arguments Database.group_by_source : simpl never.
Arguments Database.max_processed_at : simpl never.

Section Ledger.
Variable w : World.

(** What [mark_processed] returns and leaves behind, in every world. *)
Lemma mark_processed_run (l ti so : str) (st : St) :
  exists b st',
    Database.mark_processed w l ti so st = (Val b, st') /\
    table st' =
      (if b then table st ++ [new_row l ti so (w_now w (S (tick st)))]
       else table st) /\
    (b = true -> Database.has_link l (table st) = false) /\
    (storage_failed w st st' -> b = false) /\
    (Database.has_link l (table st) = true -> b = false) /\
    (b = false -> Database.has_link l (table st) = false ->
     storage_failed w st st') /\
    statements (wire st') =
      statements (wire st) ++
      (if w_sql_fault w (tick st) then [] else [InsertOrIgnore l ti so]) /\
    calls st' = calls st /\ stats st' = stats st /\ tick st <= tick st'.
Proof.
  unfold Database.mark_processed. db_steps.
  destruct (w_sql_fault w (tick st)) eqn:F0; cbn.
  { eexists _, _. split; [reflexivity|]. ledger_facts.
    intros _ _. exists (tick st). split; [cbn; lia | exact F0]. }
  destruct (w_sql_fault w (S (tick st))) eqn:F1; cbn.
  { eexists _, _. split; [reflexivity|]. ledger_facts.
    intros _ _. exists (S (tick st)). split; [cbn; lia | exact F1]. }
  destruct (Database.has_link l (table st)) eqn:Hl; cbn.
  - destruct (w_sql_fault w (S (S (tick st)))) eqn:F2; cbn;
      (eexists _, _; split; [reflexivity|]; ledger_facts).
  - destruct (w_sql_fault w (S (S (tick st)))) eqn:F2; cbn.
    + eexists _, _; split; [reflexivity|]. ledger_facts.
      intros _ _. exists (S (S (tick st))). split; [cbn; lia | exact F2].
    + eexists _, _; split; [reflexivity|]. ledger_facts.
      intros [k [Hk Fk]]. cbn in Hk.
      assert (k = tick st \/ k = S (tick st) \/ k = S (S (tick st)))
        as [ -> | [ -> | -> ] ] by lia; congruence.
Qed.

Lemma map_m_source_count (gs : list (str * nat)) (st : St) :
  map_m Database.source_count
        (List.map (fun g => [VText (fst g); VInt (Z.of_nat (snd g))]) gs) st =
  (Val gs, st).
Proof.
  revert st. induction gs as [|[s n] gs IH]; intros st; [reflexivity|].
  cbn [List.map map_m]. unfold bind. cbn. rewrite IH. cbn.
  rewrite Nat2Z.id. reflexivity.
Qed.

(** What [is_processed] returns and leaves behind, in every world. *)
Lemma is_processed_run (l : str) (st : St) :
  exists b st',
    Database.is_processed w l st = (Val b, st') /\
    table st' = table st /\
    (storage_failed w st st' -> b = false) /\
    (~ storage_failed w st st' -> b = Database.has_link l (table st)) /\
    (b = true -> Database.has_link l (table st) = true) /\
    calls st' = calls st /\ stats st' = stats st /\ tick st <= tick st'.
Proof.
  unfold Database.is_processed. db_steps.
  db_cases ltac:(eexists _, _; split; [reflexivity|]; ledger_facts;
                 try (intros _; storage_fault);
                 try (intros H; exfalso; apply H; storage_fault);
                 try storage_ok;
                 try (destruct (Database.has_link l (table st)); reflexivity);
                 try (destruct (Database.has_link l (table st));
                      cbn; congruence)).
Qed.

(** What [get_stats] returns and leaves behind, in every world. *)
Lemma get_stats_run (st : St) :
  exists r st',
    Database.get_stats w st = (Val r, st') /\
    table st' = table st /\
    (storage_failed w st st' -> r = Database.zero_stats) /\
    (~ storage_failed w st st' -> total r = List.length (table st)) /\
    calls st' = calls st /\ stats st' = stats st /\ tick st <= tick st'.
Proof.
  unfold Database.get_stats. db_steps.
  db_cases ltac:(idtac).
  all: try rewrite map_m_source_count; cbn.
  all: destruct (Database.max_processed_at (table st)); cbn.
  all: db_cases ltac:(idtac).
  all: try rewrite map_m_source_count; cbn.
  all: db_cases ltac:(idtac).
  all: eexists _, _; (split; [reflexivity|]); ledger_facts.
  all: try (intros _; storage_fault).
  all: try (intros H; exfalso; apply H; storage_fault).
  all: try storage_ok.
  all: try (intros _; apply Nat2Z.id).
Qed.


End Ledger.





(** ** FeedAggregator: the merge *)

Section SortFacts.
Variable A : Type.
Variable key : A -> Z.

Local Abbreviation insert_sorted := (RSSParser.insert_sorted key).
Local Abbreviation stable_sort := (RSSParser.stable_sort key).

Local Abbreviation asc := (Samples.asc key).
Local Abbreviation desc := (Samples.desc key).
Local Abbreviation strictly_desc := (Samples.strictly_desc key).
Local Abbreviation with_key := (Samples.with_key key).

Lemma insert_sorted_perm (x : A) (l : list A) :
  Permutation (insert_sorted x l) (x :: l).
Proof.
  induction l as [|y l IH]; cbn; [reflexivity|].
  destruct (key x <=? key y)%Z; [reflexivity|].
  rewrite IH. apply perm_swap.
Qed.

Lemma stable_sort_perm (l : list A) : Permutation (stable_sort l) l.
Proof.
  induction l as [|x l IH]; cbn; [reflexivity|].
  rewrite insert_sorted_perm. constructor. exact IH.
Qed.

Lemma insert_sorted_Forall (P : A -> Prop) (x : A) (l : list A) :
  P x -> Forall P l -> Forall P (insert_sorted x l).
Proof.
  intros Hx Hl. apply Forall_forall. intros y Hy.
  apply (Permutation_in _ (insert_sorted_perm x l)) in Hy.
  destruct Hy as [<-|Hy]; [exact Hx|].
  rewrite Forall_forall in Hl. apply Hl. exact Hy.
Qed.

Lemma insert_sorted_sorted (x : A) (l : list A) :
  StronglySorted asc l -> StronglySorted asc (insert_sorted x l).
Proof.
  induction 1 as [|y l Hl IH Hy]; cbn.
  - constructor; constructor.
  - destruct (key x <=? key y)%Z eqn:E.
    + apply Z.leb_le in E. constructor; [constructor; assumption|].
      constructor; [exact E|].
      eapply Forall_impl; [|exact Hy]. unfold asc. intros; lia.
    + apply Z.leb_gt in E. constructor; [exact IH|].
      apply insert_sorted_Forall; [unfold asc; lia | exact Hy].
Qed.

Lemma stable_sort_sorted (l : list A) : StronglySorted asc (stable_sort l).
Proof.
  induction l as [|x l IH]; cbn; [constructor|].
  apply insert_sorted_sorted. exact IH.
Qed.

(** Insertion puts [x] in front of every element with its key. *)
Lemma with_key_insert_sorted (t : Z) (x : A) (l : list A) :
  with_key t (insert_sorted x l) = with_key t (x :: l).
Proof.
  induction l as [|y l IH]; [reflexivity|].
  cbn [RSSParser.insert_sorted].
  destruct (key x <=? key y)%Z eqn:E; [reflexivity|].
  apply Z.leb_gt in E.
  unfold with_key in *. cbn [filter] in *. rewrite IH.
  destruct (key x =? t)%Z eqn:Ex, (key y =? t)%Z eqn:Ey; try reflexivity.
  apply Z.eqb_eq in Ex, Ey. lia.
Qed.

Lemma with_key_stable_sort (t : Z) (l : list A) :
  with_key t (stable_sort l) = with_key t l.
Proof.
  induction l as [|x l IH]; [reflexivity|].
  cbn [RSSParser.stable_sort]. rewrite with_key_insert_sorted.
  unfold with_key in *. cbn [filter]. rewrite IH. reflexivity.
Qed.

Lemma with_key_rev (t : Z) (l : list A) :
  with_key t (rev l) = rev (with_key t l).
Proof.
  unfold with_key. induction l as [|x l IH]; [reflexivity|].
  cbn. rewrite filter_app, IH. cbn.
  destruct (key x =? t)%Z; cbn; [reflexivity | apply app_nil_r].
Qed.

Lemma StronglySorted_snoc (R : A -> A -> Prop) (l : list A) (x : A) :
  StronglySorted R l -> Forall (fun y => R y x) l ->
  StronglySorted R (l ++ [x]).
Proof.
  induction 1 as [|y l Hl IH Hy]; intros Hx; cbn.
  - constructor; constructor.
  - inversion Hx as [|? ? Hyx Hlx]; subst.
    constructor; [apply IH; exact Hlx|].
    apply Forall_app. split; [exact Hy | constructor; [exact Hyx|constructor]].
Qed.

Lemma StronglySorted_rev (R : A -> A -> Prop) (l : list A) :
  StronglySorted R l -> StronglySorted (fun a b => R b a) (rev l).
Proof.
  induction 1 as [|y l Hl IH Hy]; cbn; [constructor|].
  apply StronglySorted_snoc; [exact IH|].
  apply Forall_rev. exact Hy.
Qed.

(** [list.sort(key=key, reverse=True)] rearranges the list, newest key
    first, and keeps the first order among equal keys. *)
Lemma list_sort_reverse_perm (l : list A) :
  Permutation (RSSParser.list_sort key true l) l.
Proof.
  unfold RSSParser.list_sort.
  rewrite <- Permutation_rev, stable_sort_perm, <- Permutation_rev.
  reflexivity.
Qed.

Lemma list_sort_reverse_sorted (l : list A) :
  StronglySorted desc (RSSParser.list_sort key true l).
Proof.
  unfold RSSParser.list_sort.
  apply (StronglySorted_rev asc). apply stable_sort_sorted.
Qed.

Lemma list_sort_reverse_stable (t : Z) (l : list A) :
  with_key t (RSSParser.list_sort key true l) = with_key t l.
Proof.
  unfold RSSParser.list_sort.
  rewrite with_key_rev, with_key_stable_sort, with_key_rev.
  apply rev_involutive.
Qed.

(** With pairwise different keys the order is strict. *)
Lemma desc_strict (l : list A) :
  NoDup (List.map key l) -> StronglySorted desc l ->
  StronglySorted strictly_desc l.
Proof.
  intros Hn Hs. induction Hs as [|x l Hl IH Hx]; [constructor|].
  cbn in Hn. inversion Hn as [|? ? Hnotin Hn']; subst.
  constructor; [apply IH; exact Hn'|].
  rewrite Forall_forall in *. intros y Hy.
  specialize (Hx y Hy). unfold desc, strictly_desc in *.
  assert (key y <> key x).
  { intros E. apply Hnotin. rewrite <- E. apply in_map. exact Hy. }
  lia.
Qed.

End SortFacts.

Lemma quiet_refl (st : St) : quiet st st.
Proof. unfold quiet. auto. Qed.

Lemma quiet_trans (a b c : St) : quiet a b -> quiet b c -> quiet a c.
Proof. unfold quiet. intuition (try congruence; try lia). Qed.

Section Aggregator.
Variable w : World.

Lemma _parse_date_run (d : option str) (st : St) :
  exists t st', RSSParser._parse_date w d st = (Val t, st') /\ quiet st st' /\
                wire st' = wire st.
Proof.
  unfold RSSParser._parse_date, RSSParser.now, ret.
  destruct (truthy d); [destruct (w_parse_date w _)|];
    eexists _, _; (split; [reflexivity|]); unfold quiet; cbn;
    repeat split; lia.
Qed.

Lemma build_article_run (name icon : str) (e : Entry) (st : St) :
  exists a st',
    RSSParser.build_article w name icon e st = (Val a, st') /\
    quiet st st' /\ wire st' = wire st /\
    (exists raw, summary a = RSSParser._clean_html raw) /\
    (exists raw, content a = RSSParser._clean_html raw).
Proof.
  unfold RSSParser.build_article, bind.
  destruct (_parse_date_run (e_published e) st) as [t [st' [E [Q Wi]]]].
  rewrite E. eexists _, _. split; [reflexivity|]. cbn.
  repeat split; try apply Q; try exact Wi.
  - eexists; reflexivity.
  - destruct (e_content e); eexists; reflexivity.
Qed.

Lemma build_articles_run (name icon : str) (es : list Entry) (st : St) :
  exists l st',
    map_m (RSSParser.build_article w name icon) es st = (Val l, st') /\
    quiet st st' /\ wire st' = wire st /\
    Forall (fun a => (exists raw, summary a = RSSParser._clean_html raw) /\
                     (exists raw, content a = RSSParser._clean_html raw)) l.
Proof.
  revert st. induction es as [|e es IH]; intros st.
  - exists [], st. repeat split; try reflexivity; auto using quiet_refl.
  - cbn [map_m]. unfold bind.
    destruct (build_article_run name icon e st)
      as [a [st1 [E1 [Q1 [W1 [Hs Hc]]]]]].
    rewrite E1.
    destruct (IH st1) as [l [st2 [E2 [Q2 [W2 Hl]]]]]. rewrite E2.
    eexists _, _. split; [reflexivity|].
    split; [eapply quiet_trans; eassumption|].
    split; [congruence|].
    constructor; [split; assumption | exact Hl].
Qed.

(** [fetch_feed] returns a list in every world; every summary and every
    content in it went through [_clean_html]. *)
Lemma fetch_feed_run (f : FeedInfo) (st : St) :
  exists l st',
    RSSParser.fetch_feed w f st = (Val l, st') /\ quiet st st' /\
    Forall (fun a => (exists raw, summary a = RSSParser._clean_html raw) /\
                     (exists raw, content a = RSSParser._clean_html raw)) l.
Proof.
  unfold RSSParser.fetch_feed, try_except, bind, RSSParser.feedparser_parse.
  destruct (w_feed w (tick st)) as [|entries]; cbn.
  - eexists _, _. split; [reflexivity|]. split; [|constructor].
    unfold quiet; cbn. repeat split; lia.
  - match goal with
    | |- context [map_m _ ?es ?s] =>
        destruct (build_articles_run (feed_name f)
                    (RSSParser.get_or (feed_icon f) RSSParser.default_icon)
                    es s) as [l [st' [E [Q [_ Hl]]]]]
    end.
    rewrite E. eexists _, _. split; [reflexivity|]. split; [|exact Hl].
    eapply quiet_trans; [|exact Q]. unfold quiet; cbn. repeat split; lia.
Qed.

Lemma gather_fetch_feed_run (feeds : list FeedInfo) (st : St) :
  exists rs st',
    RSSParser.gather (List.map (RSSParser.fetch_feed w) feeds) st =
      (Val rs, st') /\
    quiet st st' /\ List.length rs = List.length feeds.
Proof.
  revert st. induction feeds as [|f feeds IH]; intros st.
  - exists [], st. repeat split; auto using quiet_refl.
  - cbn [List.map RSSParser.gather].
    destruct (fetch_feed_run f st) as [l [st1 [E1 [Q1 _]]]]. rewrite E1.
    destruct (IH st1) as [rs [st2 [E2 [Q2 Hn]]]]. rewrite E2.
    eexists _, _. split; [reflexivity|].
    split; [eapply quiet_trans; eassumption | cbn; congruence].
Qed.

Lemma fetch_all_run (feeds : list FeedInfo) (st : St) :
  exists rs st',
    RSSParser.gather (List.map (RSSParser.fetch_feed w) feeds) st =
      (Val rs, st') /\
    RSSParser.fetch_all w feeds st =
      (Val (RSSParser.merge_results rs), st') /\
    quiet st st'.
Proof.
  destruct (gather_fetch_feed_run feeds st) as [rs [st' [E [Q _]]]].
  exists rs, st'. unfold RSSParser.fetch_all, bind. rewrite E.
  repeat split; try reflexivity; apply Q.
Qed.

End Aggregator.

(** C3: [fetch_all] returns the merge of the gathered per-source results,
    and the merge is the concatenation of the lists rearranged so that
    published times never increase; items with the same time keep the
    order they have in the concatenation; when all times differ the
    output is strictly descending. *)
Theorem fetch_all_newest_first
  (w : World) (feeds : list FeedInfo) (st : St)
  (results : list (res (list Article))) :
  (exists rs st',
     RSSParser.gather (List.map (RSSParser.fetch_feed w) feeds) st =
       (Val rs, st') /\
     RSSParser.fetch_all w feeds st =
       (Val (RSSParser.merge_results rs), st')) /\
  Permutation (RSSParser.merge_results results) (concatenation results) /\
  StronglySorted (desc RSSParser.sort_key) (RSSParser.merge_results results) /\
  (forall t,
     with_key RSSParser.sort_key t (RSSParser.merge_results results) =
     with_key RSSParser.sort_key t (concatenation results)) /\
  (NoDup (List.map RSSParser.sort_key (concatenation results)) ->
   StronglySorted (strictly_desc RSSParser.sort_key)
                  (RSSParser.merge_results results)).
Proof.
  split; [|split; [|split; [|split]]].
  - destruct (fetch_all_run w feeds st) as [rs [st' [E1 [E2 _]]]].
    exists rs, st'. split; assumption.
  - apply list_sort_reverse_perm.
  - apply list_sort_reverse_sorted.
  - intros t. apply list_sort_reverse_stable.
  - intros Hn. apply desc_strict; [|apply list_sort_reverse_sorted].
    eapply Permutation_NoDup; [|exact Hn].
    apply Permutation_map. symmetry. apply list_sort_reverse_perm.
Qed.

Lemma fetch_all_newest_first_witness :
  StronglySorted (strictly_desc RSSParser.sort_key)
                 (RSSParser.merge_results three_sources) /\
  List.map RSSParser.sort_key (RSSParser.merge_results three_sources) =
    [30; 20; 10]%Z.
Proof.
  split; [|vm_compute; reflexivity].
  apply (fetch_all_newest_first calm [] (start []) three_sources).
  cbn. repeat constructor; cbn; intuition discriminate.
Defined.

(** ** FeedAggregator: text cleaning *)

Lemma sub_from_skipn (re : Re.pattern) (repl : str) (k : nat) (s : str) :
  Re.sub_from re repl k s = Re.sub_from re repl 0 (skipn k s).
Proof.
  revert k. induction s as [|c s IH]; intros [|k]; try reflexivity.
  cbn [Re.sub_from skipn]. apply IH.
Qed.

Lemma run_length_le (p : char -> bool) (s : str) :
  Re.run_length p s <= List.length s.
Proof.
  induction s as [|c s IH]; cbn; [lia|]. destruct (p c); cbn; lia.
Qed.

Lemma skipn_run_length_spaces (s : str) :
  skipn (Re.run_length is_space s) s = lstrip s.
Proof.
  induction s as [|c s IH]; [reflexivity|].
  cbn. destruct (is_space c); [exact IH | reflexivity].
Qed.

Lemma match_here_spaces (s : str) :
  Re.match_here RSSParser.spaces_re s None =
  match Re.run_length is_space s with
  | O => None
  | S n => Some (None, skipn (S n) s)
  end.
Proof.
  unfold RSSParser.spaces_re. cbn [Re.match_here].
  destruct (Re.run_length is_space s); reflexivity.
Qed.

Lemma collapse_cons (c : char) (s : str) :
  collapse (c :: s) =
  if is_space c then 32%N :: collapse (lstrip s) else c :: collapse s.
Proof.
  unfold collapse, Re.sub. cbn [Re.sub_from].
  rewrite match_here_spaces. cbn [Re.run_length].
  destruct (is_space c); [|reflexivity].
  cbn [skipn]. rewrite sub_from_skipn.
  pose proof (run_length_le is_space s) as Hle.
  replace (List.length (c :: s) -
           List.length (skipn (Re.run_length is_space s) s) - 1)
    with (Re.run_length is_space s)
    by (cbn [List.length]; rewrite length_skipn; lia).
  rewrite skipn_run_length_spaces. reflexivity.
Qed.

Lemma lstrip_length (s : str) : List.length (lstrip s) <= List.length s.
Proof.
  induction s as [|c s IH]; cbn; [lia|]. destruct (is_space c); cbn; lia.
Qed.

Lemma lstrip_starts (s : str) : starts_with_space (lstrip s) = false.
Proof.
  induction s as [|c s IH]; cbn; [reflexivity|].
  destruct (is_space c) eqn:E; [exact IH | cbn; exact E].
Qed.

Lemma single_spaces_weaken (s : str) :
  single_spaces true s = true -> single_spaces false s = true.
Proof.
  destruct s as [|c s]; cbn; [auto|].
  destruct (is_space c); cbn; [discriminate | auto].
Qed.

Lemma single_spaces_after (s : str) :
  starts_with_space s = false -> single_spaces false s = true ->
  single_spaces true s = true.
Proof.
  destruct s as [|c s]; cbn; [auto|]. intros ->. auto.
Qed.

(** After the collapse every white space is one plain space. *)
Lemma collapse_single_spaces (s : str) :
  single_spaces false (collapse s) = true.
Proof.
  remember (List.length s) as n eqn:Hn.
  revert s Hn. induction n as [n IH] using lt_wf_ind. intros s Hn.
  destruct s as [|c s]; [reflexivity|].
  rewrite collapse_cons. destruct (is_space c) eqn:E.
  - cbn [single_spaces].
    replace (is_space 32%N) with true by reflexivity. cbn.
    pose proof (lstrip_length s) as Hl. pose proof (lstrip_starts s) as Hs.
    destruct (lstrip s) as [|d t] eqn:El; [reflexivity|].
    cbn in Hs. rewrite collapse_cons, Hs. cbn [single_spaces]. rewrite Hs.
    apply (IH (List.length t)); [cbn in *; lia | reflexivity].
  - cbn [single_spaces]. rewrite E.
    apply (IH (List.length s)); [cbn in *; lia | reflexivity].
Qed.

Lemma lstrip_single_spaces (s : str) :
  single_spaces false s = true -> single_spaces false (lstrip s) = true.
Proof.
  destruct s as [|c s]; [auto|]. cbn. destruct (is_space c) eqn:E; [|cbn; rewrite E; auto].
  cbn. intros H. apply andb_prop in H. destruct H as [_ H].
  destruct s as [|d t]; [reflexivity|].
  cbn in *. destruct (is_space d) eqn:Ed; [discriminate|].
  cbn. rewrite Ed. exact H.
Qed.

Lemma rstrip_nil_inv (s : str) :
  rstrip s = [] -> forallb is_space s = true.
Proof.
  induction s as [|c s IH]; [reflexivity|]. cbn.
  destruct (rstrip s) eqn:E; [|discriminate].
  destruct (is_space c); [intros _; apply IH; reflexivity | discriminate].
Qed.

Lemma rstrip_ends (s : str) : ends_with_space (rstrip s) = false.
Proof.
  induction s as [|c s IH]; [reflexivity|]. cbn [rstrip].
  destruct (rstrip s) as [|d t] eqn:E.
  - destruct (is_space c) eqn:Ec; cbn; [reflexivity | exact Ec].
  - cbn [ends_with_space]. exact IH.
Qed.

Lemma rstrip_starts (s : str) :
  starts_with_space s = false -> starts_with_space (rstrip s) = false.
Proof.
  destruct s as [|c s]; [auto|]. cbn [rstrip starts_with_space]. intros E.
  destruct (rstrip s); [rewrite E|]; cbn; auto.
Qed.

Lemma rstrip_single_spaces (p : bool) (s : str) :
  single_spaces p s = true -> single_spaces p (rstrip s) = true.
Proof.
  revert p. induction s as [|c s IH]; intros p; [auto|].
  cbn [rstrip single_spaces]. intros H.
  destruct (rstrip s) as [|d t] eqn:E.
  - destruct (is_space c) eqn:Ec; [reflexivity|].
    cbn. rewrite Ec. reflexivity.
  - cbn [single_spaces]. destruct (is_space c).
    + apply andb_prop in H. destruct H as [H1 H2]. rewrite H1.
      cbn [andb]. apply IH. exact H2.
    + apply IH. exact H.
Qed.


Lemma replace_absent (a : char) (old new s : str) :
  ~ In a s -> replace (a :: old) new s = s.
Proof.
  unfold replace. induction s as [|c s IH]; [reflexivity|].
  intros Hn. cbn [replace_from startswith].
  destruct (N.eqb_spec a c) as [->|Hac]; [exfalso; apply Hn; left; reflexivity|].
  cbn [andb]. rewrite IH; [reflexivity|]. intros H. apply Hn. right. exact H.
Qed.

Lemma decode_entities_no_amp (s : str) :
  ~ In amp s -> RSSParser.decode_entities s = s.
Proof.
  intros Hn. unfold RSSParser.decode_entities, RSSParser.entities.
  cbn [fold_left fst snd].
  change (lit "&amp;") with (amp :: lit "amp;").
  change (lit "&lt;") with (amp :: lit "lt;").
  change (lit "&gt;") with (amp :: lit "gt;").
  change (lit "&quot;") with (amp :: lit "quot;").
  change (lit "&#39;") with (amp :: lit "#39;").
  change (lit "&nbsp;") with (amp :: lit "nbsp;").
  change (lit "&mdash;") with (amp :: lit "mdash;").
  change (lit "&ndash;") with (amp :: lit "ndash;").
  repeat rewrite (replace_absent amp _ _ s Hn). reflexivity.
Qed.

Lemma sub_from_In (re : Re.pattern) (repl : str) (k : nat) (s : str)
  (c : char) :
  In c (Re.sub_from re repl k s) -> In c s \/ In c repl.
Proof.
  revert k. induction s as [|x s IH]; intros k; cbn [Re.sub_from].
  - intros [].
  - destruct k as [|k].
    + destruct (Re.match_here re (x :: s) None) as [[g rest]|].
      * intros H. apply in_app_or in H. destruct H as [H|H]; [tauto|].
        apply IH in H. cbn. tauto.
      * intros [H|H]; [cbn; tauto|]. apply IH in H. cbn. tauto.
    + intros H. apply IH in H. cbn. tauto.
Qed.

Lemma lstrip_In (s : str) (c : char) : In c (lstrip s) -> In c s.
Proof.
  induction s as [|x s IH]; [auto|]. cbn [lstrip].
  destruct (is_space x); [intros H; right; auto | auto].
Qed.

Lemma rstrip_In (s : str) (c : char) : In c (rstrip s) -> In c s.
Proof.
  induction s as [|x s IH]; [auto|]. cbn [rstrip].
  destruct (rstrip s) as [|d t].
  - destruct (is_space x); [intros [] | intros [H|[]]; left; exact H].
  - intros [H|H]; [left; exact H | right; apply IH; exact H].
Qed.

Lemma normalize_In (text : str) (c : char) :
  In c (RSSParser.normalize text) -> In c text \/ c = 32%N.
Proof.
  unfold RSSParser.normalize, strip, Re.sub. intros H.
  apply rstrip_In, lstrip_In, sub_from_In in H.
  destruct H as [H|[H|[]]]; [|right; symmetry; exact H].
  apply sub_from_In in H. destruct H as [H|[H|[]]]; [left; exact H|].
  right; symmetry; exact H.
Qed.

Lemma give_back_none {R : Type} (rest_after : nat -> option R) (n : nat) :
  (forall k, 1 <= k <= n -> rest_after k = None) ->
  Re.give_back rest_after n = None.
Proof.
  induction n as [|n IH]; intros H; [reflexivity|].
  cbn [Re.give_back]. rewrite (H (S n)) by lia. apply IH.
  intros k Hk. apply H. lia.
Qed.

Lemma skipn_in_run (p : char -> bool) (s : str) (k : nat) :
  k < Re.run_length p s ->
  exists c rest, skipn k s = c :: rest /\ p c = true.
Proof.
  revert k. induction s as [|x s IH]; intros k; cbn [Re.run_length];
    [lia|].
  destruct (p x) eqn:E; [|lia]. intros Hk.
  destruct k as [|k]; [exists x, s; auto|].
  cbn [skipn]. apply IH. lia.
Qed.

Lemma skipn_after_run (p : char -> bool) (s : str) :
  match skipn (Re.run_length p s) s with
  | [] => Re.run_length p s = List.length s
  | c :: _ => p c = false
  end.
Proof.
  induction s as [|x s IH]; [reflexivity|]. cbn [Re.run_length].
  destruct (p x) eqn:E; [|exact E].
  cbn [skipn]. destruct (skipn (Re.run_length p s) s); cbn; congruence.
Qed.

(** Where the tag pattern matches: at an opening bracket that is followed
    by at least one other character and then by a closing bracket; the
    match ends at the first closing bracket. *)
Lemma match_here_tag (s : str) :
  Re.match_here RSSParser.tag_re s None =
  match s with
  | c :: s' =>
      if (c =? 60)%N then
        match Re.run_length not_gt s' with
        | O => None
        | S n =>
            match skipn (S n) s' with
            | _ :: rest => Some (None, rest)
            | [] => None
            end
        end
      else None
  | [] => None
  end.
Proof.
  unfold RSSParser.tag_re. cbn [Re.match_here].
  destruct s as [|c s']; [reflexivity|].
  destruct (c =? 60)%N; [|reflexivity].
  fold not_gt.
  assert (Hinner : forall k, k < Re.run_length not_gt s' ->
            match skipn k s' with
            | x :: s'0 => if (x =? 62)%N then Some (None (A:=str), s'0)
                          else None
            | [] => None
            end = None).
  { intros k Hk. destruct (skipn_in_run not_gt s' k Hk) as [x [r [-> Hx]]].
    unfold not_gt in Hx. destruct (x =? 62)%N; [discriminate|reflexivity]. }
  destruct (Re.run_length not_gt s') as [|n] eqn:En; [reflexivity|].
  cbn [Re.give_back].
  pose proof (skipn_after_run not_gt s') as Hafter. rewrite En in Hafter.
  rewrite (give_back_none _ n)
    by (intros k Hk; apply Hinner; lia).
  destruct (skipn (S n) s') as [|d rest]; [reflexivity|].
  unfold not_gt in Hafter. destruct (d =? 62)%N; [reflexivity|discriminate].
Qed.

Lemma strip_tags_cons (c : char) (s : str) :
  strip_tags (c :: s) =
  match Re.match_here RSSParser.tag_re (c :: s) None with
  | Some (_, rest) => 32%N :: strip_tags rest
  | None => c :: strip_tags s
  end.
Proof.
  unfold strip_tags, Re.sub. cbn [Re.sub_from].
  pose proof (match_here_tag (c :: s)) as Hm.
  destruct (Re.match_here RSSParser.tag_re (c :: s) None) as [[g rest]|];
    [|reflexivity].
  destruct (c =? 60)%N; [|discriminate].
  destruct (Re.run_length not_gt s) as [|n]; [discriminate|].
  destruct (skipn (S n) s) as [|d rest'] eqn:Es; [discriminate|].
  injection Hm as _ ->.
  assert (Hrest : rest' = skipn (S (S n)) s).
  { replace (S (S n)) with (1 + S n) by lia.
    rewrite <- skipn_skipn, Es. reflexivity. }
  assert (Hlen : List.length rest' + S (S n) = List.length s).
  { apply (f_equal (@List.length char)) in Es.
    rewrite length_skipn in Es. cbn in Es. lia. }
  rewrite sub_from_skipn.
  replace (List.length (c :: s) - List.length rest' - 1) with (S (S n))
    by (cbn [List.length]; lia).
  rewrite <- Hrest. reflexivity.
Qed.

Lemma run_length_all (p : char -> bool) (s : str) :
  (forall c, In c s -> p c = true) -> Re.run_length p s = List.length s.
Proof.
  induction s as [|x s IH]; intros H; [reflexivity|].
  cbn. rewrite (H x) by (left; reflexivity).
  f_equal. apply IH. intros c Hc. apply H. right. exact Hc.
Qed.

Lemma run_length_all_inv (p : char -> bool) (s : str) (c : char) :
  Re.run_length p s = List.length s -> In c s -> p c = true.
Proof.
  induction s as [|x s IH]; [intros _ []|].
  cbn. destruct (p x) eqn:E; [|discriminate].
  intros H [<-|Hc]; [exact E | apply IH; [lia | exact Hc]].
Qed.

(** The first step leaves no tag behind. *)
Lemma strip_tags_tagless (s : str) :
  Re.search RSSParser.tag_re (strip_tags s) = None.
Proof.
  remember (List.length s) as n eqn:Hn.
  revert s Hn. induction n as [n IH] using lt_wf_ind. intros s Hn.
  destruct s as [|c s]; [reflexivity|].
  rewrite strip_tags_cons. pose proof (match_here_tag (c :: s)) as Hm.
  destruct (Re.match_here RSSParser.tag_re (c :: s) None) as [[g rest]|].
  - (* a tag starts here: a space takes its place *)
    destruct (c =? 60)%N; [|discriminate].
    destruct (Re.run_length not_gt s) as [|m]; [discriminate|].
    destruct (skipn (S m) s) as [|d rest'] eqn:Es; [discriminate|].
    injection Hm as _ ->.
    assert (Hlen : List.length rest' < List.length s).
    { apply (f_equal (@List.length char)) in Es.
      rewrite length_skipn in Es. cbn in Es. lia. }
    cbn [Re.search]. rewrite match_here_tag.
    replace (32 =? 60)%N with false by reflexivity.
    apply (IH (List.length rest')); [cbn in *; lia | reflexivity].
  - (* no tag starts here: the character stays *)
    assert (Hrest : Re.search RSSParser.tag_re (strip_tags s) = None).
    { apply (IH (List.length s)); [cbn in *; lia | reflexivity]. }
    cbn [Re.search]. rewrite Hrest, match_here_tag.
    destruct (c =? 60)%N; [|reflexivity].
    destruct (Re.run_length not_gt s) as [|m] eqn:Em.
    + (* the bracket is last, or a closing bracket follows at once *)
      destruct s as [|x s']; [reflexivity|].
      rewrite strip_tags_cons, match_here_tag.
      cbn [Re.run_length] in Em.
      destruct (not_gt x) eqn:Ex; [discriminate|].
      unfold not_gt in Ex. destruct (N.eqb_spec x 62) as [->|]; [|discriminate].
      replace (62 =? 60)%N with false by reflexivity.
      cbn [Re.run_length]. unfold not_gt at 1.
      replace (62 =? 62)%N with true by reflexivity. reflexivity.
    + (* no closing bracket follows *)
      destruct (skipn (S m) s) as [|d r] eqn:Es; [|discriminate].
      pose proof (skipn_after_run not_gt s) as Hall.
      rewrite Em, Es in Hall.
      assert (Hout : Re.run_length not_gt (strip_tags s) =
                     List.length (strip_tags s)).
      { apply run_length_all. intros x Hx.
        unfold strip_tags, Re.sub in Hx. apply sub_from_In in Hx.
        destruct Hx as [Hx|[<-|[]]]; [|reflexivity].
        apply (run_length_all_inv not_gt s x); [congruence | exact Hx]. }
      rewrite Hout.
      destruct (List.length (strip_tags s)) as [|k] eqn:Ek; [reflexivity|].
      rewrite <- Ek, skipn_all. reflexivity.
Qed.




(** ** ImageResolver *)

Section Resolver.
Variable w : World.


Lemma scan_valid (url html : str) (patterns : list Re.pattern) (u : str) :
  ImageExtractor.scan w url html patterns = Some u ->
  ImageExtractor._is_valid_image_url u = true /\
  exists pattern, In pattern patterns /\ candidate w url html pattern = Some u.
Proof.
  induction patterns as [|p ps IH]; [discriminate|].
  cbn [ImageExtractor.scan]. unfold candidate.
  destruct (Re.search_group1 p html) as [g|] eqn:Eg.
  - cbv zeta.
    destruct (ImageExtractor._is_valid_image_url
                (ImageExtractor.absolute w url g)) eqn:E.
    + intros H. injection H as <-. split; [exact E|].
      exists p. split; [left; reflexivity|]. rewrite Eg. reflexivity.
    + intros H. destruct (IH H) as [Hv [q [Hq Hc]]].
      split; [exact Hv|]. exists q. split; [right; exact Hq | exact Hc].
  - intros H. destruct (IH H) as [Hv [q [Hq Hc]]].
    split; [exact Hv|]. exists q. split; [right; exact Hq | exact Hc].
Qed.

(** What [extract] returns and leaves behind, in every world. *)
Lemma extract_run (url : str) (st : St) :
  exists r st',
    ImageExtractor.extract w url st = (Val r, st') /\
    quiet st st' /\
    r = match w_page w (tick st) with
        | PageResponse false html =>
            ImageExtractor.scan w url html ImageExtractor.OG_IMAGE_PATTERNS
        | _ => None
        end.
Proof.
  unfold ImageExtractor.extract, try_except, bind, ImageExtractor.get_page.
  destruct (w_page w (tick st)) as [[|]|[|] html]; cbn;
    eexists _, _; (split; [reflexivity|]); (split; [|reflexivity]);
    unfold quiet; cbn; repeat split; lia.
Qed.

End Resolver.




(** ** Orchestrator *)

Lemma call_run {A : Type} (m : M A) (ev : A -> Call) (st st1 : St) (a : A) :
  m st = (Val a, st1) -> call m ev st = (Val a, log_call (ev a) st1).
Proof. intros E. unfold call, bind, modify, ret. rewrite E. reflexivity. Qed.

Section Orchestrator.
Variable w : World.

Lemma test_connection_run (st : St) :
  exists b st',
    TelegramPoster.test_connection w st = (Val b, st') /\
    quiet st st' /\ wire st' = wire st ++ [WGetMe].
Proof.
  unfold TelegramPoster.test_connection, try_except, bind,
    TelegramPoster.client_get_getMe.
  destruct (w_getMe w (tick st)) as [|code ok]; cbn;
    [|destruct ((code =? 200)%N && ok)];
    eexists _, _; (split; [reflexivity|]); unfold quiet; cbn;
    repeat split; lia.
Qed.

Lemma post_quiet (text : str) (image_url : option str) (dp : bool) (st : St) :
  exists b st',
    TelegramPoster.post w text image_url dp st = (Val b, st') /\ quiet st st'.
Proof.
  unfold TelegramPoster.post, try_except, bind.
  destruct (truthy image_url).
  - rewrite _send_with_image_run.
    destruct (accepted (w_send w (tick st))).
    + eexists _, _; split; [reflexivity|]. unfold quiet; cbn.
      repeat split; lia.
    + rewrite _send_text_run. eexists _, _; split; [reflexivity|].
      unfold quiet; cbn. repeat split; lia.
  - rewrite _send_text_run. eexists _, _; split; [reflexivity|].
    unfold quiet; cbn. repeat split; lia.
Qed.

(** [process_article] returns in every world; it leaves the ledger alone
    and reports success exactly when there was a summary and [post]
    returned true, whatever became of the image. *)
Lemma process_article_run (a : Article) (st : St) :
  exists image summ sent st',
    NewsBot.process_article w a st =
      (Val (truthy summ && sent), st') /\
    table st' = table st /\ stats st' = stats st /\ tick st <= tick st' /\
    calls st' =
      calls st ++
      CExtract (link a) image :: CSummarize a summ ::
      (if truthy summ then [CPost (text_of summ) image sent] else []).
Proof.
  unfold NewsBot.process_article, try_except. unfold bind at 1.
  destruct (extract_run w (link a) st) as [image [st1 [E1 [Q1 _]]]].
  rewrite (call_run _ _ _ _ _ E1).
  unfold bind at 1.
  unfold call at 1, bind at 1, GeminiSummarizer.summarize at 1.
  cbn [modify ret bind].
  set (summ := w_summarize w (tick (log_call (CExtract (link a) image) st1))).
  destruct Q1 as [Q1t [Q1c [Q1s Q1k]]].
  destruct (truthy summ) eqn:Es; cbn [negb].
  - unfold bind at 1.
    match goal with
    | |- context [call (TelegramPoster.post w ?t ?i ?d) _ ?s] =>
        destruct (post_quiet t i d s)
          as [sent [st2 [E2 [Q2t [Q2c [Q2s Q2k]]]]]];
        rewrite (call_run _ _ _ _ _ E2)
    end.
    exists image, summ, sent, (log_call (CPost (text_of summ) image sent) st2).
    rewrite Es. cbn [andb].
    split; [destruct sent; reflexivity|].
    cbn in *. rewrite Q2t, Q2c, Q2s, Q1t, Q1c, Q1s.
    repeat split; try lia.
    rewrite <- !app_assoc. reflexivity.
  - eexists image, summ, false, _. rewrite Es. cbn [andb].
    split; [reflexivity|]. cbn in *. rewrite Q1t, Q1c, Q1s.
    repeat split; try lia.
    rewrite <- !app_assoc. reflexivity.
Qed.

Lemma counted_nil (s : RunStats) : counted [] s s.
Proof. unfold counted, count_items. cbn. repeat split; lia. Qed.

Lemma counted_cons (ao : Article * Outcome)
  (rest : list (Article * Outcome)) (s s1 s2 : RunStats) :
  counted [ao] s s1 -> counted rest s1 s2 -> counted (ao :: rest) s s2.
Proof.
  unfold counted, count_items. cbn [filter].
  destruct (published_ok (snd ao)); cbn [negb List.length];
    intuition (try congruence; try lia).
Qed.

(** One round of the loop: the calls of the item in their order, a row
    exactly when the item was committed, one counter moved. *)
Lemma process_one_run (n : nat) (item : nat * Article) (st : St) :
  exists o st',
    NewsBot.process_one w n item st = (Val tt, st') /\
    calls st' = calls st ++ item_log (snd item, o) /\
    table st' = table st ++ item_rows (snd item, o) /\
    counted [(snd item, o)] (stats st) (stats st') /\
    (committed o = true ->
     Database.has_link (link (snd item)) (table st) = false) /\
    tick st <= tick st'.
Proof.
  destruct item as [i a]. unfold NewsBot.process_one. cbn [fst snd].
  unfold bind at 1.
  destruct (process_article_run a st)
    as [image [summ [sent [st1 [E1 [Ht1 [Hs1 [Hk1 Hc1]]]]]]]].
  rewrite E1.
  assert (Hsleep : forall s : St,
            exists s', (if i <? n then NewsBot.sleep 3 else ret tt) s =
                       (Val tt, s') /\
                       calls s' = calls s /\ table s' = table s /\
                       stats s' = stats s /\ tick s' = tick s).
  { intros s. destruct (i <? n); eexists; (split; [reflexivity|]);
      cbn; auto. }
  destruct (truthy summ && sent) eqn:Eok.
  - apply andb_prop in Eok. destruct Eok as [Es Esent]. subst sent.
    rewrite Es in Hc1.
    unfold bind at 1. unfold bind at 1.
    destruct (mark_processed_run w (link a) (title a) (source a) st1)
      as [b [st2 [E2 [Ht2 [Hnew [_ [_ [_ [_ [Hc2 [Hs2 Hk2]]]]]]]]]]].
    rewrite (call_run _ _ _ _ _ E2).
    unfold NewsBot.update_stats, modify. cbn [ret].
    match goal with
    | |- context [(if i <? n then _ else _) ?s] =>
        destruct (Hsleep s) as [s' [E3 [Hc3 [Ht3 [Hs3 Hk3]]]]]
    end.
    exists {| o_image := image; o_summary := summ; o_sent := true;
              o_recorded := b; o_at := w_now w (S (tick st1)) |}, s'.
    split; [exact E3|].
    unfold item_log, item_rows, committed, published_ok. cbn [fst snd
      o_image o_summary o_sent o_recorded o_at].
    rewrite Es. cbn [andb].
    rewrite Hc3, Ht3, Hs3, Hk3. cbn. rewrite Hc2, Ht2, Hs2, Hc1, Ht1, Hs1.
    repeat split; try lia.
    + rewrite <- !app_assoc. reflexivity.
    + destruct b; [reflexivity | symmetry; apply app_nil_r].
    + unfold count_items. cbn. unfold published_ok. cbn. rewrite Es. cbn. lia.
    + unfold count_items. cbn. unfold published_ok. cbn. rewrite Es. cbn. lia.
    + intros ->. rewrite <- Ht1. apply Hnew. reflexivity.
  - unfold bind at 1. unfold NewsBot.update_stats, modify. cbn [ret].
    match goal with
    | |- context [(if i <? n then _ else _) ?s] =>
        destruct (Hsleep s) as [s' [E3 [Hc3 [Ht3 [Hs3 Hk3]]]]]
    end.
    exists {| o_image := image; o_summary := summ; o_sent := sent;
              o_recorded := false; o_at := 0%Z |}, s'.
    split; [exact E3|].
    unfold item_log, item_rows, committed, published_ok. cbn [fst snd
      o_image o_summary o_sent o_recorded o_at].
    rewrite Eok. cbn [andb].
    rewrite Hc3, Ht3, Hs3, Hk3. cbn. rewrite Hc1, Ht1, Hs1.
    repeat split; try lia; try discriminate.
    + destruct (truthy summ); [|reflexivity].
      cbn in Eok. subst sent. reflexivity.
    + symmetry. apply app_nil_r.
    + unfold count_items. cbn. unfold published_ok. cbn. rewrite Eok. cbn. lia.
    + unfold count_items. cbn. unfold published_ok. cbn. rewrite Eok. cbn. lia.
Qed.

(** The whole loop. *)
Lemma process_loop_run (n k : nat) (items : list Article) (st : St) :
  exists outcomes st',
    for_each (NewsBot.enumerate k items) (NewsBot.process_one w n) st =
      (Val tt, st') /\
    List.length outcomes = List.length items /\
    calls st' = calls st ++ flat_map item_log (combine items outcomes) /\
    table st' = table st ++ flat_map item_rows (combine items outcomes) /\
    counted (combine items outcomes) (stats st) (stats st') /\
    (unique_links (table st) -> unique_links (table st')) /\
    tick st <= tick st'.
Proof.
  revert k st. induction items as [|a items IH]; intros k st.
  - exists [], st. cbn. rewrite !app_nil_r.
    repeat split; auto using counted_nil.
  - cbn [NewsBot.enumerate for_each]. unfold bind.
    destruct (process_one_run n (k, a) st)
      as [o [st1 [E1 [Hc1 [Ht1 [Hs1 [Hn1 Hk1]]]]]]].
    rewrite E1.
    destruct (IH (S k) st1)
      as [os [st2 [E2 [Hl [Hc2 [Ht2 [Hs2 [Hu2 Hk2]]]]]]]].
    rewrite E2. exists (o :: os), st2. cbn [fst snd] in *.
    split; [reflexivity|]. split; [cbn; congruence|].
    cbn [combine flat_map]. rewrite Hc2, Hc1, Ht2, Ht1, <- !app_assoc.
    split; [reflexivity|]. split; [reflexivity|].
    split; [eapply counted_cons; eassumption|].
    split; [|lia].
    intros Hu. rewrite app_assoc, <- Ht1, <- Ht2. apply Hu2.
    rewrite Ht1. unfold item_rows. cbn [fst snd].
    destruct (committed o) eqn:Ec; [|rewrite app_nil_r; exact Hu].
    apply unique_links_insert; [exact Hu | apply Hn1; reflexivity].
Qed.

Lemma no_item_calls_app (a b : list Call) :
  no_item_calls a -> no_item_calls b -> no_item_calls (a ++ b).
Proof.
  unfold no_item_calls. rewrite forallb_app. intros -> ->. reflexivity.
Qed.

(** The filter asks the ledger once per article and changes nothing. *)
Lemma filter_new_run (articles : list Article) (st : St) :
  exists news asked st',
    NewsBot.filter_new w articles st = (Val news, st') /\
    calls st' = calls st ++ asked /\ no_item_calls asked /\
    table st' = table st /\ stats st' = stats st /\ tick st <= tick st' /\
    incl news articles.
Proof.
  revert st. induction articles as [|a articles IH]; intros st.
  - exists [], [], st. cbn. rewrite app_nil_r.
    repeat split; auto. intros x [].
  - cbn [NewsBot.filter_new]. unfold bind at 1.
    destruct (is_processed_run w (link a) st)
      as [b [st1 [E1 [Ht1 [_ [_ [_ [Hc1 [Hs1 Hk1]]]]]]]]].
    rewrite (call_run _ _ _ _ _ E1). unfold bind at 1.
    destruct (IH (log_call (CIsProcessed (link a) b) st1))
      as [news [asked [st2 [E2 [Hc2 [Hn2 [Ht2 [Hs2 [Hk2 Hi]]]]]]]]].
    rewrite E2. cbn [ret].
    exists (if negb b then a :: news else news),
           (CIsProcessed (link a) b :: asked), st2.
    split; [reflexivity|]. cbn in *.
    rewrite Hc2, Ht2, Hs2, Hc1, Ht1, Hs1, <- app_assoc.
    repeat split; try lia; try exact Hn2.
    destruct b; cbn; intros x Hx.
    + right. apply Hi. exact Hx.
    + destruct Hx as [->|Hx]; [left; reflexivity | right; apply Hi; exact Hx].
Qed.

Lemma cleanup_run (st : St) :
  NewsBot.cleanup st = (Val tt, log_call CCleanup (log_wire WCloseClients st)).
Proof. reflexivity. Qed.

(** The body of [run] returns in every world; all it does to the ledger
    is what the attempted items commit. *)
Lemma run_body_run (config : Config) (st : St) :
  exists returned st' before attempted after,
    NewsBot.run_body w config st = (Val returned, st') /\
    calls st' = calls st ++ before ++ flat_map item_log attempted ++ after /\
    no_item_calls before /\ no_item_calls after /\
    table st' = table st ++ flat_map item_rows attempted /\
    (unique_links (table st) -> unique_links (table st')) /\
    articles_processed (stats st') =
      articles_processed (stats st) + count_items published_ok attempted /\
    articles_failed (stats st') =
      articles_failed (stats st) +
      count_items (fun o => negb (published_ok o)) attempted.
Proof.
  unfold NewsBot.run_body. unfold bind at 1.
  destruct (test_connection_run st) as [c [st1 [E1 [[Ht1 [Hc1 [Hs1 Hk1]]] _]]]].
  rewrite (call_run _ _ _ _ _ E1).
  destruct c; cbn [negb].
  2:{ eexists true, _, [CTestConnection false], [], [].
      split; [reflexivity|]. cbn. rewrite Hc1, Ht1, Hs1, !app_nil_r.
      unfold count_items. cbn.
      repeat split; auto; lia. }
  unfold bind at 1.
  destruct (fetch_all_run w (rss_feeds config)
              (log_call (CTestConnection true) st1))
    as [rs [st2 [_ [E2 [Ht2 [Hc2 [Hs2 Hk2]]]]]]].
  rewrite (call_run _ _ _ _ _ E2).
  unfold bind at 1. unfold NewsBot.update_stats at 1, modify at 1.
  destruct (RSSParser.merge_results rs) as [|a0 articles] eqn:Ea.
  { eexists true, _, [CTestConnection true; CFetchAll 0], [], [].
    split; [reflexivity|]. cbn in *.
    rewrite Hc2, Ht2, Hs2, Hc1, Ht1, Hs1, !app_nil_r, <- !app_assoc.
    unfold count_items. cbn.
    repeat split; auto; lia. }
  unfold bind at 1.
  match goal with
  | |- context [NewsBot.filter_new w ?l ?s] =>
      destruct (filter_new_run l s)
        as [news [asked [st3 [E3 [Hc3 [Hn3 [Ht3 [Hs3 [Hk3 _]]]]]]]]]
  end.
  rewrite E3. unfold bind at 1.
  unfold NewsBot.update_stats at 1, modify at 1. unfold bind at 1.
  match goal with
  | |- context [for_each (NewsBot.enumerate 1 ?items)
                         (NewsBot.process_one w ?n) ?s] =>
      destruct (process_loop_run n 1 items s)
        as [os [st4 [E4 [_ [Hc4 [Ht4 [Hs4 [Hu4 Hk4]]]]]]]];
      rewrite E4;
      set (attempted := combine items os) in *
  end.
  unfold bind at 1.
  destruct (get_stats_run w st4) as [ds [st5 [E5 [Ht5 [_ [_ [Hc5 [Hs5 Hk5]]]]]]]].
  rewrite (call_run _ _ _ _ _ E5). cbn [ret].
  eexists false, _,
    (CTestConnection true :: CFetchAll (List.length (a0 :: articles)) :: asked),
    attempted, [CGetStats].
  split; [reflexivity|]. cbn in *.
  rewrite Hc5, Ht5, Hs5, Hc4, Ht4, Hc3, Ht3, Hc2, Ht2, Hc1, Ht1.
  destruct Hs4 as [Hp [Hf _]]. cbn in *.
  rewrite Hp, Hf, Hs3. cbn. rewrite Hs2. cbn. rewrite Hs1.
  rewrite <- !app_assoc. cbn.
  repeat split; try reflexivity; try exact Hn3.
  intros Hu. rewrite <- Ht1, <- Ht2, <- Ht3, <- Ht4. apply Hu4.
  rewrite Ht3, Ht2, Ht1. exact Hu.
Qed.

(** [run] returns its statistics in every world. *)
Lemma run_run (config : Config) (st : St) :
  exists rs st' before attempted after,
    NewsBot.run w config st = (Val rs, st') /\
    calls st' = calls st ++ before ++ flat_map item_log attempted ++ after /\
    no_item_calls before /\ no_item_calls after /\
    table st' = table st ++ flat_map item_rows attempted /\
    (unique_links (table st) -> unique_links (table st')) /\
    articles_processed rs = count_items published_ok attempted /\
    articles_failed rs =
      count_items (fun o => negb (published_ok o)) attempted.
Proof.
  unfold NewsBot.run. unfold bind at 1. unfold RSSParser.now at 1.
  unfold bind at 1. unfold modify at 1. unfold bind at 1.
  unfold try_finally, try_except.
  match goal with
  | |- context [NewsBot.run_body w config ?s] =>
      destruct (run_body_run config s)
        as [returned [st1 [before [attempted [after
             [E [Hc [Hb [Ha [Ht [Hu [Hp Hf]]]]]]]]]]]]
  end.
  rewrite E, cleanup_run. cbn in Hc, Ht, Hu, Hp, Hf.
  assert (Hafter : no_item_calls (after ++ [CCleanup])).
  { apply no_item_calls_app; [exact Ha | reflexivity]. }
  destruct returned.
  - eexists _, _, before, attempted, (after ++ [CCleanup]).
    split; [reflexivity|]. cbn. rewrite Hc, Ht, Hp, Hf, <- !app_assoc.
    repeat split; auto.
    intros H. rewrite <- Ht. auto.
  - eexists _, _, before, attempted, (after ++ [CCleanup]).
    split; [reflexivity|]. cbn. rewrite Hc, Ht, Hp, Hf, <- !app_assoc.
    repeat split; auto.
    intros H. rewrite <- Ht. auto.
Qed.

End Orchestrator.




(** A refused post and a missing summary each leave the item failed and
    its link unknown, with no call of [mark_processed]. *)
Example failed_items_stay_unknown :
  (let r := NewsBot.run posts_refused sample_config (start []) in
   has_post false (calls (snd r)) = true /\
   statements (wire (snd r)) =
     [SelectByLink (lit "https://a.example/1"); CountAll;
      SelectLastProcessed; CountBySource; CountLastDay] /\
   table (snd r) = []) /\
  (let r := NewsBot.run no_summary sample_config (start []) in
   has_post true (calls (snd r)) = false /\
   has_post false (calls (snd r)) = false /\
   table (snd r) = []).
Proof. vm_compute. repeat split; reflexivity. Qed.


(** A failed connectivity check ends the run before any fetch. *)
Lemma run_without_connection
  (w : World) (config : Config) (st : St) :
  connected (w_getMe w (S (tick st))) = false ->
  exists rs st',
    NewsBot.run w config st = (Val rs, st') /\
    articles_found rs = 0 /\ articles_new rs = 0 /\
    articles_processed rs = 0 /\ articles_failed rs = 0 /\
    errors rs = [TelegramConnectionFailed] /\
    calls st' = calls st ++ [CTestConnection false; CCleanup] /\
    wire st' = wire st ++ [WGetMe; WCloseClients] /\
    fetches_or_publishes (wire st') = fetches_or_publishes (wire st) /\
    table st' = table st.
Proof.
  intros Hdown.
  cbv beta iota zeta delta
    [NewsBot.run NewsBot.run_body bind call modify ret get try_finally
     try_except RSSParser.now TelegramPoster.test_connection
     TelegramPoster.client_get_getMe NewsBot.update_stats NewsBot.cleanup
     TelegramPoster.close ImageExtractor.close
     set_stats bump log_wire log_call].
  cbn [tick table work stats calls wire].
  unfold connected in Hdown.
  destruct (w_getMe w (S (tick st))) as [|code ok].
  - cbn. eexists _, _. split; [reflexivity|]. cbn.
    rewrite <- !app_assoc. cbn.
    repeat split; try reflexivity.
    unfold fetches_or_publishes. rewrite existsb_app. cbn.
    apply orb_false_r.
  - cbn [fst snd]. rewrite Hdown. cbn. eexists _, _.
    split; [reflexivity|]. cbn.
    rewrite <- !app_assoc. cbn.
    repeat split; try reflexivity.
    unfold fetches_or_publishes. rewrite existsb_app. cbn.
    apply orb_false_r.
Qed.


(** C8: when the connectivity check fails (the run reads the clock and
    then asks getMe), [run] records the failure in [errors] and goes
    straight to cleanup: the statistics show nothing found, new, processed
    or failed, the only calls are the check and the cleanup, and the only
    requests are getMe and the closing of the clients, so no feed is
    fetched and nothing is published; the ledger is as before. *)
Theorem connectivity_failure_skips_fetch
  (w : World) (config : Config) (st : St) :
  connected (w_getMe w (S (tick st))) = false ->
  exists rs st',
    NewsBot.run w config st = (Val rs, st') /\
    articles_found rs = 0 /\ articles_new rs = 0 /\
    articles_processed rs = 0 /\ articles_failed rs = 0 /\
    errors rs = [TelegramConnectionFailed] /\
    calls st' = calls st ++ [CTestConnection false; CCleanup] /\
    wire st' = wire st ++ [WGetMe; WCloseClients] /\
    fetches_or_publishes (wire st') = fetches_or_publishes (wire st) /\
    table st' = table st.
Proof. apply run_without_connection. Qed.

Lemma connectivity_failure_skips_fetch_witness :
  exists rs st',
    NewsBot.run connection_down sample_config (start one_row) =
      (Val rs, st') /\
    articles_found rs = 0 /\ articles_new rs = 0 /\
    articles_processed rs = 0 /\ articles_failed rs = 0 /\
    errors rs = [TelegramConnectionFailed] /\
    calls st' = [CTestConnection false; CCleanup] /\
    wire st' = [WGetMe; WCloseClients] /\
    fetches_or_publishes (wire st') = false /\
    table st' = one_row.
Proof.
  apply (connectivity_failure_skips_fetch connection_down sample_config
           (start one_row)).
  reflexivity.
Defined.

(** ** Process exit *)

Section Exit.
Variable w : World.


Lemma _init_schema_raises (st st1 : St) (e : exn) :
  Database._init_schema w st = (Exc e, st1) -> e = SqliteError.
Proof.
  unfold Database._init_schema. db_steps.
  db_cases ltac:(congruence).
Qed.

Lemma init_raises (config : Config) (st st1 : St) (e : exn) :
  NewsBot.init w config st = (Exc e, st1) -> is_Exception e = true.
Proof.
  unfold NewsBot.init, bind.
  destruct (Database._init_schema w st) as [[[]|e0] st0] eqn:E0.
  - unfold GeminiSummarizer._configure, ret, raise.
    destruct (w_genai_ok w); [congruence|].
    intros H. injection H as <- _. reflexivity.
  - apply _init_schema_raises in E0. subst e0.
    intros H. injection H as <- _. reflexivity.
Qed.

End Exit.





(** * Further properties *)

(** ** The ledger: round trips and invariants *)

Lemma no_faults_not_failed (w : World) (st st' : St) :
  no_faults w -> ~ storage_failed w st st'.
Proof. intros Hn [k [_ Hk]]. rewrite Hn in Hk. discriminate. Qed.

Lemma has_link_new_row (l ti so : str) (at_ : time) (t : Table) :
  Database.has_link l (t ++ [new_row l ti so at_]) = true.
Proof.
  rewrite has_link_app. apply orb_true_iff. right.
  unfold Database.has_link. cbn. apply orb_true_iff. left.
  apply str_eqb_eq. reflexivity.
Qed.

(** X1: once [mark_processed] has returned true for a link, the link is
    in the table; [is_processed] then answers true unless its own storage
    steps fail, and a second [mark_processed] of the link, with whatever
    title and source, returns false and leaves the table as it is. *)
Theorem recorded_link_is_known
  (w : World) (l ti so ti' so' : str) (st st1 : St) :
  Database.mark_processed w l ti so st = (Val true, st1) ->
  Database.has_link l (table st1) = true /\
  (exists known st2,
     Database.is_processed w l st1 = (Val known, st2) /\
     table st2 = table st1 /\
     (~ storage_failed w st1 st2 -> known = true)) /\
  (exists st2,
     Database.mark_processed w l ti' so' st1 = (Val false, st2) /\
     table st2 = table st1).
Proof.
  intros E.
  destruct (mark_processed_run w l ti so st)
    as [b [st' [E' [Ht _]]]].
  rewrite E in E'. injection E' as <- <-.
  assert (Hin : Database.has_link l (table st1) = true).
  { rewrite Ht. apply has_link_new_row. }
  split; [exact Hin|]. split.
  - destruct (is_processed_run w l st1)
      as [k [st2 [E2 [Ht2 [_ [Hk _]]]]]].
    exists k, st2. split; [exact E2|]. split; [exact Ht2|].
    intros Hok. rewrite (Hk Hok). exact Hin.
  - destruct (mark_processed_run w l ti' so' st1)
      as [b [st2 [E2 [Ht2 [_ [_ [Hdup _]]]]]]].
    rewrite (Hdup Hin) in E2, Ht2. exists st2. split; assumption.
Qed.

Lemma recorded_link_is_known_witness :
  exists st1 st2,
    Database.mark_processed calm (lit "https://a.example/9") (lit "Nine")
                            (lit "Feed") (start one_row) = (Val true, st1) /\
    Database.has_link (lit "https://a.example/9") (table st1) = true /\
    Database.mark_processed calm (lit "https://a.example/9") (lit "Again")
                            (lit "Other") st1 = (Val false, st2) /\
    table st2 = table st1.
Proof.
  let r := eval vm_compute in
      (Database.mark_processed calm (lit "https://a.example/9") (lit "Nine")
                               (lit "Feed") (start one_row)) in
  lazymatch r with
  | (Val true, ?s1) =>
      assert (E : Database.mark_processed calm (lit "https://a.example/9")
                    (lit "Nine") (lit "Feed") (start one_row) =
                  (Val true, s1)) by (vm_compute; reflexivity);
      destruct (recorded_link_is_known calm (lit "https://a.example/9")
                  (lit "Nine") (lit "Feed") (lit "Again") (lit "Other")
                  (start one_row) s1 E) as [Hin [_ [st2 [E2 Ht2]]]];
      exists s1, st2
  end.
  repeat split; assumption.
Defined.

Lemma filter_length_le_rows (p : Row -> bool) (t : Table) :
  List.length (filter p t) <= List.length t.
Proof.
  induction t as [|r t IH]; cbn; [lia|]. destruct (p r); cbn; lia.
Qed.





Lemma _init_schema_table (w : World) (st : St) :
  table (snd (Database._init_schema w st)) = table st.
Proof.
  unfold Database._init_schema. db_steps.
  db_cases ltac:(reflexivity).
Qed.

(** ** The statistics of the ledger *)

Lemma count_of_count_up (s s' : str) (g : list (str * nat)) :
  count_of s (Database.count_up s' g) =
  if str_eqb s' s then S (count_of s g) else count_of s g.
Proof.
  unfold count_of. induction g as [|[k n] g IH]; cbn.
  - destruct (str_eqb s' s); reflexivity.
  - destruct (str_eqb k s') eqn:Ek; cbn.
    + apply str_eqb_eq in Ek. subst k.
      destruct (str_eqb s' s); reflexivity.
    + destruct (str_eqb k s) eqn:Eks; cbn; [|exact IH].
      apply str_eqb_eq in Eks. subst k.
      destruct (str_eqb s' s) eqn:E; [|reflexivity].
      apply str_eqb_eq in E. subst s'.
      assert (str_eqb s s = true) by (apply str_eqb_eq; reflexivity).
      congruence.
Qed.

Lemma keys_count_up (s : str) (g : list (str * nat)) (k : str) :
  In k (List.map fst (Database.count_up s g)) <->
  k = s \/ In k (List.map fst g).
Proof.
  induction g as [|[k' n] g IH]; cbn.
  - split; [intros [<-|[]]; auto | intros [->|[]]; auto].
  - destruct (str_eqb k' s) eqn:E; cbn.
    + apply str_eqb_eq in E. subst k'. intuition.
    + rewrite IH. intuition.
Qed.

Lemma NoDup_keys_count_up (s : str) (g : list (str * nat)) :
  NoDup (List.map fst g) -> NoDup (List.map fst (Database.count_up s g)).
Proof.
  induction g as [|[k n] g IH]; cbn; intros H.
  - constructor; [intros []|constructor].
  - inversion H as [|? ? Hnotin Hrest]; subst.
    destruct (str_eqb k s) eqn:E; cbn; [constructor; assumption|].
    constructor; [|auto]. rewrite keys_count_up. intros [->|Hin]; [|auto].
    assert (str_eqb s s = true) by (apply str_eqb_eq; reflexivity).
    congruence.
Qed.

Lemma sum_count_up (s : str) (g : list (str * nat)) :
  list_sum (List.map snd (Database.count_up s g)) =
  S (list_sum (List.map snd g)).
Proof.
  unfold list_sum. induction g as [|[k n] g IH]; [reflexivity|].
  cbn [Database.count_up]. destruct (str_eqb k s);
    cbn [List.map snd fold_right]; [reflexivity|].
  rewrite IH. lia.
Qed.

Lemma positive_count_up (s : str) (g : list (str * nat)) :
  Forall (fun p => 0 < snd p) g ->
  Forall (fun p => 0 < snd p) (Database.count_up s g).
Proof.
  induction g as [|[k n] g IH]; cbn; intros H.
  - constructor; [cbn; lia|constructor].
  - inversion H; subst. destruct (str_eqb k s); constructor; cbn in *;
      auto; lia.
Qed.

(** The grouping, from any starting list. *)
Lemma group_fold (t : Table) (g : list (str * nat)) :
  let g' := fold_left (fun g r => Database.count_up (row_source r) g) t g in
  (forall s, count_of s g' = count_of s g + occurrences s t) /\
  (NoDup (List.map fst g) -> NoDup (List.map fst g')) /\
  list_sum (List.map snd g') = list_sum (List.map snd g) + List.length t /\
  (Forall (fun p => 0 < snd p) g -> Forall (fun p => 0 < snd p) g').
Proof.
  revert g. induction t as [|r t IH]; intros g; cbn [fold_left].
  - unfold occurrences. cbn. repeat split; auto.
  - destruct (IH (Database.count_up (row_source r) g))
      as [Hc [Hn [Hs Hp]]].
    cbv zeta in *. split; [|split; [|split]].
    + intros s. rewrite Hc, count_of_count_up. unfold occurrences.
      cbn [filter]. destruct (str_eqb (row_source r) s); cbn; lia.
    + intros H. apply Hn, NoDup_keys_count_up, H.
    + rewrite Hs, sum_count_up. cbn. lia.
    + intros H. apply Hp, positive_count_up, H.
Qed.

Lemma count_of_In (g : list (str * nat)) (s : str) (n : nat) :
  NoDup (List.map fst g) -> In (s, n) g -> count_of s g = n.
Proof.
  unfold count_of. induction g as [|[k m] g IH]; cbn; [intros _ []|].
  intros Hn Hin. inversion Hn as [|? ? Hnotin Hrest]; subst.
  destruct (str_eqb k s) eqn:E; cbn.
  - apply str_eqb_eq in E. subst k. destruct Hin as [Hin|Hin].
    + congruence.
    + exfalso. apply Hnotin. apply in_map_iff. exists (s, n). auto.
  - destruct Hin as [Hin|Hin]; [|auto].
    injection Hin as -> ->.
    assert (str_eqb s s = true) by (apply str_eqb_eq; reflexivity).
    congruence.
Qed.

Lemma max_processed_at_max (t : Table) :
  match Database.max_processed_at t with
  | None => t = []
  | Some m =>
      (exists r, In r t /\ row_processed_at r = m) /\
      Forall (fun r => (row_processed_at r <= m)%Z) t
  end.
Proof.
  induction t as [|r t IH]; [reflexivity|].
  assert (Hstep : Database.max_processed_at (r :: t) =
                  match Database.max_processed_at t with
                  | None => Some (row_processed_at r)
                  | Some m => Some (Z.max (row_processed_at r) m)
                  end) by reflexivity.
  rewrite Hstep. clear Hstep.
  destruct (Database.max_processed_at t) as [m|].
  - destruct IH as [[r' [Hin Hr']] Hall]. split.
    + destruct (Z.max_spec (row_processed_at r) m) as [[_ ->]|[_ ->]].
      * exists r'. split; [right; exact Hin | exact Hr'].
      * exists r. split; [left; reflexivity | reflexivity].
    + constructor; [lia|].
      eapply Forall_impl; [|exact Hall]. cbn. intros; lia.
  - subst t. split.
    + exists r. split; [left; reflexivity | reflexivity].
    + constructor; [lia|constructor].
Qed.

(** What [get_stats] returns when no storage step fails. *)
Lemma get_stats_ok (w : World) (st : St) :
  exists r st',
    Database.get_stats w st = (Val r, st') /\
    (~ storage_failed w st st' ->
     total r = List.length (table st) /\
     last_processed r = Database.max_processed_at (table st) /\
     by_source r = Database.group_by_source (table st) /\
     last_24h r =
       List.length
         (filter (fun x => (w_now w (S (S (S (S (tick st))))) -
                            Database.seconds_per_day <? row_processed_at x)%Z)
                 (table st))).
Proof.
  unfold Database.get_stats. db_steps.
  db_cases ltac:(idtac).
  all: try rewrite map_m_source_count; cbn.
  all: destruct (Database.max_processed_at (table st)); cbn.
  all: db_cases ltac:(idtac).
  all: try rewrite map_m_source_count; cbn.
  all: db_cases ltac:(idtac).
  all: eexists _, _; (split; [reflexivity|]).
  all: try (intros H; exfalso; apply H; storage_fault).
  all: intros _; cbn; rewrite !Nat2Z.id; repeat split; reflexivity.
Qed.

(** X3: when no storage step fails, [get_stats] reports the number of
    rows as the total; the per-source counts list every source of the
    table once, each with the number of its rows, and add up to the total;
    the 24-hour count is at most the total; and the last processing time
    is absent exactly for an empty table and otherwise the greatest time
    in it. *)
Theorem get_stats_counts (w : World) (st : St) :
  exists r st',
    Database.get_stats w st = (Val r, st') /\
    (~ storage_failed w st st' ->
     total r = List.length (table st) /\
     NoDup (List.map fst (by_source r)) /\
     (forall s n, In (s, n) (by_source r) ->
                  n = occurrences s (table st) /\ 0 < n) /\
     (forall row, In row (table st) ->
                  In (row_source row, occurrences (row_source row) (table st))
                     (by_source r)) /\
     list_sum (List.map snd (by_source r)) = total r /\
     last_24h r <= total r /\
     match last_processed r with
     | None => table st = []
     | Some m =>
         (exists row, In row (table st) /\ row_processed_at row = m) /\
         Forall (fun row => (row_processed_at row <= m)%Z) (table st)
     end).
Proof.
  destruct (get_stats_ok w st) as [r [st' [E H]]].
  exists r, st'. split; [exact E|]. intros Hok.
  destruct (H Hok) as [Ht [Hl [Hb H24]]].
  destruct (group_fold (table st) []) as [Hc [Hn [Hs Hp]]]. cbv zeta in *.
  fold (Database.group_by_source (table st)) in Hc, Hn, Hs, Hp.
  rewrite <- Hb in Hc, Hn, Hs, Hp.
  assert (Hnodup : NoDup (List.map fst (by_source r)))
    by (apply Hn; constructor).
  assert (Hpos : Forall (fun p => 0 < snd p) (by_source r))
    by (apply Hp; constructor).
  split; [exact Ht|]. split; [exact Hnodup|]. split; [|split; [|split; [|split]]].
  - intros s n Hin. split.
    + rewrite <- (count_of_In _ _ _ Hnodup Hin), Hc. reflexivity.
    + rewrite Forall_forall in Hpos. apply (Hpos (s, n) Hin).
  - intros row Hrow.
    assert (Hocc : 0 < occurrences (row_source row) (table st)).
    { unfold occurrences.
      assert (Hgen : forall l : list Row, In row l -> 0 < List.length l)
        by (intros [|x l] Hi; [destruct Hi | cbn; lia]).
      apply Hgen. apply filter_In. split; [exact Hrow|].
      apply str_eqb_eq. reflexivity. }
    specialize (Hc (row_source row)). cbn in Hc. rewrite <- Hc in *.
    unfold count_of in *.
    destruct (find (fun p => str_eqb (fst p) (row_source row)) (by_source r))
      as [[k n]|] eqn:Ef; [|cbn in Hocc; lia].
    apply find_some in Ef. destruct Ef as [Hin Hk]. cbn in Hk.
    apply str_eqb_eq in Hk. subst k. exact Hin.
  - rewrite Hs, Ht. reflexivity.
  - rewrite H24, Ht. apply filter_length_le_rows.
  - rewrite Hl. apply max_processed_at_max.
Qed.

Lemma get_stats_counts_witness :
  exists r st',
    Database.get_stats calm (start one_row) = (Val r, st') /\
    total r = 1 /\ list_sum (List.map snd (by_source r)) = 1 /\
    last_24h r <= 1.
Proof.
  destruct (get_stats_counts calm (start one_row)) as [r [st' [E H]]].
  exists r, st'. split; [exact E|].
  destruct H as [Ht [_ [_ [_ [Hs [H24 _]]]]]].
  - apply no_faults_not_failed. intros k. reflexivity.
  - rewrite Hs, Ht in *. cbn in *. repeat split; auto.
Defined.

(** ** The aggregator: bounds and provenance *)

Lemma len_clean_html (raw : str) : len (RSSParser._clean_html raw) <= 2000.
Proof.
  destruct raw; [cbn; lia|]. unfold RSSParser._clean_html, slice_to, len.
  rewrite length_firstn. apply Nat.le_min_l.
Qed.

Section AggregatorDetail.
Variable w : World.

Lemma build_article_built (name icon : str) (e : Entry) (st : St) :
  exists a st',
    RSSParser.build_article w name icon e st = (Val a, st') /\
    quiet st st' /\ built_from name icon e a.
Proof.
  unfold RSSParser.build_article, bind.
  destruct (_parse_date_run w (e_published e) st) as [t [st' [E [Q _]]]].
  rewrite E. eexists _, _. split; [reflexivity|]. split; [exact Q|].
  unfold built_from. cbn.
  repeat split; try discriminate; try apply len_clean_html.
  destruct (e_content e); apply len_clean_html.
Qed.

Lemma build_articles_built (name icon : str) (es : list Entry) (st : St) :
  exists l st',
    map_m (RSSParser.build_article w name icon) es st = (Val l, st') /\
    quiet st st' /\ Forall2 (built_from name icon) es l.
Proof.
  revert st. induction es as [|e es IH]; intros st.
  - exists [], st. repeat split; auto using quiet_refl.
  - cbn [map_m]. unfold bind.
    destruct (build_article_built name icon e st) as [a [st1 [E1 [Q1 B1]]]].
    rewrite E1.
    destruct (IH st1) as [l [st2 [E2 [Q2 B2]]]]. rewrite E2.
    eexists _, _. split; [reflexivity|].
    split; [eapply quiet_trans; eassumption|].
    constructor; assumption.
Qed.

(** What [fetch_feed] returns, entry by entry. *)
Lemma fetch_feed_built (f : FeedInfo) (st : St) :
  exists l st',
    RSSParser.fetch_feed w f st = (Val l, st') /\ quiet st st' /\
    Forall2 (built_from (feed_name f)
                        (RSSParser.get_or (feed_icon f)
                                          RSSParser.default_icon))
            (firstn 10 (entries_of (w_feed w (tick st)))) l.
Proof.
  unfold RSSParser.fetch_feed, try_except, bind, RSSParser.feedparser_parse.
  destruct (w_feed w (tick st)) as [|entries]; cbn.
  - eexists _, _. split; [reflexivity|]. split; [|constructor].
    unfold quiet; cbn. repeat split; lia.
  - match goal with
    | |- context [map_m _ ?es ?s] =>
        destruct (build_articles_built (feed_name f)
                    (RSSParser.get_or (feed_icon f) RSSParser.default_icon)
                    es s) as [l [st' [E [Q B]]]]
    end.
    rewrite E. eexists _, _. split; [reflexivity|]. split; [|exact B].
    eapply quiet_trans; [|exact Q]. unfold quiet; cbn. repeat split; lia.
Qed.

End AggregatorDetail.

(** X4: [fetch_feed] returns in every world and never raises.  It
    builds one article from each of the first ten entries of the feed, in
    their order, and none when the feed request raised: each article
    carries the entry's link as it is (the empty string when the entry has
    none), the cleaned title, the feed's name and icon, a published time,
    and a summary and content of at most 2000 characters.  Nothing is
    written to the ledger. *)
Theorem fetch_feed_first_ten (w : World) (f : FeedInfo) (st : St) :
  exists l st',
    RSSParser.fetch_feed w f st = (Val l, st') /\
    Forall2 (built_from (feed_name f)
                        (RSSParser.get_or (feed_icon f)
                                          RSSParser.default_icon))
            (firstn 10 (entries_of (w_feed w (tick st)))) l /\
    List.length l =
      Nat.min 10 (List.length (entries_of (w_feed w (tick st)))) /\
    table st' = table st.
Proof.
  destruct (fetch_feed_built w f st) as [l [st' [E [Q B]]]].
  exists l, st'. split; [exact E|]. split; [exact B|]. split; [|apply Q].
  apply Forall2_length in B. rewrite <- B. apply length_firstn.
Qed.

Lemma gather_results (w : World) (feeds : list FeedInfo) (st : St) :
  exists rs st',
    RSSParser.gather (List.map (RSSParser.fetch_feed w) feeds) st =
      (Val rs, st') /\
    quiet st st' /\ Forall2 (result_of w) feeds rs.
Proof.
  revert st. induction feeds as [|f feeds IH]; intros st.
  - exists [], st. repeat split; auto using quiet_refl.
  - cbn [List.map RSSParser.gather].
    destruct (fetch_feed_built w f st) as [l [st1 [E1 [Q1 B1]]]]. rewrite E1.
    destruct (IH st1) as [rs [st2 [E2 [Q2 B2]]]]. rewrite E2.
    eexists _, _. split; [reflexivity|].
    split; [eapply quiet_trans; eassumption|].
    constructor; [|exact B2].
    exists l. split; [reflexivity|]. split.
    + exists (tick st). apply Forall2_length in B1. rewrite <- B1.
      apply length_firstn.
    + clear E1. induction B1 as [|e a es l' Hb _ IHb]; constructor; [|exact IHb].
      unfold built_from in Hb. tauto.
Qed.

Lemma concatenation_bound (w : World) (feeds : list FeedInfo)
  (rs : list (res (list Article))) :
  Forall2 (result_of w) feeds rs ->
  List.length (concatenation rs) <= 10 * List.length feeds /\
  Forall (fun a => In (source a) (List.map feed_name feeds) /\
                   published a <> None) (concatenation rs) /\
  ((forall k, entries_of (w_feed w k) = []) -> concatenation rs = []).
Proof.
  induction 1 as [|f r feeds rs [l [-> [[k Hk] Hl]]] _ IH].
  - cbn. repeat split; auto.
  - destruct IH as [Hlen [Hall Hnone]].
    unfold concatenation in *. cbn [flat_map List.length List.map].
    rewrite length_app. split; [|split].
    + pose proof (Nat.le_min_l 10 (List.length (entries_of (w_feed w k)))).
      lia.
    + apply Forall_app. split.
      * eapply Forall_impl; [|exact Hl]. cbn. intros a [Hs Hp].
        split; [left; symmetry; exact Hs | exact Hp].
      * eapply Forall_impl; [|exact Hall]. cbn. intros a [Hs Hp].
        split; [right; exact Hs | exact Hp].
    + intros Hempty. rewrite (Hnone Hempty), app_nil_r.
      rewrite Hempty in Hk. cbn in Hk.
      destruct l; [reflexivity | discriminate].
Qed.

(** X5: [fetch_all] returns in every world and never raises, whatever
    the feeds do.  It returns at most ten articles per configured feed,
    each named after one of the feeds and each with a published time, and
    nothing at all when no feed yields an entry (every request raised or
    came back empty).  Nothing is written to the ledger. *)
Theorem fetch_all_bounded (w : World) (feeds : list FeedInfo) (st : St) :
  exists l st',
    RSSParser.fetch_all w feeds st = (Val l, st') /\
    List.length l <= 10 * List.length feeds /\
    Forall (fun a => In (source a) (List.map feed_name feeds) /\
                     published a <> None) l /\
    ((forall k, entries_of (w_feed w k) = []) -> l = []) /\
    table st' = table st.
Proof.
  destruct (gather_results w feeds st) as [rs [st' [E [Q B]]]].
  destruct (concatenation_bound w feeds rs B) as [Hlen [Hall Hnone]].
  pose proof (list_sort_reverse_perm Article RSSParser.sort_key
                (concatenation rs)) as Hperm.
  change (Permutation (RSSParser.merge_results rs) (concatenation rs))
    in Hperm.
  exists (RSSParser.merge_results rs), st'.
  split; [unfold RSSParser.fetch_all, bind; rewrite E; reflexivity|].
  split; [rewrite (Permutation_length Hperm); exact Hlen|].
  split; [|split; [|apply Q]].
  - apply Forall_forall. intros a Ha. rewrite Forall_forall in Hall.
    apply Hall. apply (Permutation_in _ Hperm). exact Ha.
  - intros Hempty. specialize (Hnone Hempty).
    rewrite Hnone in Hperm. apply Permutation_nil. symmetry. exact Hperm.
Qed.

Lemma fetch_all_bounded_witness :
  exists st',
    RSSParser.fetch_all calm [sample_feed; sample_feed] (start []) =
      (Val [], st').
Proof.
  destruct (fetch_all_bounded calm [sample_feed; sample_feed] (start []))
    as [l [st' [E [_ [_ [Hnone _]]]]]].
  rewrite (Hnone (fun k => eq_refl)) in E. exists st'. exact E.
Defined.

(** ** Titles *)

Lemma collapse_fixed (s : str) :
  single_spaces false s = true -> collapse s = s.
Proof.
  induction s as [|c s IH]; [reflexivity|].
  rewrite collapse_cons. cbn [single_spaces].
  destruct (is_space c) eqn:Ec.
  - cbn [negb andb]. intros H. apply andb_prop in H. destruct H as [H32 Hs].
    apply N.eqb_eq in H32. subst c.
    assert (Hl : lstrip s = s).
    { destruct s as [|d t]; [reflexivity|]. cbn in Hs |- *.
      destruct (is_space d); [discriminate | reflexivity]. }
    rewrite Hl, IH; [reflexivity | apply single_spaces_weaken; exact Hs].
  - intros H. rewrite IH; [reflexivity | exact H].
Qed.

Lemma lstrip_fixed (s : str) : starts_with_space s = false -> lstrip s = s.
Proof. destruct s as [|c s]; [auto|]. cbn. intros ->. reflexivity. Qed.

Lemma rstrip_fixed (s : str) : ends_with_space s = false -> rstrip s = s.
Proof.
  induction s as [|c s IH]; [auto|]. cbn [rstrip ends_with_space].
  destruct s as [|d t].
  - cbn. intros ->. reflexivity.
  - intros H. rewrite (IH H). reflexivity.
Qed.

Lemma ws_normal_fixed (s : str) :
  ws_normal s = true -> strip (collapse s) = s.
Proof.
  unfold ws_normal. intros H.
  apply andb_prop in H. destruct H as [H Hs].
  apply andb_prop in H. destruct H as [Hstart Hend].
  apply negb_true_iff in Hstart, Hend.
  rewrite (collapse_fixed s Hs). unfold strip.
  rewrite (lstrip_fixed s Hstart). apply rstrip_fixed. exact Hend.
Qed.

(** X6: the title cleaning [_clean_text] always gives a text without
    white space at its ends in which every white space is one plain space
    (so no tabs or line breaks are left), and cleaning a cleaned title
    changes nothing. *)
Theorem clean_text_normal_and_idempotent (text : str) :
  ws_normal (RSSParser._clean_text text) = true /\
  RSSParser._clean_text (RSSParser._clean_text text) =
    RSSParser._clean_text text.
Proof.
  assert (Hn : ws_normal (RSSParser._clean_text text) = true).
  { destruct text as [|c s]; [reflexivity|].
    unfold RSSParser._clean_text. fold (collapse (c :: s)).
    generalize (collapse_single_spaces (c :: s)).
    generalize (collapse (c :: s)). intros x Hx.
    unfold strip, ws_normal.
    rewrite rstrip_starts by apply lstrip_starts.
    rewrite rstrip_ends. cbn [negb andb].
    apply rstrip_single_spaces, lstrip_single_spaces. exact Hx. }
  split; [exact Hn|].
  destruct (RSSParser._clean_text text) as [|c s] eqn:E; [reflexivity|].
  unfold RSSParser._clean_text at 1. fold (collapse (c :: s)).
  apply ws_normal_fixed. exact Hn.
Qed.

(** ** Deliveries *)

Lemma post_delivered (w : World) (text : str) (image : option str)
  (dp : bool) (st : St) :
  exists b st' trace,
    TelegramPoster.post w text image dp st = (Val b, st') /\
    wire st' = wire st ++ trace /\
    delivery text image dp trace b /\
    tick st' = tick st + List.length trace /\
    table st' = table st /\ calls st' = calls st /\ stats st' = stats st.
Proof.
  unfold TelegramPoster.post, try_except, bind.
  destruct (truthy image) eqn:Ei.
  - destruct image as [[|c u]|]; try discriminate.
    rewrite _send_with_image_run.
    destruct (accepted (w_send w (tick st))) eqn:Ea.
    + eexists _, _, _. split; [reflexivity|]. cbn.
      split; [reflexivity|]. split; [|repeat split; cbn; try reflexivity; lia].
      right. left. exists (c :: u), (w_send w (tick st)).
      repeat split; auto. discriminate.
    + rewrite _send_text_run. eexists _, _, _. split; [reflexivity|]. cbn.
      rewrite <- app_assoc. split; [reflexivity|].
      split; [|repeat split; cbn; try reflexivity; lia].
      right. right.
      exists (c :: u), (w_send w (tick st)), (w_send w (S (tick st))).
      repeat split; auto. discriminate.
  - rewrite _send_text_run. eexists _, _, _. split; [reflexivity|]. cbn.
    split; [reflexivity|]. split; [|repeat split; cbn; try reflexivity; lia].
    left. split; [exact Ei|]. exists (w_send w (tick st)).
    split; reflexivity.
Qed.

(** X7: [post] returns a boolean in every world and makes one or two
    requests, nothing else.  Without an image (none, or the empty string)
    it sends the text alone and returns whether that was accepted; with an
    image it sends the photo first and stops there with true when the
    photo is accepted; only a photo that was not accepted is followed by
    the text, whose acceptance is then the result.  So the result is
    always the acceptance of the last request made, and no text follows an
    accepted photo.  The ledger is not touched. *)
Theorem post_one_or_two_requests (w : World) (text : str)
  (image : option str) (dp : bool) (st : St) :
  exists b st' trace,
    TelegramPoster.post w text image dp st = (Val b, st') /\
    wire st' = wire st ++ trace /\
    delivery text image dp trace b /\
    tick st' = tick st + List.length trace /\
    table st' = table st.
Proof.
  destruct (post_delivered w text image dp st)
    as [b [st' [trace [E [Hw [Hd [Hk [Ht _]]]]]]]].
  exists b, st', trace. auto.
Qed.

Lemma valid_image_url_length (u : str) :
  ImageExtractor._is_valid_image_url u = true -> 10 <= len u.
Proof.
  unfold ImageExtractor._is_valid_image_url.
  destruct u as [|c u]; [discriminate|].
  destruct (len (c :: u) <? 10) eqn:E; [discriminate|].
  intros _. apply Nat.ltb_ge. exact E.
Qed.

Lemma extract_requests (w : World) (url : str) (st : St) :
  exists r st',
    ImageExtractor.extract w url st = (Val r, st') /\
    wire st' = wire st ++ [WGetPage url] /\ tick st' = S (tick st) /\
    table st' = table st /\ calls st' = calls st /\ stats st' = stats st /\
    (forall u, r = Some u -> 10 <= len u).
Proof.
  assert (Hlen : forall html u,
            ImageExtractor.scan w url html ImageExtractor.OG_IMAGE_PATTERNS =
              Some u -> 10 <= len u).
  { intros html u H. apply scan_valid in H.
    apply valid_image_url_length. tauto. }
  unfold ImageExtractor.extract, try_except, bind, ImageExtractor.get_page.
  destruct (w_page w (tick st)) as [[|]|[|] html]; cbn;
    eexists _, _; (split; [reflexivity|]); cbn;
    repeat split; try discriminate.
  intros u. apply Hlen.
Qed.

(** X8: [process_article] returns a boolean in every world.  It first
    requests the page of the article and then a summary, in this order and
    once each; what [extract] returned is the image, and an image is never
    shorter than ten characters.  Without a summary (none, or an empty
    one) nothing is sent and the result is false; with one, the summary is
    delivered as [post] does with the image found, and the result is what
    the delivery gave.  The ledger is not touched. *)
Theorem process_article_requests (w : World) (a : Article) (st : St) :
  exists b st' image trace,
    NewsBot.process_article w a st = (Val b, st') /\
    fst (ImageExtractor.extract w (link a) st) = Val image /\
    (forall u, image = Some u -> 10 <= len u) /\
    wire st' = wire st ++ WGetPage (link a) :: WGenerate a :: trace /\
    match w_summarize w (S (tick st)) with
    | Some (c :: s) => delivery (c :: s) image false trace b
    | _ => trace = [] /\ b = false
    end /\
    table st' = table st.
Proof.
  unfold NewsBot.process_article, try_except. unfold bind at 1.
  destruct (extract_requests w (link a) st)
    as [image [st1 [E1 [Hw1 [Hk1 [Ht1 [Hc1 [Hs1 Hlen]]]]]]]].
  rewrite (call_run _ _ _ _ _ E1). rewrite E1. cbn [fst].
  unfold bind at 1.
  unfold call at 1, bind at 1, GeminiSummarizer.summarize at 1.
  cbn [modify ret bind]. cbn [log_call tick]. rewrite Hk1.
  destruct (w_summarize w (S (tick st))) as [[|c s]|] eqn:Es;
    cbn [truthy negb].
  - eexists false, _, image, []. split; [reflexivity|].
    split; [reflexivity|]. split; [exact Hlen|]. cbn. rewrite Hw1, Ht1.
    rewrite <- !app_assoc. auto.
  - unfold bind at 1.
    match goal with
    | |- context [call (TelegramPoster.post w ?t ?i ?d) _ ?s0] =>
        destruct (post_delivered w t i d s0)
          as [sent [st2 [trace [E2 [Hw2 [Hd [Hk2 [Ht2 _]]]]]]]];
        rewrite (call_run _ _ _ _ _ E2)
    end.
    exists sent, (log_call (CPost (c :: s) image sent) st2), image, trace.
    split; [destruct sent; reflexivity|].
    split; [reflexivity|]. split; [exact Hlen|].
    cbn in *. rewrite Hw2, Ht2, Hw1, Ht1. rewrite <- !app_assoc.
    auto.
  - eexists false, _, image, []. split; [reflexivity|].
    split; [reflexivity|]. split; [exact Hlen|]. cbn. rewrite Hw1, Ht1.
    rewrite <- !app_assoc. auto.
Qed.

(** ** Configuration *)

Lemma truthy_get_or (o : option str) :
  truthy o = true -> o = Some (RSSParser.get_or o []) /\
                     RSSParser.get_or o [] <> [].
Proof.
  destruct o as [[|c s]|]; try discriminate. intros _. cbn.
  split; [reflexivity | discriminate].
Qed.

(** X9: [Config.from_env] reads the environment and changes nothing.  It
    returns a configuration exactly when a bot token (TG_TOKEN, or
    TELEGRAM_BOT_TOKEN when that is unset or empty), GEMINI_API_KEY and
    CHANNEL_ID are set to non-empty values and MAX_ARTICLES_PER_RUN, if
    set, reads as an integer; in every other case it raises ValueError.
    The configuration holds these values: TG_TOKEN wins over
    TELEGRAM_BOT_TOKEN, and the limit is 5 when the variable is unset. *)
Theorem from_env_complete_or_value_error (w : World) (st : St) :
  ((exists c, Main.from_env w st = (Val c, st)) <-> complete_env w) /\
  (~ complete_env w -> Main.from_env w st = (Exc ValueError, st)) /\
  (forall c st',
     Main.from_env w st = (Val c, st') ->
     w_getenv w "GEMINI_API_KEY" = Some (gemini_api_key c) /\
     w_getenv w "CHANNEL_ID" = Some (channel_id c) /\
     (if provided w "TG_TOKEN"
      then w_getenv w "TG_TOKEN" = Some (telegram_token c)
      else w_getenv w "TELEGRAM_BOT_TOKEN" = Some (telegram_token c)) /\
     telegram_token c <> [] /\ gemini_api_key c <> [] /\
     channel_id c <> [] /\
     match w_getenv w "MAX_ARTICLES_PER_RUN" with
     | None => max_articles_per_run c = 5%Z
     | Some s => w_int w s = Some (max_articles_per_run c)
     end).
Proof.
  unfold complete_env, provided, Main.from_env, Main.or_else, bind, raise, ret.
  destruct (truthy (w_getenv w "TG_TOKEN")) eqn:E1;
    destruct (truthy (w_getenv w "TELEGRAM_BOT_TOKEN")) eqn:E2;
    destruct (truthy (w_getenv w "GEMINI_API_KEY")) eqn:E3;
    destruct (truthy (w_getenv w "CHANNEL_ID")) eqn:E4;
    (destruct (w_getenv w "MAX_ARTICLES_PER_RUN") as [s|] eqn:E5;
     [destruct (w_int w s) as [n|] eqn:E6|]);
    cbv iota beta; rewrite ?E1, ?E2, ?E3, ?E4; cbn [negb orb];
    cbv iota beta.
  all: first
    [ (* the environment is refused *)
      split;
      [ split;
        [ intros [c H]; discriminate H
        | intros [H1 [H2 [H3 H4]]];
          first [ discriminate
                | destruct H1; discriminate
                | exfalso; apply (H4 s); auto ] ]
      | split;
        [ intros _; reflexivity
        | intros c st' H; discriminate H ] ]
    | (* the environment is accepted *)
      split;
      [ split;
        [ intros _; repeat split; auto; intros s' Hs'; congruence
        | intros _; eexists; reflexivity ]
      | split;
        [ intros H; exfalso; apply H; repeat split; auto;
          intros s' Hs'; congruence
        | intros c st' H; injection H as <- <-;
          cbn [telegram_token gemini_api_key channel_id
               max_articles_per_run];
          destruct (truthy_get_or _ E3) as [G1 G2];
          destruct (truthy_get_or _ E4) as [K1 K2];
          repeat split; auto; apply truthy_get_or; assumption ] ] ].
Qed.

Lemma from_env_complete_or_value_error_witness :
  Main.from_env (without_env calm) (start []) = (Exc ValueError, start []).
Proof.
  apply (from_env_complete_or_value_error (without_env calm) (start [])).
  intros [[H|H] _]; discriminate H.
Defined.

(** ** Summaries without entities *)

Lemma run_length_zero (s : str) :
  Re.run_length not_gt s = 0 ->
  match s with [] => True | d :: _ => d = gt end.
Proof.
  destruct s as [|d s]; [auto|]. cbn. unfold not_gt.
  destruct (N.eqb_spec d 62); [auto | discriminate].
Qed.

Lemma match_here_tag_none (c : char) (s : str) :
  Re.match_here RSSParser.tag_re (c :: s) None = None <->
  (c = 60%N -> unclosed s).
Proof.
  rewrite match_here_tag.
  destruct (N.eqb_spec c 60) as [->|Hc]; [|split; [contradiction | auto]].
  destruct (Re.run_length not_gt s) as [|n] eqn:En.
  - split; [intros _ _|auto]. apply run_length_zero in En.
    destruct s as [|d s]; [exact I | left; exact En].
  - pose proof (skipn_after_run not_gt s) as Hafter. rewrite En in Hafter.
    destruct (skipn (S n) s) as [|d rest] eqn:Es.
    + split; [intros _ _|auto].
      destruct s as [|x s]; [exact I|]. right. intros Hin.
      apply (run_length_all_inv not_gt (x :: s) gt) in Hin;
        [discriminate | congruence].
    + split; [discriminate|]. intros H. exfalso.
      specialize (H eq_refl).
      destruct s as [|x s]; [discriminate|]. cbn in H.
      assert (Hd : d = gt).
      { unfold not_gt in Hafter. destruct (N.eqb_spec d 62); [auto|].
        discriminate. }
      assert (Hin : In gt (x :: s)).
      { rewrite <- (firstn_skipn (S n) (x :: s)), Es, <- Hd.
        apply in_or_app. right. left. reflexivity. }
      destruct H as [Hx|Hn]; [|exact (Hn Hin)].
      subst x. cbn in En. discriminate.
Qed.

Lemma search_tag_free (s : str) :
  Re.search RSSParser.tag_re s = None <-> tag_free s.
Proof.
  induction s as [|c s IH]; [split; [intros _; exact I | reflexivity]|].
  cbn [Re.search tag_free]. rewrite <- IH, <- match_here_tag_none.
  destruct (Re.match_here RSSParser.tag_re (c :: s) None).
  - split; [discriminate | intros [H _]; discriminate].
  - tauto.
Qed.

Lemma tag_free_lstrip (s : str) : tag_free s -> tag_free (lstrip s).
Proof.
  induction s as [|c s IH]; [auto|]. cbn [lstrip].
  destruct (is_space c); [|auto]. intros [_ H]. auto.
Qed.

Lemma rstrip_head (d : char) (t : str) :
  rstrip (d :: t) = [] \/ exists t', rstrip (d :: t) = d :: t'.
Proof.
  cbn [rstrip]. destruct (rstrip t) as [|x t'].
  - destruct (is_space d); [left; reflexivity | right; eexists; reflexivity].
  - right. eexists. reflexivity.
Qed.

Lemma unclosed_rstrip (s : str) : unclosed s -> unclosed (rstrip s).
Proof.
  destruct s as [|d t]; [auto|]. intros [Hd|Hn].
  - destruct (rstrip_head d t) as [->|[t' ->]]; [exact I | left; exact Hd].
  - destruct (rstrip (d :: t)) as [|x t'] eqn:E; [exact I|].
    right. rewrite <- E. intros H. apply Hn. apply rstrip_In. exact H.
Qed.

Lemma tag_free_rstrip (s : str) : tag_free s -> tag_free (rstrip s).
Proof.
  induction s as [|c s IH]; [auto|]. intros [Hc Hs].
  specialize (IH Hs). pose proof (unclosed_rstrip s) as Hu.
  cbn [rstrip]. destruct (rstrip s) as [|x t].
  - destruct (is_space c); cbn; auto.
  - cbn [tag_free]. split; [intros E; apply Hu, Hc, E | exact IH].
Qed.

Lemma firstn_incl {A : Type} (n : nat) (l : list A) (x : A) :
  In x (firstn n l) -> In x l.
Proof.
  revert n. induction l as [|a l IH]; intros n.
  - rewrite firstn_nil. auto.
  - destruct n as [|n]; [intros []|]. cbn [firstn].
    intros [H|H]; [left; exact H | right; apply (IH n); exact H].
Qed.

Lemma unclosed_firstn (n : nat) (s : str) :
  unclosed s -> unclosed (firstn n s).
Proof.
  destruct s as [|d t]; [rewrite firstn_nil; auto|].
  destruct n as [|n]; [intros _; exact I|].
  intros [Hd|Hn]; [left; exact Hd|]. right.
  intros H. apply Hn. apply (firstn_incl (S n)). exact H.
Qed.

Lemma tag_free_firstn (n : nat) (s : str) :
  tag_free s -> tag_free (firstn n s).
Proof.
  revert n. induction s as [|c s IH]; intros n.
  - rewrite firstn_nil. auto.
  - destruct n as [|n]; [intros _; exact I|]. intros [Hc Hs].
    cbn [firstn tag_free]. split; [|apply IH; exact Hs].
    intros E. apply unclosed_firstn, Hc, E.
Qed.

Lemma collapse_In (s : str) (c : char) :
  In c (collapse s) -> In c s \/ c = 32%N.
Proof.
  unfold collapse, Re.sub. intros H. apply sub_from_In in H.
  destruct H as [H|[H|[]]]; [left; exact H | right; symmetry; exact H].
Qed.

Lemma unclosed_collapse (s : str) : unclosed s -> unclosed (collapse s).
Proof.
  destruct s as [|d t]; [auto|]. intros [Hd|Hn].
  - subst d. rewrite collapse_cons.
    replace (is_space gt) with false by reflexivity. left. reflexivity.
  - destruct (collapse (d :: t)) as [|x t'] eqn:E; [exact I|].
    right. rewrite <- E. intros H. apply collapse_In in H.
    destruct H as [H|H]; [exact (Hn H) | discriminate H].
Qed.

Lemma tag_free_collapse (s : str) : tag_free s -> tag_free (collapse s).
Proof.
  remember (List.length s) as n eqn:Hn.
  revert s Hn. induction n as [n IH] using lt_wf_ind. intros s Hn.
  destruct s as [|c s]; [auto|]. intros [Hc Hs].
  rewrite collapse_cons. destruct (is_space c) eqn:E.
  - cbn [tag_free]. split; [discriminate|].
    pose proof (lstrip_length s) as Hl.
    apply (IH (List.length (lstrip s)));
      [cbn in *; lia | reflexivity | apply tag_free_lstrip; exact Hs].
  - cbn [tag_free]. split.
    + intros E60. apply unclosed_collapse, Hc, E60.
    + apply (IH (List.length s)); [cbn in *; lia | reflexivity | exact Hs].
Qed.

(** X10: a text without an ampersand comes out of [_clean_html] without
    any tag: the tag pattern finds nothing in the result, also after the
    white space was collapsed and the text cut to 2000 characters.  (With
    entities this fails: a decoded "&lt;b&gt;" is a tag again.) *)
Theorem clean_html_without_entities_has_no_tag (text : str) :
  ~ In amp text ->
  Re.search RSSParser.tag_re (RSSParser._clean_html text) = None.
Proof.
  intros Hamp. destruct text as [|c s] eqn:Et; [reflexivity|].
  rewrite <- Et in *. clear Et.
  assert (E : RSSParser._clean_html text =
              slice_to 2000 (RSSParser.decode_entities
                               (RSSParser.normalize text))).
  { destruct text; reflexivity. }
  rewrite E, decode_entities_no_amp.
  - apply search_tag_free. unfold slice_to. apply tag_free_firstn.
    unfold RSSParser.normalize, strip.
    apply tag_free_rstrip, tag_free_lstrip.
    fold (strip_tags text). fold (collapse (strip_tags text)).
    apply tag_free_collapse. apply search_tag_free.
    apply strip_tags_tagless.
  - intros H. apply normalize_In in H.
    destruct H as [H|H]; [exact (Hamp H) | discriminate H].
Qed.

Lemma clean_html_without_entities_has_no_tag_witness :
  Re.search RSSParser.tag_re
            (RSSParser._clean_html (lit "<p>Tom <b>and</b> Ann</p>")) = None.
Proof.
  apply (clean_html_without_entities_has_no_tag
           (lit "<p>Tom <b>and</b> Ann</p>")).
  intros H. vm_compute in H.
  repeat (destruct H as [H|H]; [discriminate H|]). exact H.
Defined.

(** ** The run as a whole *)

Lemma slice_to_int_nil {A : Type} (n : Z) :
  NewsBot.slice_to_int n (@nil A) = [].
Proof. unfold NewsBot.slice_to_int. destruct (0 <=? n)%Z; apply firstn_nil. Qed.

Lemma slice_to_int_length {A : Type} (n : Z) (l : list A) :
  List.length (NewsBot.slice_to_int n l) = limit_of n (List.length l).
Proof.
  unfold NewsBot.slice_to_int, limit_of.
  destruct (0 <=? n)%Z; rewrite length_firstn; lia.
Qed.

Lemma slice_to_int_incl {A : Type} (n : Z) (l : list A) :
  incl (NewsBot.slice_to_int n l) l.
Proof.
  unfold NewsBot.slice_to_int. intros x.
  destruct (0 <=? n)%Z; apply firstn_incl.
Qed.

Lemma count_items_split (attempted : list (Article * Outcome)) :
  count_items published_ok attempted +
  count_items (fun o => negb (published_ok o)) attempted =
  List.length attempted.
Proof.
  unfold count_items. induction attempted as [|[a o] l IH]; [reflexivity|].
  cbn [filter snd]. destruct (published_ok o); cbn [negb List.length]; lia.
Qed.

Lemma item_rows_length (attempted : list (Article * Outcome)) :
  List.length (flat_map item_rows attempted) <=
  count_items published_ok attempted.
Proof.
  unfold count_items. induction attempted as [|[a o] l IH]; [cbn; lia|].
  cbn [flat_map filter snd]. rewrite length_app.
  unfold item_rows at 1, committed. cbn [fst snd].
  destruct (published_ok o); cbn [andb List.length]; [|lia].
  destruct (o_recorded o); cbn [List.length]; lia.
Qed.

Section RunDetail.
Variable w : World.

Lemma fetch_all_found (feeds : list FeedInfo) (st : St) :
  exists l st',
    RSSParser.fetch_all w feeds st = (Val l, st') /\ quiet st st' /\
    List.length l <= 10 * List.length feeds.
Proof.
  destruct (gather_results w feeds st) as [rs [st' [E [Q B]]]].
  destruct (concatenation_bound w feeds rs B) as [Hlen _].
  pose proof (list_sort_reverse_perm Article RSSParser.sort_key
                (concatenation rs)) as Hperm.
  change (Permutation (RSSParser.merge_results rs) (concatenation rs))
    in Hperm.
  exists (RSSParser.merge_results rs), st'.
  split; [unfold RSSParser.fetch_all, bind; rewrite E; reflexivity|].
  split; [exact Q|]. rewrite (Permutation_length Hperm). exact Hlen.
Qed.

(** The filter keeps every article the ledger does not know, and with
    working storage nothing else. *)
Lemma filter_new_detail (articles : list Article) (st : St) :
  exists news asked st',
    NewsBot.filter_new w articles st = (Val news, st') /\
    calls st' = calls st ++ asked /\ no_item_calls asked /\
    table st' = table st /\ stats st' = stats st /\ tick st <= tick st' /\
    incl news articles /\ List.length news <= List.length articles /\
    (forall a, In a articles -> unknown (table st) a = true -> In a news) /\
    (no_faults w -> news = filter (unknown (table st)) articles).
Proof.
  revert st. induction articles as [|a articles IH]; intros st.
  - exists [], [], st. cbn. rewrite app_nil_r.
    repeat split; auto. intros x [].
  - cbn [NewsBot.filter_new]. unfold bind at 1.
    destruct (is_processed_run w (link a) st)
      as [b [st1 [E1 [Ht1 [_ [Hok [Htrue [Hc1 [Hs1 Hk1]]]]]]]]].
    rewrite (call_run _ _ _ _ _ E1). unfold bind at 1.
    destruct (IH (log_call (CIsProcessed (link a) b) st1))
      as [news [asked [st2 [E2 [Hc2 [Hn2 [Ht2 [Hs2 [Hk2
           [Hi [Hl [Hkeep Hexact]]]]]]]]]]]].
    rewrite E2. cbn [ret].
    exists (if negb b then a :: news else news),
           (CIsProcessed (link a) b :: asked), st2.
    split; [reflexivity|]. cbn [log_call calls table stats tick] in *.
    rewrite Ht1 in *.
    rewrite Hc2, Ht2, Hs2, Hc1, Hs1, <- app_assoc.
    split; [reflexivity|]. split; [exact Hn2|].
    split; [reflexivity|]. split; [reflexivity|]. split; [lia|].
    split; [|split; [|split]].
    + destruct b; cbn; intros x Hx.
      * right. apply Hi. exact Hx.
      * destruct Hx as [->|Hx]; [left; reflexivity | right; apply Hi; exact Hx].
    + destruct b; cbn [negb List.length]; lia.
    + intros x [<-|Hx] Hu.
      * destruct b; [|left; reflexivity].
        unfold unknown in Hu. rewrite (Htrue eq_refl) in Hu. discriminate.
      * specialize (Hkeep x Hx Hu). destruct b; cbn; auto.
    + intros Hnf. rewrite (Hexact Hnf). cbn [filter].
      rewrite (Hok (no_faults_not_failed w st st1 Hnf)).
      reflexivity.
Qed.

(** The body of [run] in full: what was fetched, what the filter kept,
    what was attempted, and what became of the statistics. *)
Lemma run_body_detail (config : Config) (st : St) :
  exists returned st' fetched news outcomes attempted before after,
    NewsBot.run_body w config st = (Val returned, st') /\
    attempted =
      combine (NewsBot.slice_to_int (max_articles_per_run config) news)
              outcomes /\
    List.length outcomes =
      List.length (NewsBot.slice_to_int (max_articles_per_run config) news) /\
    calls st' = calls st ++ before ++ flat_map item_log attempted ++ after /\
    no_item_calls before /\ no_item_calls after /\
    table st' = table st ++ flat_map item_rows attempted /\
    List.length fetched <= 10 * List.length (rss_feeds config) /\
    incl news fetched /\ List.length news <= List.length fetched /\
    (forall a, In a fetched -> unknown (table st) a = true -> In a news) /\
    (no_faults w -> news = filter (unknown (table st)) fetched) /\
    ((returned = true /\ fetched = [] /\
      (stats st' =
         NewsBot.add_error TelegramConnectionFailed (stats st) \/
       stats st' = NewsBot.set_found 0 (stats st))) \/
     (returned = false /\ fetched <> [] /\
      counted attempted
        (NewsBot.set_new (List.length news)
           (NewsBot.set_found (List.length fetched) (stats st)))
        (stats st'))).
Proof.
  unfold NewsBot.run_body. unfold bind at 1.
  destruct (test_connection_run w st)
    as [c [st1 [E1 [[Ht1 [Hc1 [Hs1 Hk1]]] _]]]].
  rewrite (call_run _ _ _ _ _ E1).
  destruct c; cbn [negb].
  2:{ eexists true, _, [], [], [], [], [CTestConnection false], [].
      split; [reflexivity|]. rewrite slice_to_int_nil.
      cbn. rewrite Hc1, Ht1, Hs1, !app_nil_r.
      repeat split; auto; try lia; try (intros x []). }
  unfold bind at 1.
  destruct (fetch_all_found (rss_feeds config)
              (log_call (CTestConnection true) st1))
    as [fetched [st2 [E2 [[Ht2 [Hc2 [Hs2 Hk2]]] Hlen]]]].
  rewrite (call_run _ _ _ _ _ E2).
  unfold bind at 1. unfold NewsBot.update_stats at 1, modify at 1.
  destruct fetched as [|a0 articles] eqn:Ef.
  { eexists true, _, [], [], [], [],
      [CTestConnection true; CFetchAll 0], [].
    split; [reflexivity|]. rewrite slice_to_int_nil. cbn in *.
    rewrite Hc2, Ht2, Hs2, Hc1, Ht1, Hs1, !app_nil_r, <- !app_assoc.
    repeat split; auto; try lia; try (intros x []);
      try (left; repeat split; auto; fail). }
  rewrite <- Ef in *. unfold bind at 1.
  assert (Hne : fetched <> []) by (rewrite Ef; discriminate).
  match goal with
  | |- context [NewsBot.filter_new w ?l ?s] =>
      destruct (filter_new_detail l s)
        as [news [asked [st3 [E3 [Hc3 [Hn3 [Ht3 [Hs3 [Hk3
             [Hi [Hl [Hkeep Hexact]]]]]]]]]]]]
  end.
  rewrite E3. unfold bind at 1.
  unfold NewsBot.update_stats at 1, modify at 1. unfold bind at 1.
  match goal with
  | |- context [for_each (NewsBot.enumerate 1 ?items)
                         (NewsBot.process_one w ?n) ?s] =>
      destruct (process_loop_run w n 1 items s)
        as [os [st4 [E4 [Hlo [Hc4 [Ht4 [Hs4 [Hu4 Hk4]]]]]]]];
      rewrite E4
  end.
  unfold bind at 1.
  destruct (get_stats_run w st4)
    as [ds [st5 [E5 [Ht5 [_ [_ [Hc5 [Hs5 Hk5]]]]]]]].
  rewrite (call_run _ _ _ _ _ E5). cbn [ret].
  eexists false, _, fetched, news, os, _,
    (CTestConnection true :: CFetchAll (List.length fetched) :: asked),
    [CGetStats].
  split; [reflexivity|]. split; [reflexivity|].
  cbn [log_call set_stats calls table stats tick] in *.
  rewrite Ht2, Ht1 in Ht3. rewrite Ht3 in Ht4.
  rewrite Ht2, Ht1 in Hkeep, Hexact.
  split; [exact Hlo|].
  split; [rewrite Hc5, Hc4, Hc3, Hc2, Hc1, <- !app_assoc; reflexivity|].
  split; [exact Hn3|]. split; [reflexivity|].
  split; [rewrite Ht5; exact Ht4|].
  split; [exact Hlen|]. split; [exact Hi|]. split; [exact Hl|].
  split; [exact Hkeep|]. split; [exact Hexact|].
  right. split; [reflexivity|]. split; [exact Hne|].
  rewrite Hs5. rewrite Hs3, Hs2, Hs1 in Hs4. exact Hs4.
Qed.

Lemma run_detail (config : Config) (st : St) :
  exists rs st' fetched news outcomes attempted before after,
    NewsBot.run w config st = (Val rs, st') /\
    attempted =
      combine (NewsBot.slice_to_int (max_articles_per_run config) news)
              outcomes /\
    List.length outcomes =
      List.length (NewsBot.slice_to_int (max_articles_per_run config) news) /\
    calls st' =
      calls st ++ before ++ flat_map item_log attempted ++ after ++
      [CCleanup] /\
    no_item_calls before /\ no_item_calls after /\
    table st' = table st ++ flat_map item_rows attempted /\
    List.length fetched <= 10 * List.length (rss_feeds config) /\
    incl news fetched /\ List.length news <= List.length fetched /\
    (forall a, In a fetched -> unknown (table st) a = true -> In a news) /\
    (no_faults w -> news = filter (unknown (table st)) fetched) /\
    articles_found rs = List.length fetched /\
    articles_new rs = List.length news /\
    articles_processed rs = count_items published_ok attempted /\
    articles_failed rs =
      count_items (fun o => negb (published_ok o)) attempted /\
    started_at rs = w_now w (tick st) /\
    (errors rs = [] \/
     errors rs = [TelegramConnectionFailed] /\ fetched = []) /\
    (finished_at rs = None <-> fetched = []).
Proof.
  unfold NewsBot.run. unfold bind at 1. unfold RSSParser.now at 1.
  unfold bind at 1. unfold modify at 1. unfold bind at 1.
  unfold try_finally, try_except.
  match goal with
  | |- context [NewsBot.run_body w config ?s] =>
      destruct (run_body_detail config s)
        as [returned [st1 [fetched [news [os [attempted [before [after
             [E [Hat [Hlo [Hc [Hb [Ha [Ht [Hlen [Hi [Hl [Hkeep [Hexact
               Hcase]]]]]]]]]]]]]]]]]]]]
  end.
  rewrite E, cleanup_run.
  cbn [set_stats bump calls table stats tick] in Hc, Ht, Hkeep, Hexact, Hcase.
  destruct Hcase as [[-> [Hf Hst]] | [-> [Hf Hcnt]]].
  - exists (stats st1), (log_call CCleanup (log_wire WCloseClients st1)),
      fetched, news, os, attempted, before, after.
    split; [reflexivity|]. split; [exact Hat|]. split; [exact Hlo|].
    cbn [log_call log_wire calls table stats tick].
    split; [rewrite Hc, <- !app_assoc; reflexivity|].
    split; [exact Hb|]. split; [exact Ha|]. split; [exact Ht|].
    split; [exact Hlen|]. split; [exact Hi|]. split; [exact Hl|].
    split; [exact Hkeep|]. split; [exact Hexact|].
    assert (Hnews : news = []).
    { subst fetched. destruct news; [reflexivity | cbn in Hl; lia]. }
    assert (Hatt : attempted = []).
    { rewrite Hat, Hnews, slice_to_int_nil. reflexivity. }
    rewrite Hatt, Hnews, Hf. unfold count_items. cbn [filter List.length].
    destruct Hst as [-> | ->]; cbn;
      repeat split; auto; try discriminate.
  - eexists _, _, fetched, news, os, attempted, before, after.
    split; [reflexivity|]. split; [exact Hat|]. split; [exact Hlo|].
    cbn [log_call log_wire set_stats bump calls table stats tick].
    split; [rewrite Hc, <- !app_assoc; reflexivity|].
    split; [exact Hb|]. split; [exact Ha|]. split; [exact Ht|].
    split; [exact Hlen|]. split; [exact Hi|]. split; [exact Hl|].
    split; [exact Hkeep|]. split; [exact Hexact|].
    destruct Hcnt as [Hp [Hfl [Hfo [Hnw [He [Hsa Hfi]]]]]].
    cbn in Hp, Hfl, Hfo, Hnw, He, Hsa, Hfi.
    cbn [NewsBot.set_finished articles_found articles_new
         articles_processed articles_failed started_at errors finished_at].
    rewrite Hp, Hfl, Hfo, Hnw, He, Hsa.
    repeat split; auto; try discriminate.
    intros H; contradiction.
Qed.

End RunDetail.

Lemma limit_of_le (max : Z) (n : nat) : limit_of max n <= n.
Proof. unfold limit_of. destruct (0 <=? max)%Z; lia. Qed.

Lemma limit_of_within (max : Z) (n : nat) :
  (0 <= max)%Z -> (Z.of_nat (limit_of max n) <= max)%Z.
Proof.
  unfold limit_of. intros H. apply Z.leb_le in H. rewrite H. lia.
Qed.

Lemma combine_length_same {A B : Type} (l : list A) (l' : list B) :
  List.length l' = List.length l ->
  List.length (combine l l') = List.length l.
Proof. intros H. rewrite length_combine. lia. Qed.

(** X11: the statistics [run] returns are consistent in every world.
    The attempted items (processed plus failed) are as many as the limit
    lets through of the new ones: with a limit of zero or more the smaller
    of the limit and the number of new articles, with a negative limit all
    but the last so many (the slice [new_articles[:max]]).  So processed
    plus failed never exceeds the new articles, the new articles never
    exceed the found ones, and those are at most ten per configured feed.
    The ledger loses no row and gains at most one row per processed
    item. *)
Theorem run_statistics_consistent (w : World) (config : Config) (st : St) :
  exists rs st',
    NewsBot.run w config st = (Val rs, st') /\
    articles_processed rs + articles_failed rs =
      limit_of (max_articles_per_run config) (articles_new rs) /\
    articles_processed rs + articles_failed rs <= articles_new rs /\
    ((0 <= max_articles_per_run config)%Z ->
     (Z.of_nat (articles_processed rs + articles_failed rs) <=
      max_articles_per_run config)%Z) /\
    articles_new rs <= articles_found rs /\
    articles_found rs <= 10 * List.length (rss_feeds config) /\
    List.length (table st) <= List.length (table st') /\
    List.length (table st') <= List.length (table st) + articles_processed rs.
Proof.
  destruct (run_detail w config st)
    as [rs [st' [fetched [news [os [attempted [before [after [E [Hat [Hlo [Hc [Hb [Ha [Ht [Hlen [Hi [Hl [Hkeep [Hexact [Hfo [Hnw [Hp [Hf _]]]]]]]]]]]]]]]]]]]]]]]].
  exists rs, st'. split; [exact E|].
  assert (Hsum : articles_processed rs + articles_failed rs =
                 limit_of (max_articles_per_run config) (articles_new rs)).
  { rewrite Hp, Hf, count_items_split, Hat,
      (combine_length_same _ _ Hlo), slice_to_int_length, Hnw.
    reflexivity. }
  split; [exact Hsum|].
  split; [rewrite Hsum; apply limit_of_le|].
  split; [intros H; rewrite Hsum; apply limit_of_within; exact H|].
  split; [rewrite Hnw, Hfo; exact Hl|].
  split; [rewrite Hfo; exact Hlen|].
  rewrite Ht, length_app, Hp.
  pose proof (item_rows_length attempted). lia.
Qed.

Lemma run_statistics_consistent_witness :
  exists rs st',
    NewsBot.run image_times_out sample_config (start []) = (Val rs, st') /\
    (Z.of_nat (articles_processed rs + articles_failed rs) <= 5)%Z.
Proof.
  destruct (run_statistics_consistent image_times_out sample_config
              (start []))
    as [rs [st' [E [_ [_ [H _]]]]]].
  exists rs, st'. split; [exact E|]. apply H. cbn. lia.
Defined.

(** X12: [run] stamps the statistics with [finished_at] exactly when it
    found at least one article.  After a failed connectivity check and
    after an empty fetch it returns early: [finished_at] is missing, all
    counters are zero and the ledger is as before.  [started_at] is the
    time at which the run began, the error list is empty or holds the
    connection failure alone, and the last thing every run does, early
    return or not, is the cleanup. *)
Theorem run_finished_unless_nothing_found
  (w : World) (config : Config) (st : St) :
  exists rs st' mid,
    NewsBot.run w config st = (Val rs, st') /\
    (finished_at rs = None <-> articles_found rs = 0) /\
    (articles_found rs = 0 ->
     articles_new rs = 0 /\ articles_processed rs = 0 /\
     articles_failed rs = 0 /\ table st' = table st) /\
    started_at rs = w_now w (tick st) /\
    (errors rs = [] \/
     errors rs = [TelegramConnectionFailed] /\ articles_found rs = 0) /\
    calls st' = calls st ++ mid ++ [CCleanup].
Proof.
  destruct (run_detail w config st)
    as [rs [st' [fetched [news [os [attempted [before [after [E [Hat [Hlo [Hc [Hb [Ha [Ht [Hlen [Hi [Hl [Hkeep [Hexact [Hfo [Hnw [Hp [Hf [Hs [He Hfin]]]]]]]]]]]]]]]]]]]]]]]]]].
  exists rs, st', (before ++ flat_map item_log attempted ++ after).
  split; [exact E|].
  assert (Hz : articles_found rs = 0 <-> fetched = []).
  { rewrite Hfo. destruct fetched; cbn; split; congruence. }
  split; [rewrite Hz; exact Hfin|].
  split; [|split; [exact Hs|split]].
  - intros H0. apply Hz in H0. subst fetched.
    assert (Hnews : news = []).
    { destruct news; [reflexivity | cbn in Hl; lia]. }
    assert (Hatt : attempted = []).
    { rewrite Hat, Hnews, slice_to_int_nil. reflexivity. }
    rewrite Hnw, Hp, Hf, Ht, Hatt, Hnews. cbn. rewrite app_nil_r.
    repeat split; reflexivity.
  - destruct He as [He|[He Hn]]; [left; exact He|].
    right. split; [exact He | apply Hz; exact Hn].
  - rewrite Hc, <- !app_assoc. reflexivity.
Qed.

Lemma run_finished_unless_nothing_found_witness :
  exists rs st',
    NewsBot.run calm sample_config (start one_row) = (Val rs, st') /\
    finished_at rs = None /\ articles_new rs = 0 /\
    articles_processed rs = 0 /\ articles_failed rs = 0 /\
    table st' = one_row.
Proof.
  destruct (run_finished_unless_nothing_found calm sample_config
              (start one_row))
    as [rs [st' [mid [E [Hfin [Hzero _]]]]]].
  assert (H0 : articles_found rs = 0).
  { apply (f_equal fst) in E. vm_compute in E. injection E as <-.
    reflexivity. }
  exists rs, st'. split; [exact E|].
  split; [apply Hfin; exact H0|].
  destruct (Hzero H0) as [H1 [H2 [H3 H4]]]. auto.
Defined.

Lemma item_call_of_log (c : Call) (before after : list Call)
  (attempted : list (Article * Outcome)) :
  no_item_calls before -> no_item_calls after ->
  is_item_call c = true ->
  In c (before ++ flat_map item_log attempted ++ after ++ [CCleanup]) ->
  exists a o, In (a, o) attempted /\ In c (item_log (a, o)).
Proof.
  unfold no_item_calls. intros Hb Ha Hc Hin.
  rewrite forallb_forall in Hb, Ha.
  apply in_app_or in Hin. destruct Hin as [Hin|Hin].
  { apply Hb in Hin. rewrite Hc in Hin. discriminate. }
  apply in_app_or in Hin. destruct Hin as [Hin|Hin].
  { apply in_flat_map in Hin. destruct Hin as [[a o] [H1 H2]].
    exists a, o. auto. }
  apply in_app_or in Hin. destruct Hin as [Hin|[<-|[]]].
  - apply Ha in Hin. rewrite Hc in Hin. discriminate.
  - discriminate.
Qed.

(** X13: with working storage a run never takes up an article whose
    link the ledger already holds: every page request, every summary
    request and every commit of the run is for a link that was unknown
    when the run began.  (With failing storage [is_processed] answers
    false and such an article counts as new.) *)
Theorem working_storage_prevents_repost
  (w : World) (config : Config) (st : St) :
  no_faults w ->
  exists rs st' log,
    NewsBot.run w config st = (Val rs, st') /\
    calls st' = calls st ++ log /\
    (forall l r, In (CExtract l r) log ->
                 Database.has_link l (table st) = false) /\
    (forall a r, In (CSummarize a r) log ->
                 Database.has_link (link a) (table st) = false) /\
    (forall l ti so r, In (CMarkProcessed l ti so r) log ->
                       Database.has_link l (table st) = false).
Proof.
  intros Hnf.
  destruct (run_detail w config st)
    as [rs [st' [fetched [news [os [attempted [before [after [E [Hat [Hlo [Hc [Hb [Ha [Ht [Hlen [Hi [Hl [Hkeep [Hexact _]]]]]]]]]]]]]]]]]]]].
  exists rs, st',
    (before ++ flat_map item_log attempted ++ after ++ [CCleanup]).
  split; [exact E|]. split; [exact Hc|].
  assert (Hnew : forall a o, In (a, o) attempted ->
                   Database.has_link (link a) (table st) = false).
  { intros a o Hin. rewrite Hat in Hin. apply in_combine_l in Hin.
    apply slice_to_int_incl in Hin. rewrite (Hexact Hnf) in Hin.
    apply filter_In in Hin. destruct Hin as [_ Hu].
    unfold unknown in Hu. apply negb_true_iff in Hu. exact Hu. }
  assert (Hitem : forall c, is_item_call c = true ->
            In c (before ++ flat_map item_log attempted ++ after ++
                  [CCleanup]) ->
            exists a o, In (a, o) attempted /\ In c (item_log (a, o))).
  { intros c. apply item_call_of_log; assumption. }
  split; [|split].
  - intros l r Hin.
    destruct (Hitem (CExtract l r) eq_refl Hin) as [a [o [Hao Hlog]]].
    specialize (Hnew a o Hao). unfold item_log in Hlog. cbn [fst snd] in Hlog.
    destruct Hlog as [H|[H|H]]; try discriminate.
    + injection H as <- _. exact Hnew.
    + destruct (truthy (o_summary o)); [|destruct H].
      destruct H as [H|H]; [discriminate|].
      destruct (o_sent o); [|destruct H].
      destruct H as [H|[]]. discriminate.
  - intros a' r Hin.
    destruct (Hitem (CSummarize a' r) eq_refl Hin) as [a [o [Hao Hlog]]].
    specialize (Hnew a o Hao). unfold item_log in Hlog. cbn [fst snd] in Hlog.
    destruct Hlog as [H|[H|H]]; try discriminate.
    + injection H as <- _. exact Hnew.
    + destruct (truthy (o_summary o)); [|destruct H].
      destruct H as [H|H]; [discriminate|].
      destruct (o_sent o); [|destruct H].
      destruct H as [H|[]]. discriminate.
  - intros l ti so r Hin.
    destruct (Hitem (CMarkProcessed l ti so r) eq_refl Hin)
      as [a [o [Hao Hlog]]].
    specialize (Hnew a o Hao). unfold item_log in Hlog. cbn [fst snd] in Hlog.
    destruct Hlog as [H|[H|H]]; try discriminate.
    destruct (truthy (o_summary o)); [|destruct H].
    destruct H as [H|H]; [discriminate|].
    destruct (o_sent o); [|destruct H].
    destruct H as [H|[]]. injection H as <- _ _ _. exact Hnew.
Qed.

Lemma working_storage_prevents_repost_witness :
  exists rs st' log,
    NewsBot.run image_times_out sample_config (start one_row) =
      (Val rs, st') /\
    calls st' = log /\
    (forall l r, In (CExtract l r) log ->
                 Database.has_link l one_row = false) /\
    (forall a r, In (CSummarize a r) log ->
                 Database.has_link (link a) one_row = false) /\
    (forall l ti so r, In (CMarkProcessed l ti so r) log ->
                       Database.has_link l one_row = false).
Proof.
  apply (working_storage_prevents_repost image_times_out sample_config
           (start one_row)).
  intros k. reflexivity.
Defined.

(** Without working storage the same article is posted again: the
    look-up fails, so the article counts as new although its link is in
    the ledger; it is posted, and the insert is ignored. *)
Example repost_when_lookup_fails :
  let st' := snd (NewsBot.run lookup_down sample_config (start one_row)) in
  Database.has_link (lit "https://a.example/1") one_row = true /\
  has_post true (calls st') = true /\
  table st' = one_row.
Proof. vm_compute. repeat split; reflexivity. Qed.

(** ** The ledger over a whole execution *)

Lemma from_env_state (w : World) (st : St) :
  snd (Main.from_env w st) = st.
Proof.
  unfold Main.from_env, bind, raise, ret.
  destruct (negb _ || negb _ || negb _); [reflexivity|].
  destruct (w_getenv w "MAX_ARTICLES_PER_RUN") as [s|]; [|reflexivity].
  destruct (w_int w s); reflexivity.
Qed.

Lemma init_table (w : World) (config : Config) (st : St) :
  table (snd (NewsBot.init w config st)) = table st.
Proof.
  unfold NewsBot.init, bind.
  pose proof (_init_schema_table w st) as H.
  destruct (Database._init_schema w st) as [[[]|e] st0]; cbn [snd] in *;
    [|exact H].
  unfold GeminiSummarizer._configure, ret, raise.
  destruct (w_genai_ok w); exact H.
Qed.

(** X14: whatever happens in an execution of [main] (a refused
    environment, a failed start-up, a run with failures, the exit with
    status 1), the ledger only grows: the rows it had are still there, in
    their order and unchanged, followed by the rows added; and a ledger
    without repeated links is left without repeated links. *)
Theorem main_only_appends (w : World) (st : St) :
  exists added,
    table (snd (Main.main w st)) = table st ++ added /\
    (unique_links (table st) ->
     unique_links (table (snd (Main.main w st)))).
Proof.
  assert (H : exists added,
            table (snd (Main.main w st)) = table st ++ added /\
            (unique_links (table st) -> unique_links (table st ++ added))).
  { unfold Main.main, try_except. unfold bind at 1.
    pose proof (from_env_state w st) as H0.
    destruct (Main.from_env w st) as [[config|e] st0]; cbn [snd] in H0;
      subst st0.
    2:{ exists []. rewrite app_nil_r.
        destruct (is_Exception e); [destruct e|]; cbn; auto. }
    unfold bind at 1.
    pose proof (init_table w config st) as H1.
    destruct (NewsBot.init w config st) as [[[]|e] st1]; cbn [snd] in H1.
    2:{ exists []. rewrite app_nil_r, <- H1.
        destruct (is_Exception e); [destruct e|]; cbn; auto. }
    unfold bind at 1.
    destruct (run_run w config st1)
      as [rs [st2 [before [attempted [after
           [E [_ [_ [_ [Ht [Hu _]]]]]]]]]]].
    rewrite E. rewrite H1 in Ht, Hu.
    exists (flat_map item_rows attempted). rewrite <- Ht.
    destruct ((0 <? articles_failed rs) && (articles_processed rs =? 0));
      cbn; auto. }
  destruct H as [added [Ht Hu]]. exists added.
  split; [exact Ht | rewrite Ht; exact Hu].
Qed.

Lemma main_only_appends_witness :
  unique_links (table (snd (Main.main store_down (start one_row)))).
Proof.
  destruct (main_only_appends store_down (start one_row)) as [added [_ H]].
  apply H. unfold unique_links. cbn.
  constructor; [intros []|constructor].
Defined.

(** ** Traffic *)

Lemma requests_app (p : Wire -> bool) (a b : list Wire) :
  requests p (a ++ b) = requests p a + requests p b.
Proof. unfold requests. rewrite filter_app, length_app. reflexivity. Qed.

Lemma requests_none (p q : Wire -> bool) (l : list Wire) :
  forallb q l = true -> (forall e, q e = true -> p e = false) ->
  requests p l = 0.
Proof.
  unfold requests. intros Hq Hpq. induction l as [|e l IH]; [reflexivity|].
  cbn in Hq. apply andb_prop in Hq. destruct Hq as [He Hl].
  cbn [filter]. rewrite (Hpq e He). apply IH. exact Hl.
Qed.

Section Traffic.
Variable w : World.

Ltac sql_trace :=
  eexists; split;
  [cbn; rewrite <- ?app_assoc; reflexivity | reflexivity].

Lemma is_processed_traffic (l : str) (st : St) :
  exists sq,
    wire (snd (Database.is_processed w l st)) = wire st ++ sq /\
    forallb is_sql sq = true.
Proof.
  unfold Database.is_processed. db_steps.
  db_cases ltac:(idtac).
  all: try (sql_trace; fail).
  all: destruct (Database.has_link l (table st)); cbn.
  all: db_cases ltac:(sql_trace).
Qed.

Lemma mark_processed_traffic (l ti so : str) (st : St) :
  exists sq,
    wire (snd (Database.mark_processed w l ti so st)) = wire st ++ sq /\
    forallb is_sql sq = true.
Proof.
  unfold Database.mark_processed. db_steps.
  db_cases ltac:(idtac).
  all: try (sql_trace; fail).
  all: destruct (Database.has_link l (table st)); cbn.
  all: db_cases ltac:(sql_trace).
Qed.

Lemma get_stats_traffic (st : St) :
  exists sq,
    wire (snd (Database.get_stats w st)) = wire st ++ sq /\
    forallb is_sql sq = true.
Proof.
  unfold Database.get_stats. db_steps.
  db_cases ltac:(idtac).
  all: try rewrite map_m_source_count; cbn.
  all: destruct (Database.max_processed_at (table st)); cbn.
  all: db_cases ltac:(idtac).
  all: try rewrite map_m_source_count; cbn.
  all: db_cases ltac:(idtac).
  all: sql_trace.
Qed.

End Traffic.

Lemma sleeps_three_app (a b : list Wire) :
  sleeps_three a -> sleeps_three b -> sleeps_three (a ++ b).
Proof.
  unfold sleeps_three. intros Ha Hb s H. apply in_app_or in H.
  destruct H; auto.
Qed.

Lemma sleeps_three_none (q : Wire -> bool) (l : list Wire) :
  forallb q l = true -> (forall s, q (WSleep s) = false) -> sleeps_three l.
Proof.
  intros Hq Hs s Hin. rewrite forallb_forall in Hq. apply Hq in Hin.
  rewrite Hs in Hin. discriminate.
Qed.

Lemma delivery_sends (text : str) (image : option str) (dp : bool)
  (trace : list Wire) (b : bool) :
  delivery text image dp trace b ->
  forallb is_send trace = true /\
  1 <= List.length trace /\ List.length trace <= 2.
Proof.
  intros [[_ [r [-> _]]] | [[u [r [_ [_ [_ [-> _]]]]]] |
                            [u [r [r' [_ [_ [_ [-> _]]]]]]]]];
    cbn; repeat split; lia.
Qed.

Lemma requests_all (p : Wire -> bool) (l : list Wire) :
  forallb p l = true -> requests p l = List.length l.
Proof.
  unfold requests. induction l as [|e l IH]; [reflexivity|].
  cbn. intros H. apply andb_prop in H. destruct H as [-> H].
  cbn. rewrite IH; auto.
Qed.

Section RunTraffic.
Variable w : World.

Lemma fetch_feed_traffic (f : FeedInfo) (st : St) :
  wire (snd (RSSParser.fetch_feed w f st)) =
  wire st ++ [WParseFeed (feed_url f)].
Proof.
  unfold RSSParser.fetch_feed, try_except, bind, RSSParser.feedparser_parse.
  destruct (w_feed w (tick st)) as [|entries]; cbn; [reflexivity|].
  match goal with
  | |- context [map_m _ ?es ?s] =>
      destruct (build_articles_run w (feed_name f)
                  (RSSParser.get_or (feed_icon f) RSSParser.default_icon)
                  es s) as [l [st' [E [_ [W _]]]]]
  end.
  rewrite E. cbn. rewrite W. reflexivity.
Qed.

Lemma gather_traffic (feeds : list FeedInfo) (st : St) :
  wire (snd (RSSParser.gather (List.map (RSSParser.fetch_feed w) feeds) st)) =
  wire st ++ feed_requests feeds.
Proof.
  revert st. induction feeds as [|f feeds IH]; intros st.
  - cbn. rewrite app_nil_r. reflexivity.
  - cbn [List.map RSSParser.gather feed_requests].
    pose proof (fetch_feed_traffic f st) as H1.
    destruct (RSSParser.fetch_feed w f st) as [r st1]. cbn [snd] in H1.
    specialize (IH st1).
    destruct (gather_fetch_feed_run w feeds st1) as [rs [st2 [E2 _]]].
    rewrite E2 in IH |- *. cbn [snd] in *.
    rewrite IH, H1, <- app_assoc. reflexivity.
Qed.

Lemma fetch_all_traffic (feeds : list FeedInfo) (st : St) :
  wire (snd (RSSParser.fetch_all w feeds st)) =
  wire st ++ feed_requests feeds.
Proof.
  pose proof (gather_traffic feeds st) as H.
  unfold RSSParser.fetch_all, bind.
  destruct (RSSParser.gather _ st) as [[rs|e] st']; exact H.
Qed.

Lemma filter_new_traffic (articles : list Article) (st : St) :
  exists sq,
    wire (snd (NewsBot.filter_new w articles st)) = wire st ++ sq /\
    forallb is_sql sq = true.
Proof.
  revert st. induction articles as [|a articles IH]; intros st.
  - exists []. cbn. rewrite app_nil_r. auto.
  - cbn [NewsBot.filter_new]. unfold bind at 1.
    destruct (is_processed_run w (link a) st) as [b [st1 [E1 _]]].
    destruct (is_processed_traffic w (link a) st) as [sq1 [W1 Q1]].
    rewrite E1 in W1. cbn [snd] in W1.
    rewrite (call_run _ _ _ _ _ E1). unfold bind at 1.
    destruct (IH (log_call (CIsProcessed (link a) b) st1)) as [sq2 [W2 Q2]].
    destruct (NewsBot.filter_new w articles _) as [[news|e] st2];
      cbn [snd ret log_call wire] in *; exists (sq1 ++ sq2);
      rewrite W2, W1, <- app_assoc, forallb_app, Q1, Q2; auto.
Qed.

(** [process_article], request by request. *)
Lemma process_article_trace (a : Article) (st : St) :
  exists b st' trace,
    NewsBot.process_article w a st = (Val b, st') /\
    wire st' = wire st ++ WGetPage (link a) :: WGenerate a :: trace /\
    stats st' = stats st /\
    forallb is_send trace = true /\ List.length trace <= 2 /\
    (b = true -> 1 <= List.length trace).
Proof.
  unfold NewsBot.process_article, try_except. unfold bind at 1.
  destruct (extract_requests w (link a) st)
    as [image [st1 [E1 [Hw1 [Hk1 [Ht1 [Hc1 [Hs1 Hlen]]]]]]]].
  rewrite (call_run _ _ _ _ _ E1).
  unfold bind at 1.
  unfold call at 1, bind at 1, GeminiSummarizer.summarize at 1.
  cbn [modify ret bind]. cbn [log_call tick].
  destruct (truthy (w_summarize w (tick st1))) eqn:Es; cbn [negb].
  - unfold bind at 1.
    match goal with
    | |- context [call (TelegramPoster.post w ?t ?i ?d) _ ?s0] =>
        destruct (post_delivered w t i d s0)
          as [sent [st2 [trace [E2 [Hw2 [Hd [Hk2 [Ht2 [Hc2 Hs2]]]]]]]]];
        rewrite (call_run _ _ _ _ _ E2)
    end.
    apply delivery_sends in Hd. destruct Hd as [Hall [H1 H2]].
    exists sent,
      (log_call (CPost (text_of (w_summarize w (tick st1))) image sent) st2),
      trace.
    split; [destruct sent; reflexivity|].
    cbn in *. rewrite Hw2, Hs2, Hw1, Hs1. rewrite <- !app_assoc.
    repeat split; auto.
  - eexists false, _, []. split; [reflexivity|].
    cbn. rewrite Hw1, Hs1. rewrite <- !app_assoc.
    repeat split; auto. discriminate.
Qed.

(** One round of the loop, request by request. *)
Lemma process_one_traffic (n : nat) (item : nat * Article) (st : St) :
  exists st' trace,
    NewsBot.process_one w n item st = (Val tt, st') /\
    wire st' = wire st ++ trace /\
    articles_processed (stats st') + articles_failed (stats st') =
      S (articles_processed (stats st) + articles_failed (stats st)) /\
    articles_processed (stats st') <=
      articles_processed (stats st) + requests is_send trace /\
    requests is_send trace <= 2 /\
    requests is_page trace = 1 /\ requests is_generate trace = 1 /\
    requests is_getMe trace = 0 /\ requests is_feed trace = 0 /\
    requests is_sleep trace = (if fst item <? n then 1 else 0) /\
    sleeps_three trace.
Proof.
  destruct item as [i a]. unfold NewsBot.process_one. cbn [fst snd].
  unfold bind at 1.
  destruct (process_article_trace a st)
    as [b [st1 [trace [E1 [Hw1 [Hs1 [Hall [Hle Hok]]]]]]]].
  rewrite E1.
  assert (Hsend : requests is_send trace = List.length trace)
    by (apply requests_all; exact Hall).
  assert (Hnone : forall p, (forall e, is_send e = true -> p e = false) ->
                            requests p trace = 0).
  { intros p Hp. apply (requests_none p is_send); assumption. }
  assert (Hp : requests is_page trace = 0)
    by (apply Hnone; intros []; cbn; congruence).
  assert (Hg : requests is_generate trace = 0)
    by (apply Hnone; intros []; cbn; congruence).
  assert (Hm : requests is_getMe trace = 0)
    by (apply Hnone; intros []; cbn; congruence).
  assert (Hf : requests is_feed trace = 0)
    by (apply Hnone; intros []; cbn; congruence).
  assert (Hz : requests is_sleep trace = 0)
    by (apply Hnone; intros []; cbn; congruence).
  assert (H3 : sleeps_three trace).
  { apply (sleeps_three_none is_send); [exact Hall | reflexivity]. }
  assert (Hcons : forall p rest,
            requests p (WGetPage (link a) :: WGenerate a :: rest) =
            (if p (WGetPage (link a)) then 1 else 0) +
            (if p (WGenerate a) then 1 else 0) + requests p rest).
  { intros p rest. unfold requests. cbn [filter].
    destruct (p (WGetPage (link a))), (p (WGenerate a)); cbn; lia. }
  destruct b.
  - unfold bind at 1. unfold bind at 1.
    destruct (mark_processed_run w (link a) (title a) (source a) st1)
      as [r [st2 [E2 [_ [_ [_ [_ [_ [_ [_ [Hs2 _]]]]]]]]]]].
    destruct (mark_processed_traffic w (link a) (title a) (source a) st1)
      as [sq [W2 Q2]].
    rewrite E2 in W2. cbn [snd] in W2.
    rewrite (call_run _ _ _ _ _ E2).
    unfold NewsBot.update_stats, modify. cbn [ret].
    assert (Hq : forall p, (forall e, is_sql e = true -> p e = false) ->
                           requests p sq = 0).
    { intros p Hpq. apply (requests_none p is_sql); assumption. }
    assert (Q3 : sleeps_three sq).
    { apply (sleeps_three_none is_sql); [exact Q2 | reflexivity]. }
    specialize (Hok eq_refl).
    destruct (i <? n); cbn [NewsBot.sleep ret];
      eexists _, _; (split; [reflexivity|]);
      cbn [log_wire log_call set_stats wire stats NewsBot.incr_processed
           articles_processed articles_failed];
      rewrite W2, Hw1, Hs2, Hs1, <- ?app_assoc;
      (split; [reflexivity|]);
      rewrite ?requests_app, !Hcons, ?requests_app;
      rewrite !(Hq is_send), !(Hq is_page), !(Hq is_generate),
        !(Hq is_getMe), !(Hq is_feed), !(Hq is_sleep)
        by (intros []; cbn; congruence);
      rewrite Hsend, Hp, Hg, Hm, Hf, Hz; cbn;
      repeat split; try lia;
      repeat apply sleeps_three_app; auto;
      intros s [H|[H|H]]; try discriminate; try (destruct H);
      try (apply in_app_or in H; destruct H as [H|H];
           [apply H3 in H; exact H|]);
      try (apply in_app_or in H; destruct H as [H|[H|[]]];
           [apply Q3 in H; exact H | injection H as <-; reflexivity]);
      try (apply Q3 in H; exact H).
  - unfold bind at 1. unfold NewsBot.update_stats, modify. cbn [ret].
    destruct (i <? n); cbn [NewsBot.sleep ret];
      eexists _, _; (split; [reflexivity|]);
      cbn [log_wire log_call set_stats wire stats NewsBot.incr_failed
           articles_processed articles_failed];
      rewrite Hw1, Hs1, <- ?app_assoc;
      (split; [reflexivity|]);
      rewrite ?requests_app, !Hcons, ?requests_app;
      rewrite Hsend, Hp, Hg, Hm, Hf, Hz; cbn;
      repeat split; try lia;
      intros s [H|[H|H]]; try discriminate;
      try (apply in_app_or in H; destruct H as [H|[H|[]]];
           [apply H3 in H; exact H | injection H as <-; reflexivity]);
      try (apply H3 in H; exact H).
Qed.

End RunTraffic.

Lemma sleeps_three_cons (e : Wire) (l : list Wire) :
  is_sleep e = false -> sleeps_three l -> sleeps_three (e :: l).
Proof.
  unfold sleeps_three. intros He Hl s [H|H]; [|auto].
  subst e. discriminate He.
Qed.

Lemma sql_only (sq : list Wire) :
  forallb is_sql sq = true ->
  requests is_send sq = 0 /\ requests is_page sq = 0 /\
  requests is_generate sq = 0 /\ requests is_getMe sq = 0 /\
  requests is_feed sq = 0 /\ requests is_sleep sq = 0 /\ sleeps_three sq.
Proof.
  intros H.
  repeat split;
    try (apply (requests_none _ is_sql); [exact H|];
         intros []; cbn; congruence).
  apply (sleeps_three_none is_sql); [exact H | reflexivity].
Qed.

Lemma feed_requests_only (feeds : list FeedInfo) :
  requests is_send (feed_requests feeds) = 0 /\
  requests is_page (feed_requests feeds) = 0 /\
  requests is_generate (feed_requests feeds) = 0 /\
  requests is_getMe (feed_requests feeds) = 0 /\
  requests is_feed (feed_requests feeds) = List.length feeds /\
  requests is_sleep (feed_requests feeds) = 0 /\
  sleeps_three (feed_requests feeds).
Proof.
  assert (H : forallb is_feed (feed_requests feeds) = true).
  { unfold feed_requests. induction feeds; cbn; auto. }
  repeat split;
    try (apply (requests_none _ is_feed); [exact H|];
         intros []; cbn; congruence).
  - rewrite (requests_all _ _ H). unfold feed_requests.
    apply length_map.
  - apply (sleeps_three_none is_feed); [exact H | reflexivity].
Qed.

Section RunTrafficWhole.
Variable w : World.

(** The loop of [run], request by request: a sleep after every item but
    the last. *)
Lemma loop_traffic (n k : nat) (items : list Article) (st : St) :
  k + List.length items = S n ->
  exists st' trace,
    for_each (NewsBot.enumerate k items) (NewsBot.process_one w n) st =
      (Val tt, st') /\
    wire st' = wire st ++ trace /\
    articles_processed (stats st') + articles_failed (stats st') =
      articles_processed (stats st) + articles_failed (stats st) +
      List.length items /\
    articles_processed (stats st') <=
      articles_processed (stats st) + requests is_send trace /\
    requests is_send trace <= 2 * List.length items /\
    requests is_page trace = List.length items /\
    requests is_generate trace = List.length items /\
    requests is_getMe trace = 0 /\ requests is_feed trace = 0 /\
    requests is_sleep trace = pred (List.length items) /\
    sleeps_three trace.
Proof.
  revert k st. induction items as [|a items IH]; intros k st Hk.
  - exists st, []. cbn. rewrite app_nil_r.
    repeat split; try lia. intros s [].
  - cbn [NewsBot.enumerate for_each]. unfold bind.
    destruct (process_one_traffic w n (k, a) st)
      as [st1 [tr1 [E1 [W1 [Hn1 [Hp1 [Hs1 [Hg1 [Hq1 [Hm1 [Hf1
           [Hz1 H31]]]]]]]]]]]].
    rewrite E1.
    destruct (IH (S k) st1)
      as [st2 [tr2 [E2 [W2 [Hn2 [Hp2 [Hs2 [Hg2 [Hq2 [Hm2 [Hf2
           [Hz2 H32]]]]]]]]]]]].
    { cbn [List.length] in Hk. lia. }
    rewrite E2. exists st2, (tr1 ++ tr2).
    split; [reflexivity|].
    split; [rewrite W2, W1, <- app_assoc; reflexivity|].
    rewrite !requests_app. cbn [fst List.length] in *.
    repeat split; try lia.
    + rewrite Hz1, Hz2.
      destruct (Nat.ltb_spec k n); destruct items; cbn in *; lia.
    + apply sleeps_three_app; assumption.
Qed.

Lemma run_body_traffic (config : Config) (st : St) :
  exists returned st' trace n,
    NewsBot.run_body w config st = (Val returned, st') /\
    wire st' = wire st ++ trace /\
    articles_processed (stats st') + articles_failed (stats st') =
      articles_processed (stats st) + articles_failed (stats st) + n /\
    articles_processed (stats st') <=
      articles_processed (stats st) + requests is_send trace /\
    requests is_send trace <= 2 * n /\
    requests is_page trace = n /\ requests is_generate trace = n /\
    requests is_getMe trace = 1 /\
    requests is_feed trace <= List.length (rss_feeds config) /\
    requests is_sleep trace = pred n /\
    sleeps_three trace.
Proof.
  unfold NewsBot.run_body. unfold bind at 1.
  destruct (test_connection_run w st)
    as [c [st1 [E1 [[Ht1 [Hc1 [Hs1 Hk1]]] W1]]]].
  rewrite (call_run _ _ _ _ _ E1).
  destruct c; cbn [negb].
  2:{ eexists true, _, [WGetMe], 0. split; [reflexivity|].
      cbn. rewrite W1, Hs1. cbn.
      repeat split; try lia. intros s [H|[]]. discriminate. }
  unfold bind at 1.
  destruct (fetch_all_found w (rss_feeds config)
              (log_call (CTestConnection true) st1))
    as [fetched [st2 [E2 [[Ht2 [Hc2 [Hs2 Hk2]]] Hlen]]]].
  pose proof (fetch_all_traffic w (rss_feeds config)
                (log_call (CTestConnection true) st1)) as W2.
  rewrite E2 in W2. cbn [snd log_call wire] in W2.
  rewrite (call_run _ _ _ _ _ E2).
  unfold bind at 1. unfold NewsBot.update_stats at 1, modify at 1.
  destruct (feed_requests_only (rss_feeds config))
    as [Fs [Fp [Fg [Fm [Ff [Fz F3]]]]]].
  destruct fetched as [|a0 articles] eqn:Ef.
  { eexists true, _, (WGetMe :: feed_requests (rss_feeds config)), 0.
    split; [reflexivity|].
    cbn [log_call set_stats wire stats NewsBot.set_found
         articles_processed articles_failed] in *.
    rewrite W2, W1, Hs2, Hs1, <- app_assoc.
    split; [reflexivity|].
    change (WGetMe :: feed_requests (rss_feeds config))
      with ([WGetMe] ++ feed_requests (rss_feeds config)).
    rewrite !requests_app, Fs, Fp, Fg, Fm, Ff, Fz. cbn.
    repeat split; try lia.
    apply sleeps_three_cons; [reflexivity | exact F3]. }
  rewrite <- Ef in *. unfold bind at 1.
  match goal with
  | |- context [NewsBot.filter_new w ?l ?s] =>
      destruct (filter_new_detail w l s)
        as [news [asked [st3 [E3 [_ [_ [_ [Hs3 _]]]]]]]];
      destruct (filter_new_traffic w l s) as [sq3 [W3 Q3]]
  end.
  rewrite E3 in W3 |- *. cbn [snd] in W3. unfold bind at 1.
  unfold NewsBot.update_stats at 1, modify at 1. unfold bind at 1.
  match goal with
  | |- context [for_each (NewsBot.enumerate 1 ?items)
                         (NewsBot.process_one w ?n) ?s] =>
      destruct (loop_traffic n 1 items s eq_refl)
        as [st4 [tr4 [E4 [W4 [Hn4 [Hp4 [Hs4 [Hg4 [Hq4 [Hm4 [Hf4
             [Hz4 H34]]]]]]]]]]]];
      rewrite E4
  end.
  unfold bind at 1.
  destruct (get_stats_run w st4)
    as [ds [st5 [E5 [_ [_ [_ [_ [Hs5 _]]]]]]]].
  destruct (get_stats_traffic w st4) as [sq5 [W5 Q5]].
  rewrite E5 in W5. cbn [snd] in W5.
  rewrite (call_run _ _ _ _ _ E5). cbn [ret].
  destruct (sql_only sq3 Q3) as [As [Ap [Ag [Am [Af [Az A3]]]]]].
  destruct (sql_only sq5 Q5) as [Bs [Bp [Bg [Bm [Bf [Bz B3]]]]]].
  eexists false, _,
    ([WGetMe] ++ feed_requests (rss_feeds config) ++ sq3 ++ tr4 ++ sq5),
    _.
  split; [reflexivity|].
  cbn [log_call set_stats wire stats NewsBot.set_found NewsBot.set_new
       articles_processed articles_failed] in *.
  split; [rewrite W5, W4, W3, W2, W1, <- !app_assoc; reflexivity|].
  rewrite Hs5. rewrite Hs3 in Hn4, Hp4. cbn in Hn4, Hp4.
  rewrite Hs2, Hs1 in Hn4, Hp4.
  rewrite !requests_app, Fs, Fp, Fg, Fm, Ff, Fz, As, Ap, Ag, Am, Af, Az,
    Bs, Bp, Bg, Bm, Bf, Bz. cbn.
  split; [exact Hn4|].
  repeat split; try lia.
  apply sleeps_three_cons; [reflexivity|].
  repeat apply sleeps_three_app; auto.
Qed.

Lemma run_traffic (config : Config) (st : St) :
  exists rs st' trace,
    NewsBot.run w config st = (Val rs, st') /\
    wire st' = wire st ++ trace ++ [WCloseClients] /\
    articles_processed rs <= requests is_send trace /\
    requests is_send trace <=
      2 * (articles_processed rs + articles_failed rs) /\
    requests is_page trace = articles_processed rs + articles_failed rs /\
    requests is_generate trace =
      articles_processed rs + articles_failed rs /\
    requests is_getMe trace = 1 /\
    requests is_feed trace <= List.length (rss_feeds config) /\
    requests is_sleep trace =
      pred (articles_processed rs + articles_failed rs) /\
    sleeps_three trace.
Proof.
  unfold NewsBot.run. unfold bind at 1. unfold RSSParser.now at 1.
  unfold bind at 1. unfold modify at 1. unfold bind at 1.
  unfold try_finally, try_except.
  match goal with
  | |- context [NewsBot.run_body w config ?s] =>
      destruct (run_body_traffic config s)
        as [returned [st1 [trace [n [E [W [Hn [Hp [Hs [Hg [Hq [Hm [Hf
             [Hz H3]]]]]]]]]]]]]]
  end.
  rewrite E, cleanup_run.
  cbn [set_stats bump wire stats NewsBot.fresh_stats articles_processed
       articles_failed] in W, Hn, Hp.
  cbn [Nat.add] in Hn, Hp.
  destruct returned.
  - exists (stats st1), (log_call CCleanup (log_wire WCloseClients st1)),
      trace.
    split; [reflexivity|]. cbn [log_call log_wire wire].
    rewrite W, Hn, <- app_assoc. repeat split; auto; lia.
  - eexists _, _, trace. split; [reflexivity|].
    cbn [log_call log_wire set_stats bump wire stats NewsBot.set_finished
         articles_processed articles_failed].
    rewrite W, Hn, <- app_assoc. repeat split; auto; lia.
Qed.

End RunTrafficWhole.

(** X15: rate limiting.  A run sleeps three seconds after every item it
    attempts except the last, and nowhere else: the number of sleeps is
    one less than the number of attempted items (processed plus failed),
    none when nothing was attempted, and every sleep is one of three
    seconds. *)
Theorem run_sleeps_between_items (w : World) (config : Config) (st : St) :
  exists rs st' trace,
    NewsBot.run w config st = (Val rs, st') /\
    wire st' = wire st ++ trace /\
    requests is_sleep trace =
      pred (articles_processed rs + articles_failed rs) /\
    sleeps_three trace.
Proof.
  destruct (run_traffic w config st)
    as [rs [st' [trace [E [W [_ [_ [_ [_ [_ [_ [Hz H3]]]]]]]]]]]].
  exists rs, st', (trace ++ [WCloseClients]).
  split; [exact E|]. split; [exact W|].
  rewrite requests_app. cbn. split; [lia|].
  apply sleeps_three_app; [exact H3|]. intros s [H|[]]. discriminate.
Qed.

(** X16: the requests of a run.  Every run asks getMe exactly once and
    requests each configured feed at most once; it makes one page request
    and one summary request for every attempted item (processed plus
    failed) and no other; and it sends at least one and at most two
    requests to the Bot API's send methods per processed item, at most
    two per attempted item, so none when nothing was attempted. *)
Theorem run_request_budget (w : World) (config : Config) (st : St) :
  exists rs st' trace,
    NewsBot.run w config st = (Val rs, st') /\
    wire st' = wire st ++ trace /\
    requests is_getMe trace = 1 /\
    requests is_feed trace <= List.length (rss_feeds config) /\
    requests is_page trace = articles_processed rs + articles_failed rs /\
    requests is_generate trace =
      articles_processed rs + articles_failed rs /\
    articles_processed rs <= requests is_send trace /\
    requests is_send trace <=
      2 * (articles_processed rs + articles_failed rs).
Proof.
  destruct (run_traffic w config st)
    as [rs [st' [trace [E [W [Hp [Hs [Hg [Hq [Hm [Hf _]]]]]]]]]]].
  exists rs, st', (trace ++ [WCloseClients]).
  split; [exact E|]. split; [exact W|].
  rewrite !requests_app. cbn. repeat split; lia.
Qed.

(** ** What was posted is recorded *)

Lemma marked_links_in_app (a b : list Call) (t : Table) :
  marked_links_in a t -> marked_links_in b t -> marked_links_in (a ++ b) t.
Proof.
  unfold marked_links_in. intros Ha Hb l ti so r H.
  apply in_app_or in H. destruct H; eauto.
Qed.

Lemma marked_links_in_grow (a : list Call) (t rows : Table) :
  marked_links_in a t -> marked_links_in a (t ++ rows).
Proof.
  unfold marked_links_in. intros Ha l ti so r H.
  rewrite has_link_app, (Ha l ti so r H). reflexivity.
Qed.

Lemma marked_links_in_none (a : list Call) (t : Table) :
  no_item_calls a -> marked_links_in a t.
Proof.
  unfold no_item_calls, marked_links_in. intros Ha l ti so r H.
  rewrite forallb_forall in Ha. apply Ha in H. discriminate H.
Qed.

Section Recorded.
Variable w : World.
Hypothesis working : no_faults w.

Lemma process_one_recorded (n : nat) (item : nat * Article) (st : St) :
  exists st' log rows,
    NewsBot.process_one w n item st = (Val tt, st') /\
    calls st' = calls st ++ log /\ table st' = table st ++ rows /\
    marked_links_in log (table st').
Proof.
  destruct item as [i a]. unfold NewsBot.process_one. cbn [fst snd].
  unfold bind at 1.
  destruct (process_article_run w a st)
    as [image [summ [sent [st1 [E1 [Ht1 [Hs1 [Hk1 Hc1]]]]]]]].
  rewrite E1.
  assert (Hquiet : marked_links_in
            (CExtract (link a) image :: CSummarize a summ ::
             (if truthy summ then [CPost (text_of summ) image sent]
              else [])) (table st)).
  { intros l ti so r H. exfalso.
    destruct H as [H|[H|H]]; try discriminate H.
    destruct (truthy summ); [|destruct H].
    destruct H as [H|[]]. discriminate H. }
  set (L := CExtract (link a) image :: CSummarize a summ ::
            (if truthy summ then [CPost (text_of summ) image sent]
             else [])) in *.
  destruct (truthy summ && sent) eqn:Eok.
  - unfold bind at 1. unfold bind at 1.
    destruct (mark_processed_run w (link a) (title a) (source a) st1)
      as [b [st2 [E2 [Ht2 [_ [_ [_ [Hfail [_ [Hc2 _]]]]]]]]]].
    rewrite (call_run _ _ _ _ _ E2).
    unfold NewsBot.update_stats, modify. cbn [ret].
    assert (Hin : Database.has_link (link a) (table st2) = true).
    { rewrite Ht2, Ht1. destruct b; [apply has_link_new_row|].
      destruct (Database.has_link (link a) (table st)) eqn:Hl;
        [reflexivity|].
      exfalso. rewrite Ht1 in Hfail.
      exact (no_faults_not_failed w st1 st2 working (Hfail eq_refl Hl)). }
    assert (Hrows : exists rows, table st2 = table st ++ rows).
    { rewrite Ht2, Ht1. destruct b; [eexists; reflexivity|].
      exists []. rewrite app_nil_r. reflexivity. }
    destruct Hrows as [rows Hrows].
    destruct (i <? n); cbn [NewsBot.sleep ret];
      eexists _,
        (L ++ [CMarkProcessed (link a) (title a) (source a) b]), rows;
      (split; [reflexivity|]);
      cbn [log_wire log_call set_stats calls table];
      rewrite Hc2, Hc1, <- !app_assoc;
      (split; [reflexivity|]); (split; [exact Hrows|]);
      (apply marked_links_in_app;
       [rewrite Hrows; apply marked_links_in_grow; exact Hquiet|]);
      intros l ti so r [H|[]]; injection H as <- _ _ _; exact Hin.
  - unfold bind at 1. unfold NewsBot.update_stats, modify. cbn [ret].
    destruct (i <? n); cbn [NewsBot.sleep ret];
      eexists _, L, []; (split; [reflexivity|]);
      cbn [log_wire log_call set_stats calls table];
      rewrite Hc1, Ht1, app_nil_r; repeat split; exact Hquiet.
Qed.

Lemma loop_recorded (n k : nat) (items : list Article) (st : St) :
  exists st' log rows,
    for_each (NewsBot.enumerate k items) (NewsBot.process_one w n) st =
      (Val tt, st') /\
    calls st' = calls st ++ log /\ table st' = table st ++ rows /\
    marked_links_in log (table st').
Proof.
  revert k st. induction items as [|a items IH]; intros k st.
  - exists st, [], []. cbn. rewrite !app_nil_r.
    repeat split. intros l ti so r [].
  - cbn [NewsBot.enumerate for_each]. unfold bind.
    destruct (process_one_recorded n (k, a) st)
      as [st1 [log1 [rows1 [E1 [Hc1 [Ht1 Hm1]]]]]].
    rewrite E1.
    destruct (IH (S k) st1) as [st2 [log2 [rows2 [E2 [Hc2 [Ht2 Hm2]]]]]].
    rewrite E2. exists st2, (log1 ++ log2), (rows1 ++ rows2).
    split; [reflexivity|].
    split; [rewrite Hc2, Hc1, <- app_assoc; reflexivity|].
    split; [rewrite Ht2, Ht1, <- app_assoc; reflexivity|].
    apply marked_links_in_app; [|exact Hm2].
    rewrite Ht2. apply marked_links_in_grow. exact Hm1.
Qed.

Lemma run_body_recorded (config : Config) (st : St) :
  exists returned st' log,
    NewsBot.run_body w config st = (Val returned, st') /\
    calls st' = calls st ++ log /\ marked_links_in log (table st').
Proof.
  unfold NewsBot.run_body. unfold bind at 1.
  destruct (test_connection_run w st)
    as [c [st1 [E1 [[Ht1 [Hc1 [Hs1 Hk1]]] _]]]].
  rewrite (call_run _ _ _ _ _ E1).
  destruct c; cbn [negb].
  2:{ eexists true, _, [CTestConnection false]. split; [reflexivity|].
      cbn. rewrite Hc1. split; [reflexivity|].
      apply marked_links_in_none. reflexivity. }
  unfold bind at 1.
  destruct (fetch_all_found w (rss_feeds config)
              (log_call (CTestConnection true) st1))
    as [fetched [st2 [E2 [[Ht2 [Hc2 [Hs2 Hk2]]] _]]]].
  rewrite (call_run _ _ _ _ _ E2).
  unfold bind at 1. unfold NewsBot.update_stats at 1, modify at 1.
  destruct fetched as [|a0 articles] eqn:Ef.
  { eexists true, _, [CTestConnection true; CFetchAll 0].
    split; [reflexivity|]. cbn in *. rewrite Hc2, Hc1, <- app_assoc.
    split; [reflexivity|]. apply marked_links_in_none. reflexivity. }
  rewrite <- Ef in *. unfold bind at 1.
  match goal with
  | |- context [NewsBot.filter_new w ?l ?s] =>
      destruct (filter_new_detail w l s)
        as [news [asked [st3 [E3 [Hc3 [Hn3 [Ht3 _]]]]]]]
  end.
  rewrite E3. unfold bind at 1.
  unfold NewsBot.update_stats at 1, modify at 1. unfold bind at 1.
  match goal with
  | |- context [for_each (NewsBot.enumerate 1 ?items)
                         (NewsBot.process_one w ?n) ?s] =>
      destruct (loop_recorded n 1 items s)
        as [st4 [log4 [rows4 [E4 [Hc4 [Ht4 Hm4]]]]]];
      rewrite E4
  end.
  unfold bind at 1.
  destruct (get_stats_run w st4)
    as [ds [st5 [E5 [Ht5 [_ [_ [Hc5 _]]]]]]].
  rewrite (call_run _ _ _ _ _ E5). cbn [ret].
  eexists false, _,
    ((CTestConnection true :: CFetchAll (List.length fetched) :: asked) ++
     log4 ++ [CGetStats]).
  split; [reflexivity|].
  cbn [log_call set_stats calls table] in *.
  split; [rewrite Hc5, Hc4, Hc3, Hc2, Hc1, <- !app_assoc; reflexivity|].
  rewrite Ht5.
  apply marked_links_in_app; [|apply marked_links_in_app].
  - apply marked_links_in_none. exact Hn3.
  - exact Hm4.
  - apply marked_links_in_none. reflexivity.
Qed.

Lemma run_recorded (config : Config) (st : St) :
  exists rs st' log,
    NewsBot.run w config st = (Val rs, st') /\
    calls st' = calls st ++ log /\ marked_links_in log (table st').
Proof.
  unfold NewsBot.run. unfold bind at 1. unfold RSSParser.now at 1.
  unfold bind at 1. unfold modify at 1. unfold bind at 1.
  unfold try_finally, try_except.
  match goal with
  | |- context [NewsBot.run_body w config ?s] =>
      destruct (run_body_recorded config s)
        as [returned [st1 [log [E [Hc Hm]]]]]
  end.
  rewrite E, cleanup_run. cbn [set_stats bump calls table] in Hc.
  assert (Hlog : marked_links_in (log ++ [CCleanup]) (table st1)).
  { apply marked_links_in_app; [exact Hm|].
    apply marked_links_in_none. reflexivity. }
  destruct returned;
    eexists _, _, (log ++ [CCleanup]); (split; [reflexivity|]);
    cbn [log_call log_wire set_stats bump calls table];
    rewrite Hc, <- app_assoc; split; auto.
Qed.

End Recorded.

(** X17: with working storage everything a run posts is recorded.  The
    run calls [mark_processed] for the items whose post succeeded, and
    when no storage step fails the link of every such call is in the
    ledger when the run ends, whether the call inserted it or found it
    there.  A later run in the same world, under any configuration, makes
    no page request for a link of the ledger, so it takes up none of
    these links again. *)
Theorem working_storage_records_posts
  (w : World) (config : Config) (st : St) :
  no_faults w ->
  exists rs st' log,
    NewsBot.run w config st = (Val rs, st') /\
    calls st' = calls st ++ log /\
    (forall l ti so r,
       In (CMarkProcessed l ti so r) log ->
       Database.has_link l (table st') = true) /\
    (forall config' l r,
       Database.has_link l (table st') = true ->
       ~ In (CExtract l r)
            (skipn (List.length (calls st'))
                   (calls (snd (NewsBot.run w config' st'))))).
Proof.
  intros Hnf.
  destruct (run_recorded w Hnf config st) as [rs [st' [log [E [Hc Hm]]]]].
  exists rs, st', log. split; [exact E|]. split; [exact Hc|].
  split; [exact Hm|].
  intros config' l r Hl Hin.
  destruct (run_detail w config' st')
    as [rs2 [st2 [fetched [news [os [attempted [before [after
         [E2 [Hat [_ [Hc2 [Hb [Ha [_ [_ [_ [_ [_ [Hexact _]]]]]]]]]]]]]]]]]]]].
  rewrite E2 in Hin. cbn [snd] in Hin.
  rewrite Hc2, skipn_app, skipn_all, Nat.sub_diag in Hin.
  cbn [app skipn] in Hin.
  destruct (item_call_of_log (CExtract l r) before after attempted Hb Ha
              eq_refl Hin) as [a [o [Hao Hlog]]].
  assert (Hnew : Database.has_link (link a) (table st') = false).
  { rewrite Hat in Hao. apply in_combine_l in Hao.
    apply slice_to_int_incl in Hao. rewrite (Hexact Hnf) in Hao.
    apply filter_In in Hao. destruct Hao as [_ Hu].
    unfold unknown in Hu. apply negb_true_iff in Hu. exact Hu. }
  unfold item_log in Hlog. cbn [fst snd] in Hlog.
  destruct Hlog as [H|[H|H]]; try discriminate.
  - injection H as <- _. congruence.
  - destruct (truthy (o_summary o)); [|destruct H].
    destruct H as [H|H]; [discriminate|].
    destruct (o_sent o); [|destruct H].
    destruct H as [H|[]]. discriminate.
Qed.

Lemma working_storage_records_posts_witness :
  exists rs st' log,
    NewsBot.run image_times_out sample_config (start []) = (Val rs, st') /\
    calls st' = log /\
    (forall l ti so r,
       In (CMarkProcessed l ti so r) log ->
       Database.has_link l (table st') = true) /\
    (forall config' l r,
       Database.has_link l (table st') = true ->
       ~ In (CExtract l r)
            (skipn (List.length (calls st'))
                   (calls (snd (NewsBot.run image_times_out config' st'))))).
Proof.
  apply (working_storage_records_posts image_times_out sample_config
           (start [])).
  intros k. reflexivity.
Defined.

(** ** Connections *)

Ltac no_rollback H :=
  cbn in H; repeat (destruct H as [H|H]; [discriminate H|]); destruct H.

Ltac session_facts :=
  eexists; split; [cbn; rewrite <- ?app_assoc; reflexivity|];
  split; [reflexivity|];
  split;
  [ split; [ first [ discriminate | intros _; reflexivity ]
           | first [ intros _; reflexivity | discriminate ] ]
  | first [ intros _; reflexivity
          | let H := fresh "H" in intros H; exfalso; no_rollback H ] ].

(** X18: each ledger operation, and the creation of the schema, is one
    session on the store: at most one connection is opened; it is refused
    exactly when connecting fails, and then nothing else is done; once
    opened it is closed again whatever happens, after a commit, after a
    rollback, or after a commit that failed and was rolled back; and a
    session that was rolled back leaves the table as it was. *)
Theorem ledger_operations_close_connection
  (w : World) (l ti so : str) (days : Z) (st : St) :
  one_session w (Database._init_schema w) st /\
  one_session w (Database.is_processed w l) st /\
  one_session w (Database.mark_processed w l ti so) st /\
  one_session w (Database.get_stats w) st /\
  one_session w (Database.cleanup_old w days) st.
Proof.
  unfold one_session. split; [|split; [|split; [|split]]].
  - unfold Database._init_schema. db_steps.
    db_cases ltac:(session_facts).
  - unfold Database.is_processed. db_steps.
    db_cases ltac:(idtac).
    all: try (session_facts; fail).
    all: destruct (Database.has_link l (table st)); cbn.
    all: db_cases ltac:(session_facts).
  - unfold Database.mark_processed. db_steps.
    db_cases ltac:(idtac).
    all: try (session_facts; fail).
    all: destruct (Database.has_link l (table st)); cbn.
    all: db_cases ltac:(session_facts).
  - unfold Database.get_stats. db_steps.
    db_cases ltac:(idtac).
    all: try rewrite map_m_source_count; cbn.
    all: destruct (Database.max_processed_at (table st)); cbn.
    all: db_cases ltac:(idtac).
    all: try rewrite map_m_source_count; cbn.
    all: db_cases ltac:(idtac).
    all: session_facts.
  - unfold Database.cleanup_old. db_steps.
    db_cases ltac:(idtac).
    all: try (session_facts; fail).
    all: match goal with
         | |- context [(0 <? ?d)%Z] => destruct (0 <? d)%Z eqn:Hd
         end; cbn.
    all: db_cases ltac:(session_facts).
Qed.

(** ** Start-up *)

Lemma init_traffic (w : World) (config : Config) (st : St) :
  exists sq,
    wire (snd (NewsBot.init w config st)) = wire st ++ sq /\
    forallb is_sql sq = true /\
    calls (snd (NewsBot.init w config st)) = calls st /\
    table (snd (NewsBot.init w config st)) = table st.
Proof.
  unfold NewsBot.init, Database._init_schema, GeminiSummarizer._configure.
  db_steps.
  db_cases ltac:(try destruct (w_genai_ok w); cbn;
                 eexists;
                 (split; [cbn; rewrite <- ?app_assoc; reflexivity|]);
                 repeat split; reflexivity).
Qed.

(** X19: a start-up that fails leaves no trace outside the store.  When
    the environment is not accepted, [main] ends with exit status 1
    without having done anything; when the construction of the bot
    raises, it ends with exit status 1 having made only steps on the
    store: no connectivity check, no feed, page, summary or send request,
    no call on a collaborator, and the ledger is as before. *)
Theorem main_startup_failure_is_silent (w : World) (st : St) :
  (~ complete_env w -> Main.main w st = (Exc (SystemExit 1), st)) /\
  (forall config st1 e st2,
     Main.from_env w st = (Val config, st1) ->
     NewsBot.init w config st1 = (Exc e, st2) ->
     exists sq,
       Main.main w st = (Exc (SystemExit 1), st2) /\
       wire st2 = wire st ++ sq /\ forallb is_sql sq = true /\
       calls st2 = calls st /\ table st2 = table st).
Proof.
  split.
  - intros Hn.
    assert (E : Main.from_env w st = (Exc ValueError, st)).
    { unfold complete_env, provided in Hn.
      unfold Main.from_env, Main.or_else, bind, raise, ret.
      destruct (truthy (w_getenv w "TG_TOKEN")) eqn:E1;
        destruct (truthy (w_getenv w "TELEGRAM_BOT_TOKEN")) eqn:E2;
        destruct (truthy (w_getenv w "GEMINI_API_KEY")) eqn:E3;
        destruct (truthy (w_getenv w "CHANNEL_ID")) eqn:E4;
        (destruct (w_getenv w "MAX_ARTICLES_PER_RUN") as [s|] eqn:E5;
         [destruct (w_int w s) as [n|] eqn:E6|]);
        cbv iota beta; rewrite ?E1, ?E2, ?E3, ?E4; cbn [negb orb];
        cbv iota beta; try reflexivity;
        exfalso; apply Hn; repeat split; auto;
        intros s' Hs'; congruence. }
    unfold Main.main, try_except, bind. rewrite E. reflexivity.
  - intros config st1 e st2 E1 E2.
    pose proof (from_env_state w st) as H0. rewrite E1 in H0.
    cbn [snd] in H0. subst st1.
    destruct (init_traffic w config st) as [sq [W [Q [Hc Ht]]]].
    rewrite E2 in W, Hc, Ht. cbn [snd] in W, Hc, Ht.
    exists sq. split; [|auto].
    unfold Main.main, try_except, bind. rewrite E1, E2.
    rewrite (init_raises w config st st2 e E2).
    destruct e; reflexivity.
Qed.

Lemma main_startup_failure_is_silent_witness :
  Main.main (without_env calm) (start one_row) =
    (Exc (SystemExit 1), start one_row).
Proof.
  apply (main_startup_failure_is_silent (without_env calm) (start one_row)).
  intros [[H|H] _]; discriminate H.
Defined.

(** ** Custom feeds *)

Lemma split_on_length (sep : char) (s : str) :
  List.length (Main.split_on sep s) = S (count_char sep s).
Proof.
  unfold count_char. induction s as [|c s IH]; [reflexivity|].
  cbn [Main.split_on filter]. rewrite (N.eqb_sym sep c).
  destruct (c =? sep)%N; cbn [List.length]; [rewrite IH; reflexivity|].
  destruct (Main.split_on sep s); [discriminate IH | exact IH].
Qed.

Lemma split_on_parts (sep : char) (s p : str) :
  In p (Main.split_on sep s) ->
  ~ In sep p /\ (forall c, In c p -> In c s).
Proof.
  revert p. induction s as [|c s IH]; intros p.
  - intros [<-|[]]. split; [intros [] | intros c []].
  - cbn [Main.split_on]. destruct (N.eqb_spec c sep) as [->|Hc].
    + intros [<-|H]; [split; [intros [] | intros c []]|].
      destruct (IH p H) as [H1 H2]. split; [exact H1|].
      intros c Hin. right. auto.
    + destruct (Main.split_on sep s) as [|q qs] eqn:E.
      * intros [<-|[]]. split.
        -- intros [H|[]]. congruence.
        -- intros x [<-|[]]. left. reflexivity.
      * intros [<-|H].
        -- destruct (IH q (or_introl eq_refl)) as [H1 H2]. split.
           ++ intros [H|H]; [congruence | exact (H1 H)].
           ++ intros x [<-|Hx]; [left; reflexivity | right; auto].
        -- destruct (IH p (or_intror H)) as [H1 H2]. split; [exact H1|].
           intros x Hx. right. auto.
Qed.

Lemma count_char_none (c : char) (s : str) :
  count_char c s = 0 <-> ~ In c s.
Proof.
  unfold count_char. induction s as [|x s IH]; [cbn; tauto|].
  cbn [filter]. destruct (N.eqb_spec c x) as [->|Hx]; cbn [List.length].
  - split; [discriminate|]. intros H. exfalso. apply H. left. reflexivity.
  - rewrite IH. split.
    + intros H [Hin|Hin]; [congruence | exact (H Hin)].
    + intros H Hin. apply H. right. exact Hin.
Qed.

Lemma strip_In (s : str) (c : char) : In c (strip s) -> In c s.
Proof. unfold strip. intros H. apply lstrip_In, rstrip_In. exact H. Qed.

Lemma strip_ends (s : str) :
  starts_with_space (strip s) = false /\ ends_with_space (strip s) = false.
Proof.
  unfold strip. split; [|apply rstrip_ends].
  apply rstrip_starts, lstrip_starts.
Qed.

Lemma custom_feed_clean (item : str) :
  ~ In 44%N item ->
  Forall (fun f => clean_field (feed_name f) /\ clean_field (feed_url f) /\
                   feed_icon f <> None)
         (Main.custom_feed item).
Proof.
  intros Hcomma. unfold Main.custom_feed.
  pose proof (split_on_parts 124%N (strip item)) as Hparts.
  destruct (Main.split_on 124%N (strip item)) as [|name [|url rest]];
    try constructor; [|constructor].
  assert (Hfield : forall p, In p (name :: url :: rest) ->
                             clean_field (strip p)).
  { intros p Hp. destruct (Hparts p Hp) as [Hbar Hsub].
    destruct (strip_ends p) as [Hs He]. unfold clean_field.
    repeat split; auto.
    - intros H. apply Hcomma. apply strip_In, Hsub, strip_In. exact H.
    - intros H. apply Hbar. apply strip_In. exact H. }
  cbn [feed_name feed_url feed_icon].
  split; [apply Hfield; left; reflexivity|].
  split; [apply Hfield; right; left; reflexivity | discriminate].
Qed.

Lemma custom_feed_length (item : str) :
  List.length (Main.custom_feed item) =
  if count_char 124%N (strip item) =? 0 then 0 else 1.
Proof.
  unfold Main.custom_feed.
  pose proof (split_on_length 124%N (strip item)) as H.
  destruct (Main.split_on 124%N (strip item)) as [|name [|url rest]];
    cbn [List.length] in H.
  - discriminate H.
  - injection H as <-. reflexivity.
  - injection H as <-. reflexivity.
Qed.

(** X20: the custom feeds [Config.from_env] reads from
    CUSTOM_RSS_FEEDS.  The value is cut at its commas and every item at
    its bars; an item gives one feed when it has a bar and none when it
    has no bar (also an item such as a lone bar, whose name and URL are
    then empty), so there are at most as many feeds as commas plus one, and
    none for an unset or empty value.  Every name and URL is free of
    commas, bars and surrounding white space, and every custom feed has
    an icon. *)
Theorem custom_feeds_well_formed (value : option str) :
  Forall (fun f => clean_field (feed_name f) /\ clean_field (feed_url f) /\
                   feed_icon f <> None)
         (Main.custom_feeds value) /\
  List.length (Main.custom_feeds value) <=
    S (count_char 44%N (RSSParser.get_or value [])) /\
  (truthy value = false -> Main.custom_feeds value = []) /\
  (forall item,
     (In 124%N (strip item) ->
      exists f, Main.custom_feed item = [f]) /\
     (~ In 124%N (strip item) -> Main.custom_feed item = [])).
Proof.
  split; [|split; [|split]].
  - unfold Main.custom_feeds. destruct (truthy value); [|constructor].
    apply Forall_flat_map. apply Forall_forall. intros item Hitem.
    apply custom_feed_clean. apply (split_on_parts 44%N _ item Hitem).
  - unfold Main.custom_feeds. destruct (truthy value); [|cbn; lia].
    rewrite <- split_on_length.
    induction (Main.split_on 44%N (RSSParser.get_or value [])) as [|i l IH];
      [cbn; lia|].
    cbn [flat_map]. rewrite length_app, custom_feed_length.
    destruct (count_char 124%N (strip i) =? 0); cbn [List.length]; lia.
  - unfold Main.custom_feeds. intros ->. reflexivity.
  - intros item. pose proof (custom_feed_length item) as Hlen.
    pose proof (count_char_none 124%N (strip item)) as Hnone.
    destruct (Nat.eqb_spec (count_char 124%N (strip item)) 0) as [H0|H0].
    + split.
      * intros Hin. exfalso. apply Hnone in H0. exact (H0 Hin).
      * intros _. destruct (Main.custom_feed item); [reflexivity|].
        discriminate Hlen.
    + split.
      * intros _. destruct (Main.custom_feed item) as [|f [|g l]];
          try discriminate Hlen. exists f. reflexivity.
      * intros Hn. exfalso. apply H0, Hnone. exact Hn.
Qed.

Lemma custom_feeds_well_formed_witness :
  Main.custom_feeds None = [] /\
  Main.custom_feed (lit "no bar here") = [] /\
  exists f, Main.custom_feed (lit " Blog | https://a.example/feed ") = [f].
Proof.
  destruct (custom_feeds_well_formed None) as [_ [_ [Hnone Hitem]]].
  split; [apply Hnone; reflexivity|]. split.
  - apply (Hitem (lit "no bar here")). intros H. vm_compute in H.
    repeat (destruct H as [H|H]; [discriminate H|]). exact H.
  - apply (Hitem (lit " Blog | https://a.example/feed ")).
    vm_compute. tauto.
Defined.

(** ** The connectivity check *)

(** X21: [test_connection] returns a boolean in every world and never
    raises; it makes exactly one request, getMe, and touches nothing
    else.  It returns false whenever the request raises, the status is
    not 200 or the answer is not ok; so a result of true means that
    getMe answered 200 and ok. *)
Theorem test_connection_one_request (w : World) (st : St) :
  exists b st',
    TelegramPoster.test_connection w st = (Val b, st') /\
    wire st' = wire st ++ [WGetMe] /\ tick st' = S (tick st) /\
    table st' = table st /\ calls st' = calls st /\
    (connected (w_getMe w (tick st)) = false -> b = false).
Proof.
  unfold TelegramPoster.test_connection, try_except, bind,
    TelegramPoster.client_get_getMe, connected.
  destruct (w_getMe w (tick st)) as [|code ok]; cbn;
    [|destruct ((code =? 200)%N && ok)];
    eexists _, _; (split; [reflexivity|]); cbn;
    repeat split; auto; discriminate.
Qed.

Lemma test_connection_one_request_witness :
  exists st',
    TelegramPoster.test_connection connection_down (start []) =
      (Val false, st') /\
    wire st' = [WGetMe].
Proof.
  destruct (test_connection_one_request connection_down (start []))
    as [b [st' [E [W [_ [_ [_ Hb]]]]]]].
  rewrite (Hb eq_refl) in E. exists st'. split; [exact E | exact W].
Defined.
